(** * Bridge networks of the CORE emulator daemon

    A shallow embedding of [daemon/core/nodes/network.py]: the ebtables
    commit queue ([EbtablesQueue]), the Linux bridge network
    ([CoreNetwork]) and the point-to-point variant ([PtpNet]), followed by
    the properties the specification states about them and by further
    properties of the code (X1 and on).

    Python objects live in a store and are passed by reference; methods are
    computations of a small state-and-exception monad over that store.  The
    host (kernel commands, the clock, the numeric tower and the helpers
    imported from other modules) is a parameter of the development. *)

From Stdlib Require Import ZArith String Ascii List Lia HexString.
From stdpp Require Import base decidable option list strings pretty gmap.

Open Scope string_scope.
Open Scope list_scope.
Open Scope Z_scope.

(** ** Python values *)

(** Exceptions the module raises or lets through.  [BadReference] has no
    Python counterpart: it is what a method answers when it is called on a
    network reference the store does not hold. *)
Inductive exn :=
| ValueError (msg : string)
| KeyError
| TypeError
| AttributeError (attr : string)
| Exception_ (msg : string)
| CoreCommandError
| BadReference.

Inductive result (A : Type) :=
| Ok (a : A)
| Raise (e : exn).
Arguments Ok {A} a.
Arguments Raise {A} e.

(** [NetworkPolicy] is an enum of [core.emulator.enumerations]; the code
    compares against [ACCEPT] and [DROP] and keeps an [else] branch for any
    other member, which [POLICY_OTHER] stands for. *)
Inductive NetworkPolicy :=
| ACCEPT
| DROP
| POLICY_OTHER (value : string).

Definition policy_value (p : NetworkPolicy) : string :=
  match p with
  | ACCEPT => "ACCEPT"
  | DROP => "DROP"
  | POLICY_OTHER v => v
  end.

#[global] Instance NetworkPolicy_eq_dec : EqDecision NetworkPolicy.
Proof. solve_decision. Defined.

(** Numbers are Python ints and floats.  They stay abstract: [num] is the
    type of numeric values up to Python's [==], with the operations
    [linkconfig] applies to them. *)
Class PyNum (num : Type) := {
  num_eq_dec :: EqDecision num;
  num_gt0 : num -> bool;          (* x > 0 *)
  num_le0 : num -> bool;          (* x <= 0 *)
  num_truthy : num -> bool;       (* bool(x) *)
  num_float : num -> num;         (* float(x) *)
  num_int : num -> num;           (* int(x) *)
  num_min100 : num -> num;        (* min(x, 100) *)
  num_str : num -> string;        (* f"{x}" *)
  num_burst : Z -> num -> num     (* max(2 * mtu, int(bw / 1000)) *)
}.

(** A cached interface parameter: [None], a flag or a number. *)
Inductive pval (num : Type) :=
| PNone
| PBool (b : bool)
| PNum (n : num).
Arguments PNone {num}.
Arguments PBool {num} b.
Arguments PNum {num} n.

#[global] Instance pval_eq_dec {num} `{EqDecision num} : EqDecision (pval num).
Proof. solve_decision. Defined.

(** [f"{z:x}"] for an integer. *)
Definition py_hex (z : Z) : string :=
  match z with
  | Z0 => "0"
  | Zpos p => HexString.Raw.of_pos p ""
  | Zneg p => "-" +:+ HexString.Raw.of_pos p ""
  end.

(** ** Insertion-ordered dictionaries

    A Python [dict] keeps its keys in insertion order and [buildcmds]
    iterates over one, so dictionaries whose order is observed are
    association lists with at most one entry per key. *)
Section PyDict.
Context {K V : Type} `{EqDecision K}.

Fixpoint dict_get (k : K) (d : list (K * V)) : option V :=
  match d with
  | [] => None
  | (k', v) :: d' => if decide (k = k') then Some v else dict_get k d'
  end.

(** [d[k] = v]: overwrite in place, or append a new entry. *)
Fixpoint dict_set (k : K) (v : V) (d : list (K * V)) : list (K * V) :=
  match d with
  | [] => [(k, v)]
  | (k', v') :: d' =>
      if decide (k = k') then (k', v) :: d' else (k', v') :: dict_set k v d'
  end.

Fixpoint dict_del (k : K) (d : list (K * V)) : list (K * V) :=
  match d with
  | [] => []
  | (k', v') :: d' =>
      if decide (k = k') then d' else (k', v') :: dict_del k d'
  end.

Definition dict_values (d : list (K * V)) : list V := map snd d.

Definition dict_has (k : K) (d : list (K * V)) : bool :=
  match dict_get k d with Some _ => true | None => false end.
End PyDict.

(** ** Objects *)

(** The part of a [CoreInterface] that is fixed when it is constructed.
    [oid] is the object's identity: interfaces define no [__eq__], so
    Python compares and hashes them by identity, and equality of these
    records plays that role. *)
Record CoreInterface := mkInterface {
  oid : nat;
  name : string;
  localname : string;
  mtu : Z;
  node : option Z              (* id of the owning node, if any *)
}.

#[global] Instance CoreInterface_eq_dec : EqDecision CoreInterface.
Proof. solve_decision. Defined.

(** The attributes of an interface that methods assign to. *)
Record IfState (num : Type) := mkIfState {
  netifi : option Z;           (* index in the owning network *)
  net : option nat;            (* owning network *)
  othernet : option nat;       (* peer network of a bridge-to-bridge link *)
  params : gmap string (pval num);
  addrlist : list string;
  hwaddr : option string
}.
Arguments mkIfState {num}.
Arguments netifi {num}.
Arguments net {num}.
Arguments othernet {num}.
Arguments params {num}.
Arguments addrlist {num}.
Arguments hwaddr {num}.

(** [LinkOptions] of [core.emulator.emudata], as far as [linkconfig] reads
    it; every field may be [None]. *)
Record LinkOptions (num : Type) := mkLinkOptions {
  bandwidth : option num;
  delay : option num;
  per : option num;
  dup : option num;
  jitter : option num
}.
Arguments mkLinkOptions {num}.
Arguments bandwidth {num}.
Arguments delay {num}.
Arguments per {num}.
Arguments dup {num}.
Arguments jitter {num}.

(** [LinkData] of [core.emulator.data], with the fields [PtpNet] fills;
    a field left out of a constructor call is [None]. *)
Record LinkData (num : Type) := mkLinkData {
  message_type : Z;
  node1_id : Z;
  node2_id : Z;
  link_type : Z;
  unidirectional : Z;
  ld_delay : pval num;
  ld_bandwidth : pval num;
  ld_per : pval num;
  ld_dup : pval num;
  ld_jitter : pval num;
  interface1_id : Z;
  interface1_name : option string;
  interface1_mac : option string;
  interface1_ip4 : option string;
  interface1_ip4_mask : option Z;
  interface1_ip6 : option string;
  interface1_ip6_mask : option Z;
  interface2_id : Z;
  interface2_name : option string;
  interface2_mac : option string;
  interface2_ip4 : option string;
  interface2_ip4_mask : option Z;
  interface2_ip6 : option string;
  interface2_ip6_mask : option Z
}.
Arguments mkLinkData {num}.
Arguments node1_id {num}.
Arguments node2_id {num}.
Arguments unidirectional {num}.
Arguments message_type {num}.

(** [MessageFlags.NONE]. *)
Definition MessageFlags_NONE : Z := 0.

(** Modelled from the spec: the session ([core/emulator/session.py], not
    among the sources), as far as this module reads it: its id and the
    short id that bridge and veth names end in. *)
Record Session := mkSession {
  session_id : Z;
  short_session_id : string
}.

Definition row := list (CoreInterface * bool).

Record CoreNetwork := mkNetwork {
  net_id : Z;                                  (* self.id *)
  brname : string;
  up : bool;
  policy : NetworkPolicy;
  has_ebtables_chain : bool;
  _netif : list (Z * CoreInterface);
  _linked : list (CoreInterface * row);
  ifindex : Z;
  session : option Session                     (* None once deleted *)
}.

Record EbtablesQueue := mkQueue {
  doupdateloop : bool;
  updatethread : bool;                         (* a worker thread exists *)
  cmds : list string;
  updates : list nat;
  last_update_time : gmap nat Z
}.

(** ** The host *)

Inductive lock :=
| updatelock
| ebtables_lock
| linked_lock (n : nat).

#[global] Instance lock_eq_dec : EqDecision lock.
Proof. solve_decision. Defined.

(** Modelled from the spec: the calls that reach the host executor.  The
    executor ([core/utils.py]), the net-client
    ([core/nodes/netclient.py]) and the veth device are not among the
    sources.  [Shell] is [utils.cmd] (also behind an interface's
    [host_cmd]) and [Remote] the broadcast of a command to the session's
    distributed servers; the operations of the specification's net-client
    that this module uses (delete-bridge, set-interface-master, creating
    and removing a veth device) are calls of their own, whose command
    strings are the back-end's business. *)
Inductive HostCall :=
| Shell (args : string)
| Remote (args : string)
| DeleteBridge (bridge : string)
| SetInterfaceMaster (bridge ifname : string)
| CreateVeth (ifname peer : string)
| DeleteDevice (ifname : string).

Inductive event :=
| Call (c : HostCall)
| Acquire (l : lock)
| Release (l : lock).

Record World (num : Type) := mkWorld {
  nets : gmap nat CoreNetwork;
  ifaces : gmap nat (IfState num);
  ebq : EbtablesQueue;
  clock : Z;                                   (* time.monotonic(), in ms *)
  trace : list event;
  next_oid : nat
}.
Arguments mkWorld {num}.
Arguments nets {num}.
Arguments ifaces {num}.
Arguments ebq {num}.
Arguments clock {num}.
Arguments trace {num}.
Arguments next_oid {num}.

(** What the module imports and what the host decides: whether a host call
    succeeds (given everything that happened before it), the binaries'
    paths, the library functions [netaddr.valid_ipv4], [int] on strings
    and [node.getifindex], the MTU a new veth gets and the networks' link
    type. *)
Class Env := {
  host_ok : list event -> HostCall -> bool;
  EBTABLES_BIN : string;
  TC_BIN : string;
  valid_ipv4 : string -> bool;
  int_of_str : string -> option Z;
  getifindex : Z -> CoreInterface -> Z;
  veth_mtu : Z;
  linktype : Z
}.

(** ** The monad of methods *)

Declare Scope py_scope.
Delimit Scope py_scope with py.

Section Monad.
Context {num : Type}.

Definition M (A : Type) : Type := World num -> result A * World num.

Definition ret {A} (a : A) : M A := fun w => (Ok a, w).

Definition bind {A B} (m : M A) (k : A -> M B) : M B :=
  fun w =>
    match m w with
    | (Ok a, w') => k a w'
    | (Raise e, w') => (Raise e, w')
    end.

Definition raise {A} (e : exn) : M A := fun w => (Raise e, w).

Definition gets {A} (f : World num -> A) : M A := fun w => (Ok (f w), w).

Definition modify (f : World num -> World num) : M unit :=
  fun w => (Ok tt, f w).

(** [try: m except <handled>: h e]. *)
Definition try_except {A} (m : M A) (handled : exn -> bool)
    (h : exn -> M A) : M A :=
  fun w =>
    match m w with
    | (Ok a, w') => (Ok a, w')
    | (Raise e, w') => if handled e then h e w' else (Raise e, w')
    end.

(** [try: m finally: f]. *)
Definition finally {A} (m : M A) (f : M unit) : M A :=
  fun w =>
    match m w with
    | (r, w') =>
        match f w' with
        | (Ok _, w'') => (r, w'')
        | (Raise e, w'') => (Raise e, w'')
        end
    end.
End Monad.

Notation "x <- m ;; k" := (bind m (fun x => k))
  (at level 100, m at next level, right associativity) : py_scope.
Notation "m ;; k" := (bind m (fun _ => k))
  (at level 100, right associativity) : py_scope.

Open Scope py_scope.

(** ** Field updates *)

Definition with_nets {num} (f : gmap nat CoreNetwork -> gmap nat CoreNetwork)
    (w : World num) : World num :=
  mkWorld (f (nets w)) (ifaces w) (ebq w) (clock w) (trace w) (next_oid w).

Definition with_ifaces {num}
    (f : gmap nat (IfState num) -> gmap nat (IfState num))
    (w : World num) : World num :=
  mkWorld (nets w) (f (ifaces w)) (ebq w) (clock w) (trace w) (next_oid w).

Definition with_ebq {num} (f : EbtablesQueue -> EbtablesQueue)
    (w : World num) : World num :=
  mkWorld (nets w) (ifaces w) (f (ebq w)) (clock w) (trace w) (next_oid w).

Definition with_clock {num} (f : Z -> Z) (w : World num) : World num :=
  mkWorld (nets w) (ifaces w) (ebq w) (f (clock w)) (trace w) (next_oid w).

Definition with_trace {num} (f : list event -> list event)
    (w : World num) : World num :=
  mkWorld (nets w) (ifaces w) (ebq w) (clock w) (f (trace w)) (next_oid w).

Definition with_next_oid {num} (f : nat -> nat) (w : World num) : World num :=
  mkWorld (nets w) (ifaces w) (ebq w) (clock w) (trace w) (f (next_oid w)).

Definition set_up (b : bool) (n : CoreNetwork) : CoreNetwork :=
  mkNetwork (net_id n) (brname n) b (policy n) (has_ebtables_chain n)
    (_netif n) (_linked n) (ifindex n) (session n).

Definition set_has_ebtables_chain (b : bool) (n : CoreNetwork) : CoreNetwork :=
  mkNetwork (net_id n) (brname n) (up n) (policy n) b
    (_netif n) (_linked n) (ifindex n) (session n).

Definition set_netif (d : list (Z * CoreInterface)) (n : CoreNetwork)
    : CoreNetwork :=
  mkNetwork (net_id n) (brname n) (up n) (policy n) (has_ebtables_chain n)
    d (_linked n) (ifindex n) (session n).

Definition set_linked (d : list (CoreInterface * row)) (n : CoreNetwork)
    : CoreNetwork :=
  mkNetwork (net_id n) (brname n) (up n) (policy n) (has_ebtables_chain n)
    (_netif n) d (ifindex n) (session n).

Definition set_ifindex (i : Z) (n : CoreNetwork) : CoreNetwork :=
  mkNetwork (net_id n) (brname n) (up n) (policy n) (has_ebtables_chain n)
    (_netif n) (_linked n) i (session n).

Definition set_session (s : option Session) (n : CoreNetwork) : CoreNetwork :=
  mkNetwork (net_id n) (brname n) (up n) (policy n) (has_ebtables_chain n)
    (_netif n) (_linked n) (ifindex n) s.

Definition set_doupdateloop (b : bool) (q : EbtablesQueue) : EbtablesQueue :=
  mkQueue b (updatethread q) (cmds q) (updates q) (last_update_time q).

Definition set_updatethread (b : bool) (q : EbtablesQueue) : EbtablesQueue :=
  mkQueue (doupdateloop q) b (cmds q) (updates q) (last_update_time q).

Definition set_cmds (c : list string) (q : EbtablesQueue) : EbtablesQueue :=
  mkQueue (doupdateloop q) (updatethread q) c (updates q) (last_update_time q).

Definition set_updates (u : list nat) (q : EbtablesQueue) : EbtablesQueue :=
  mkQueue (doupdateloop q) (updatethread q) (cmds q) u (last_update_time q).

Definition set_last_update_time (t : gmap nat Z) (q : EbtablesQueue)
    : EbtablesQueue :=
  mkQueue (doupdateloop q) (updatethread q) (cmds q) (updates q) t.

(** Modelled from the spec: an interface object as its constructor
    ([core/nodes/interface.py], not among the sources) leaves it, with no
    index, no owning or peer network, an empty parameter cache and no
    addresses. *)
Definition fresh_if {num} : IfState num := mkIfState None None None ∅ [] None.

Definition set_netifi {num} (i : option Z) (s : IfState num) : IfState num :=
  mkIfState i (net s) (othernet s) (params s) (addrlist s) (hwaddr s).

Definition set_net {num} (n : option nat) (s : IfState num) : IfState num :=
  mkIfState (netifi s) n (othernet s) (params s) (addrlist s) (hwaddr s).

Definition set_othernet {num} (n : option nat) (s : IfState num)
    : IfState num :=
  mkIfState (netifi s) (net s) n (params s) (addrlist s) (hwaddr s).

Definition set_params {num} (p : gmap string (pval num)) (s : IfState num)
    : IfState num :=
  mkIfState (netifi s) (net s) (othernet s) p (addrlist s) (hwaddr s).

(** ** Store access, locks and host calls *)

Section Primitives.
Context {num : Type} {env : Env}.

Definition emit (e : event) : M (num := num) unit :=
  modify (with_trace (fun t => t ++ [e])).

(** A host call is logged, and fails when the host says so. *)
Definition call (c : HostCall) : M (num := num) unit :=
  fun w =>
    let w' := with_trace (fun t => t ++ [Call c]) w in
    if host_ok (trace w) c then (Ok tt, w') else (Raise CoreCommandError, w').

(** [with l: m]. *)
Definition with_lock {A} (l : lock) (m : M (num := num) A) : M A :=
  emit (Acquire l) ;; finally m (emit (Release l)).

Definition get_net (r : nat) : M (num := num) CoreNetwork :=
  fun w =>
    match nets w !! r with
    | Some n => (Ok n, w)
    | None => (Raise BadReference, w)
    end.

Definition update_net (r : nat) (f : CoreNetwork -> CoreNetwork)
    : M (num := num) unit :=
  n <- get_net r ;;
  modify (with_nets (fun m => <[r := f n]> m)).

Definition if_state_of (w : World num) (i : CoreInterface) : IfState num :=
  default fresh_if (ifaces w !! oid i).

Definition get_if (i : CoreInterface) : M (num := num) (IfState num) :=
  gets (fun w => if_state_of w i).

Definition update_if (i : CoreInterface) (f : IfState num -> IfState num)
    : M (num := num) unit :=
  modify (fun w => with_ifaces (fun m => <[oid i := f (if_state_of w i)]> m) w).

Definition update_ebq (f : EbtablesQueue -> EbtablesQueue)
    : M (num := num) unit :=
  modify (with_ebq f).

(** [for x in l: body x], over a list the body does not change. *)
Fixpoint for_ {A} (l : list A) (body : A -> M (num := num) unit)
    : M unit :=
  match l with
  | [] => ret tt
  | x :: l' => body x ;; for_ l' body
  end.
End Primitives.

(** ** EbtablesQueue *)

(** The update rate, every 300 ms; times are in milliseconds. *)
Definition rate : Z := 300.
Definition atomic_file : string := "/tmp/pycore.ebtables.atomic".

Section EbtablesQueue.
Context {num : Type} {env : Env}.
Local Abbreviation M := (M (num := num)).

Definition ebatomiccmd (cmd : string) : string :=
  EBTABLES_BIN +:+ " --atomic-file " +:+ atomic_file +:+ " " +:+ cmd.

Definition cmds_extend (l : list string) : M unit :=
  update_ebq (fun q => set_cmds (cmds q ++ l) q).

Definition buildcmds (wlan : nat) : M unit :=
  with_lock (linked_lock wlan) (
    n <- get_net wlan ;;
    (if has_ebtables_chain n then
       cmds_extend ["-F " +:+ brname n]
     else
       update_net wlan (set_has_ebtables_chain true) ;;
       cmds_extend
         [ "-N " +:+ brname n +:+ " -P " +:+ policy_value (policy n);
           "-A FORWARD --logical-in " +:+ brname n +:+ " -j " +:+ brname n ]) ;;
    for_ (_linked n) (fun '(netif1, v) =>
      for_ v (fun '(netif2, linked) =>
        if bool_decide (policy n = DROP) && linked then
          cmds_extend
            [ "-A " +:+ brname n +:+ " -i " +:+ localname netif1
                +:+ " -o " +:+ localname netif2 +:+ " -j ACCEPT";
              "-A " +:+ brname n +:+ " -o " +:+ localname netif1
                +:+ " -i " +:+ localname netif2 +:+ " -j ACCEPT" ]
        else if bool_decide (policy n = ACCEPT) && negb linked then
          cmds_extend
            [ "-A " +:+ brname n +:+ " -i " +:+ localname netif1
                +:+ " -o " +:+ localname netif2 +:+ " -j DROP";
              "-A " +:+ brname n +:+ " -o " +:+ localname netif1
                +:+ " -i " +:+ localname netif2 +:+ " -j DROP" ]
        else ret tt))).
End EbtablesQueue.

(** [ebchange]: flag a network for the next rebuild. *)
Definition ebchange {num} (wlan : nat) : M (num := num) unit :=
  with_lock updatelock (
    q <- gets ebq ;;
    if bool_decide (wlan ∈ updates q) then ret tt
    else update_ebq (fun q => set_updates (updates q ++ [wlan]) q)).

(** ** CoreNetwork: the adjacency map *)

Section Adjacency.
Context {num : Type}.
Local Abbreviation M := (M (num := num)).

(** [d[k]] on a dictionary, raising [KeyError] when the key is missing. *)
Definition subscript {A} (o : option A) : M A :=
  match o with
  | Some a => ret a
  | None => raise KeyError
  end.

Definition is_KeyError (e : exn) : bool :=
  match e with KeyError => true | _ => false end.

(** The entry of [self._netif] under an interface's [netifi]; [None], the
    index of an interface that is not attached, is never a key. *)
Definition netif_at (n : CoreNetwork) (i : option Z) : option CoreInterface :=
  match i with
  | Some i => dict_get i (_netif n)
  | None => None
  end.

(** What the network holds under the index the interface carries. *)
Definition recorded (w : World num) (n : CoreNetwork) (netif : CoreInterface)
    : option CoreInterface :=
  netif_at n (netifi (if_state_of w netif)).

(** [CoreNetwork.linked]. *)
Definition linked (self : nat) (netif1 netif2 : CoreInterface) : M bool :=
  n <- get_net self ;;
  s1 <- get_if netif1 ;;
  x1 <- subscript (netif_at n (netifi s1)) ;;
  if bool_decide (x1 <> netif1) then
    raise (ValueError ("inconsistency for netif " +:+ name netif1))
  else
  s2 <- get_if netif2 ;;
  x2 <- subscript (netif_at n (netifi s2)) ;;
  if bool_decide (x2 <> netif2) then
    raise (ValueError ("inconsistency for netif " +:+ name netif2))
  else
  try_except
    (r <- subscript (dict_get netif1 (_linked n)) ;;
     subscript (dict_get netif2 r))
    is_KeyError
    (fun _ =>
       l <- match policy n with
            | ACCEPT => ret true
            | DROP => ret false
            | POLICY_OTHER v => raise (Exception_ ("unknown policy: " +:+ v))
            end ;;
       r <- subscript (dict_get netif1 (_linked n)) ;;
       update_net self (fun n =>
         set_linked (dict_set netif1 (dict_set netif2 l r) (_linked n)) n) ;;
       ret l).

(** [self._linked[netif1][netif2] = v]. *)
Definition store_linked (self : nat) (netif1 netif2 : CoreInterface)
    (v : bool) : M unit :=
  n <- get_net self ;;
  r <- subscript (dict_get netif1 (_linked n)) ;;
  update_net self (fun n =>
    set_linked (dict_set netif1 (dict_set netif2 v r) (_linked n)) n).

(** [CoreNetwork.unlink] and [CoreNetwork.link].  Both leave the [with]
    block by [return] when there is nothing to change; the block answers
    whether it did. *)
Definition unlink (self : nat) (netif1 netif2 : CoreInterface) : M unit :=
  returned <- with_lock (linked_lock self) (
    l <- linked self netif1 netif2 ;;
    if negb l then ret true
    else store_linked self netif1 netif2 false ;; ret false) ;;
  if (returned : bool) then ret tt else ebchange self.

Definition link (self : nat) (netif1 netif2 : CoreInterface) : M unit :=
  returned <- with_lock (linked_lock self) (
    l <- linked self netif1 netif2 ;;
    if l then ret true
    else store_linked self netif1 netif2 true ;; ret false) ;;
  if (returned : bool) then ret tt else ebchange self.
End Adjacency.

(** ** CoreInterface: the parameter cache *)

Section Params.
Context {num : Type} `{!PyNum num}.
Local Abbreviation M := (M (num := num)).

Definition of_opt (o : option num) : pval num :=
  match o with
  | Some x => PNum x
  | None => PNone
  end.

(** Truth value of a cached parameter in an [if]. *)
Definition truthy (v : pval num) : bool :=
  match v with
  | PNone => false
  | PBool b => b
  | PNum x => num_truthy x
  end.

Definition cache_get (key : string) (s : IfState num) : pval num :=
  default PNone (params s !! key).

(** Modelled from the spec: [CoreInterface.getparam] of
    [core/nodes/interface.py], which is not among the sources; the
    specification's get-param(k) reads the per-parameter cache. *)
Definition getparam (netif : CoreInterface) (key : string) : M (pval num) :=
  s <- get_if netif ;;
  ret (cache_get key s).

(** Modelled from the spec: [CoreInterface.setparam] of
    [core/nodes/interface.py], which is not among the sources; the
    specification's set-param(k, v) answers whether the new value differs
    from the cached one and updates the cache. *)
Definition setparam (netif : CoreInterface) (key : string) (value : pval num)
    : M bool :=
  s <- get_if netif ;;
  if bool_decide (cache_get key s = value) then ret false
  else
    update_if netif (fun s => set_params (<[key := value]> (params s)) s) ;;
    ret true.

(** Modelled from the spec: [CoreInterface.getparams], the interface's
    parameter tuples; two interfaces have the same tuples when their caches
    hold the same values under the same keys. *)
Definition getparams (s : IfState num) : gmap string (pval num) := params s.
End Params.

(** ** CoreNetwork: traffic shaping *)

Section LinkConfig.
Context {num : Type} `{!PyNum num} {env : Env}.
Local Abbreviation M := (M (num := num)).

(** [self.up]. *)
Definition self_up (self : nat) : M bool :=
  n <- get_net self ;;
  ret (up n).

(** [if self.up: netif.host_cmd(cmd)]. *)
Definition host_cmd_if_up (self : nat) (cmd : string) : M unit :=
  u <- self_up self ;;
  if u then call (Shell cmd) else ret tt.

Definition linkconfig (self : nat) (netif : CoreInterface)
    (options : LinkOptions num) : M unit :=
  let devname := localname netif in
  let tc := TC_BIN +:+ " qdisc replace dev " +:+ devname in
  let bw := bandwidth options in
  set_bw <- setparam netif "bw" (of_opt bw) ;;
  changed <-
    (if set_bw then
       match bw with
       | None => raise TypeError          (* bw / 1000 *)
       | Some bw =>
         let burst := num_burst (mtu netif) bw in
         let tbf := "tbf rate " +:+ num_str bw +:+ " burst " +:+ num_str burst
                      +:+ " limit 65535" in
         if num_gt0 bw then
           host_cmd_if_up self (tc +:+ " root handle 1: " +:+ tbf) ;;
           setparam netif "has_tbf" (PBool true) ;;
           ret true
         else
           has_tbf <- getparam netif "has_tbf" ;;
           if truthy has_tbf && num_le0 bw then
             host_cmd_if_up self
               (TC_BIN +:+ " qdisc delete dev " +:+ devname +:+ " root") ;;
             setparam netif "has_tbf" (PBool false) ;;
             setparam netif "has_netem" (PBool false) ;;
             ret true
           else ret false
       end
     else ret false) ;;
  has_tbf <- getparam netif "has_tbf" ;;
  let parent := if truthy has_tbf then "parent 1:1" else "root" in
  let delay_ := delay options in
  c <- setparam netif "delay" (of_opt delay_) ;;
  let changed := orb changed c in
  let loss := num_float <$> per options in
  c <- setparam netif "loss" (of_opt loss) ;;
  let changed := orb changed c in
  let duplicate := num_int <$> dup options in
  c <- setparam netif "duplicate" (of_opt duplicate) ;;
  let changed := orb changed c in
  let jitter_ := jitter options in
  c <- setparam netif "jitter" (of_opt jitter_) ;;
  let changed := orb changed c in
  if negb changed then ret tt
  else
    let netem := "netem" in
    let netem :=
      match delay_ with
      | Some d => netem +:+ " delay " +:+ num_str d +:+ "us"
      | None => netem
      end in
    let netem :=
      match jitter_ with
      | Some j =>
        match delay_ with
        | None => netem +:+ " delay 0us " +:+ num_str j +:+ "us 25%"
        | Some _ => netem +:+ " " +:+ num_str j +:+ "us 25%"
        end
      | None => netem
      end in
    let netem :=
      match loss with
      | Some l =>
        if num_gt0 l then netem +:+ " loss " +:+ num_str (num_min100 l) +:+ "%"
        else netem
      | None => netem
      end in
    let netem :=
      match duplicate with
      | Some x =>
        if num_gt0 x
        then netem +:+ " duplicate " +:+ num_str (num_min100 x) +:+ "%"
        else netem
      | None => netem
      end in
    let unset_or_le0 (o : option num) :=
      match o with Some x => num_le0 x | None => true end in
    if unset_or_le0 delay_ && unset_or_le0 jitter_ && unset_or_le0 loss
       && unset_or_le0 duplicate then
      has_netem <- getparam netif "has_netem" ;;
      if negb (truthy has_netem) then ret tt
      else
        host_cmd_if_up self
          (TC_BIN +:+ " qdisc delete dev " +:+ devname +:+ " " +:+ parent
             +:+ " handle 10:") ;;
        setparam netif "has_netem" (PBool false) ;;
        ret tt
    else if Nat.ltb 1 (String.length netem) then
      host_cmd_if_up self
        (TC_BIN +:+ " qdisc replace dev " +:+ devname +:+ " " +:+ parent
           +:+ " handle 10: " +:+ netem) ;;
      setparam netif "has_netem" (PBool true) ;;
      ret tt
    else ret tt.
End LinkConfig.

(** ** Attaching interfaces *)

(** The first index from [i] on that the interface map does not use.  Every
    step that finds [i] used leaves one key less to look at, so as many
    steps as the map has entries are enough. *)
Fixpoint first_free (fuel : nat) (d : list (Z * CoreInterface)) (i : Z) : Z :=
  match fuel with
  | O => i
  | S fuel' =>
    if dict_has i d then first_free fuel' (dict_del i d) (i + 1) else i
  end.

Definition next_index (n : CoreNetwork) : Z :=
  first_free (length (_netif n)) (_netif n) (ifindex n).

Section Attach.
Context {num : Type} {env : Env}.
Local Abbreviation M := (M (num := num)).

(** Modelled from the spec: [newifindex] of the node base class
    ([core/nodes/base.py], not among the sources), the specification's
    monotonic per-network index: the next free index at or after the
    network's counter, which moves past it. *)
Definition newifindex (self : nat) : M Z :=
  n <- get_net self ;;
  let i := next_index n in
  update_net self (set_ifindex (i + 1)) ;;
  ret i.

(** Modelled from the spec: [CoreNetworkBase.attach] of
    [core/nodes/base.py], not among the sources.  The specification's
    attach assigns the next per-network index, inserts into the interface
    map, creates an empty adjacency row and sets the back-reference; it
    fails with the inconsistency error if the interface is already owned. *)
Definition base_attach (self : nat) (netif : CoreInterface) : M unit :=
  s <- get_if netif ;;
  match net s with
  | Some _ => raise (ValueError ("inconsistency for netif " +:+ name netif))
  | None =>
    i <- newifindex self ;;
    update_net self (fun n => set_netif (dict_set i netif (_netif n)) n) ;;
    update_if netif (set_netifi (Some i)) ;;
    update_net self (fun n => set_linked (dict_set netif [] (_linked n)) n) ;;
    update_if netif (set_net (Some self))
  end.

(** [CoreNetwork.attach]. *)
Definition attach (self : nat) (netif : CoreInterface) : M unit :=
  n <- get_net self ;;
  (if up n then call (SetInterfaceMaster (brname n) (localname netif))
   else ret tt) ;;
  base_attach self netif.

(** [PtpNet.attach]. *)
Definition PtpNet_attach (self : nat) (netif : CoreInterface) : M unit :=
  n <- get_net self ;;
  if bool_decide (2 <= length (_netif n))%nat then
    raise (ValueError
             "Point-to-point links support at most 2 network interfaces")
  else attach self netif.
End Attach.

(** ** PtpNet: link data *)

(** [s.partition("/")]: the text before the first slash and the text after
    it (both empty after a string without slash). *)
Fixpoint partition_slash (s : string) : string * string :=
  match s with
  | EmptyString => (EmptyString, EmptyString)
  | String c s' =>
    if Ascii.eqb c "/" then (EmptyString, s')
    else let '(a, b) := partition_slash s' in (String c a, b)
  end.

Section PtpLinkData.
Context {num : Type} `{!PyNum num} {env : Env}.
Local Abbreviation M := (M (num := num)).

Definition addr_fields : Type :=
  option string * option Z * option string * option Z.

(** The loop over [addrlist]: the last IPv4 and the last other address,
    with their masks; [int(mask)] raises [ValueError] on a mask that is not
    a number. *)
Fixpoint scan_addresses (l : list string) (acc : addr_fields)
    : M addr_fields :=
  match l with
  | [] => ret acc
  | address :: l' =>
    let '(ip, mask) := partition_slash address in
    match int_of_str mask with
    | None => raise (ValueError "invalid literal for int()")
    | Some mask =>
      let '(ip4, ip4_mask, ip6, ip6_mask) := acc in
      if valid_ipv4 ip then scan_addresses l' (Some ip, Some mask, ip6, ip6_mask)
      else scan_addresses l' (ip4, ip4_mask, Some ip, Some mask)
    end
  end.

(** [netif.node.id]; an interface without node has [node] [None]. *)
Definition node_id_of (netif : CoreInterface) : M Z :=
  match node netif with
  | Some i => ret i
  | None => raise (AttributeError "id")
  end.

Definition PtpNet_all_link_data (self : nat) (flags : Z)
    : M (list (LinkData num)) :=
  n <- get_net self ;;
  if negb (Nat.eqb (length (_netif n)) 2) then ret []
  else
    match dict_values (_netif n) with
    | [if1; if2] =>
      s1 <- get_if if1 ;;
      s2 <- get_if if2 ;;
      let unidirectional :=
        if bool_decide (getparams s1 <> getparams s2) then 1 else 0 in
      a1 <- scan_addresses (addrlist s1) (None, None, None, None) ;;
      a2 <- scan_addresses (addrlist s2) (None, None, None, None) ;;
      let '(ip4_1, ip4_mask_1, ip6_1, ip6_mask_1) := a1 in
      let '(ip4_2, ip4_mask_2, ip6_2, ip6_mask_2) := a2 in
      node1 <- node_id_of if1 ;;
      node2 <- node_id_of if2 ;;
      let link_data :=
        mkLinkData flags node1 node2 linktype unidirectional
          (cache_get "delay" s1) (cache_get "bw" s1) (cache_get "loss" s1)
          (cache_get "duplicate" s1) (cache_get "jitter" s1)
          (getifindex node1 if1) (Some (name if1)) (hwaddr s1)
          ip4_1 ip4_mask_1 ip6_1 ip6_mask_1
          (getifindex node2 if2) (Some (name if2)) (hwaddr s2)
          ip4_2 ip4_mask_2 ip6_2 ip6_mask_2 in
      if Z.eqb unidirectional 0 then ret [link_data]
      else
        let link_data2 :=
          mkLinkData MessageFlags_NONE node2 node1 linktype 1
            (cache_get "delay" s2) (cache_get "bw" s2) (cache_get "loss" s2)
            (cache_get "duplicate" s2) (cache_get "jitter" s2)
            (getifindex node2 if2) None None None None None None
            (getifindex node1 if1) None None None None None None in
        ret [link_data; link_data2]
    | _ => raise (ValueError "not enough values to unpack")
    end.
End PtpLinkData.

(** ** Bridge-to-bridge links *)

Section LinkNet.
Context {num : Type} {env : Env}.
Local Abbreviation M := (M (num := num)).

(** [self.session]; the attribute is gone after [shutdown]. *)
Definition get_session (self : nat) : M Session :=
  n <- get_net self ;;
  match session n with
  | Some s => ret s
  | None => raise (AttributeError "session")
  end.

(** Modelled from the spec: the constructor [Veth] of
    [core/nodes/interface.py], not among the sources.  It makes a new
    interface object with the two names and, when [start] is set, has the
    host create the veth pair. *)
Definition Veth (name localname : string) (start : bool) : M CoreInterface :=
  o <- gets next_oid ;;
  modify (with_next_oid S) ;;
  let netif := mkInterface o name localname veth_mtu None in
  modify (with_ifaces (fun m => <[o := fresh_if]> m)) ;;
  (if start then call (CreateVeth localname name) else ret tt) ;;
  ret netif.

Definition nonempty (s : string) : bool :=
  match s with EmptyString => false | _ => true end.

(** [CoreNetwork.linknet].  Ids are ints, for which [f"{id:x}"] does not
    raise, so the fallback to [str(id)] is never taken. *)
Definition linknet (self net : nat) : M CoreInterface :=
  sess <- get_session self ;;
  let sessionid := short_session_id sess in
  n <- get_net self ;;
  let _id := py_hex (net_id n) in
  p <- get_net net ;;
  let net_id_ := py_hex (net_id p) in
  let localname := "veth" +:+ _id +:+ "." +:+ net_id_ +:+ "." +:+ sessionid in
  if bool_decide (16 <= String.length localname)%nat then
    raise (ValueError ("interface local name " +:+ localname +:+ " too long"))
  else
  let name := "veth" +:+ net_id_ +:+ "." +:+ _id +:+ "." +:+ sessionid in
  if bool_decide (16 <= String.length name)%nat then
    raise (ValueError ("interface name " +:+ name +:+ " too long"))
  else
  netif <- Veth name localname (up n) ;;
  attach self netif ;;
  p <- get_net net ;;
  (if up p && nonempty (brname p)
   then call (SetInterfaceMaster (brname p) name)
   else ret tt) ;;
  i <- newifindex net ;;
  update_net net (fun p => set_netif (dict_set i netif (_netif p)) p) ;;
  with_lock (linked_lock net)
    (update_net net (fun p => set_linked (dict_set netif [] (_linked p)) p)) ;;
  update_if netif (set_net (Some self)) ;;
  update_if netif (set_othernet (Some net)) ;;
  ret netif.
End LinkNet.

(** ** The worker of the queue and the commit *)

Definition is_CoreCommandError (e : exn) : bool :=
  match e with CoreCommandError => true | _ => false end.

(** [l.remove(x)] on a list that holds [x]: the first occurrence goes. *)
Fixpoint list_remove (x : nat) (l : list nat) : list nat :=
  match l with
  | [] => []
  | y :: l' => if decide (x = y) then l' else y :: list_remove x l'
  end.

Section Worker.
Context {num : Type} {env : Env}.
Local Abbreviation M := (M (num := num)).

(** [CoreNetwork.host_cmd]: the command runs on the host, then on every
    distributed server of the session. *)
Definition host_cmd (self : nat) (args : string) : M unit :=
  call (Shell args) ;;
  get_session self ;;
  call (Remote args).

Definition lastupdate (wlan : nat) : M Z :=
  now <- gets clock ;;
  q <- gets ebq ;;
  match last_update_time q !! wlan with
  | Some t => ret (now - t)
  | None =>
    now <- gets clock ;;
    update_ebq (fun q =>
      set_last_update_time (<[wlan := now]> (last_update_time q)) q) ;;
    ret 0
  end.

Definition updated (wlan : nat) : M unit :=
  now <- gets clock ;;
  update_ebq (fun q =>
    set_last_update_time (<[wlan := now]> (last_update_time q)) q) ;;
  q <- gets ebq ;;
  if bool_decide (wlan ∈ updates q) then
    update_ebq (fun q => set_updates (list_remove wlan (updates q)) q)
  else raise (ValueError "list.remove(x): x not in list").

Definition ebcommit (wlan : nat) : M unit :=
  host_cmd wlan (ebatomiccmd "--atomic-save") ;;
  q <- gets ebq ;;
  for_ (cmds q) (fun c => host_cmd wlan (ebatomiccmd c)) ;;
  update_ebq (set_cmds []) ;;
  host_cmd wlan (ebatomiccmd "--atomic-commit") ;;
  try_except (host_cmd wlan ("rm -f " +:+ atomic_file))
    is_CoreCommandError (fun _ => ret tt).

(** The body of the worker's [for wlan in self.updates].  [wlan.session]
    is evaluated for its exception only: a network whose session is gone is
    marked as updated, which takes it off the list, and the loop goes
    on. *)
Definition visit (wlan : nat) : M unit :=
  stale <- try_except (get_session wlan ;; ret false)
             (fun _ => true) (fun _ => ret true) ;;
  if (stale : bool) then updated wlan
  else
    elapsed <- lastupdate wlan ;;
    if rate <? elapsed then
      buildcmds wlan ;;
      ebcommit wlan ;;
      updated wlan
    else ret tt.

(** [for wlan in self.updates] while the body removes from the list: the
    iterator is an index into the list as it is at each step, and stops
    when the index is past its end.  The list does not grow meanwhile, so
    as many steps as it has entries at the start are enough. *)
Fixpoint scan_updates (fuel i : nat) : M unit :=
  match fuel with
  | O => ret tt
  | S fuel' =>
    q <- gets ebq ;;
    match updates q !! i with
    | None => ret tt
    | Some wlan => visit wlan ;; scan_updates fuel' (S i)
    end
  end.

(** One turn of [while self.doupdateloop] in [updateloop]. *)
Definition updateloop_pass : M unit :=
  with_lock updatelock (
    q <- gets ebq ;;
    scan_updates (length (updates q)) 0) ;;
  modify (with_clock (fun t => t + rate)).

Definition startupdateloop (wlan : nat) : M unit :=
  with_lock updatelock (
    now <- gets clock ;;
    update_ebq (fun q =>
      set_last_update_time (<[wlan := now]> (last_update_time q)) q)) ;;
  q <- gets ebq ;;
  if doupdateloop q then ret tt
  else
    update_ebq (set_doupdateloop true) ;;
    update_ebq (set_updatethread true).

(** Deleting a missing timestamp raises [KeyError], which is logged and
    dropped; [join] waits for the worker and changes nothing here. *)
Definition stopupdateloop (wlan : nat) : M unit :=
  with_lock updatelock (
    update_ebq (fun q =>
      set_last_update_time (delete wlan (last_update_time q)) q)) ;;
  q <- gets ebq ;;
  if bool_decide (0 < size (last_update_time q))%nat then ret tt
  else
    update_ebq (set_doupdateloop false) ;;
    q <- gets ebq ;;
    if updatethread q then update_ebq (set_updatethread false) else ret tt.

(** [ebtablescmds]. *)
Definition ebtablescmds (call_ : string -> M unit) (cmds : list string)
    : M unit :=
  with_lock ebtables_lock (for_ cmds call_).

(** Modelled from the spec: [shutdown] of an interface
    ([core/nodes/interface.py], not among the sources), which removes the
    underlying device through the net-client; a command failure during
    teardown is logged and the teardown goes on. *)
Definition netif_shutdown (netif : CoreInterface) : M unit :=
  try_except (call (DeleteDevice (localname netif)))
    is_CoreCommandError (fun _ => ret tt).

(** [del self.session]. *)
Definition del_session (self : nat) : M unit :=
  get_session self ;;
  update_net self (set_session None).

(** [CoreNetwork.shutdown]. *)
Definition shutdown (self : nat) : M unit :=
  n <- get_net self ;;
  if negb (up n) then ret tt
  else
    stopupdateloop self ;;
    try_except
      (n <- get_net self ;;
       call (DeleteBridge (brname n)) ;;
       if has_ebtables_chain n then
         ebtablescmds (host_cmd self)
           [ EBTABLES_BIN +:+ " -D FORWARD --logical-in " +:+ brname n
               +:+ " -j " +:+ brname n;
             EBTABLES_BIN +:+ " -X " +:+ brname n ]
       else ret tt)
      is_CoreCommandError (fun _ => ret tt) ;;
    n <- get_net self ;;
    for_ (dict_values (_netif n)) netif_shutdown ;;
    update_net self (set_netif []) ;;
    update_net self (set_linked []) ;;
    del_session self ;;
    update_net self (set_up false).
End Worker.

(** ** CoreNetwork: looking up a bridge-to-bridge link *)

Section GetLinkNetif.
Context {num : Type}.
Local Abbreviation M := (M (num := num)).

(** The loop of [getlinknetif]: the first interface whose [othernet] is
    the given network. *)
Fixpoint find_linknetif (l : list CoreInterface) (net : nat)
    : M (option CoreInterface) :=
  match l with
  | [] => ret None
  | netif :: l' =>
    s <- get_if netif ;;
    if bool_decide (othernet s = Some net) then ret (Some netif)
    else find_linknetif l' net
  end.

(** [CoreNetwork.getlinknetif]; [self.netifs()] lists the interfaces of
    the interface map, as in [shutdown]. *)
Definition getlinknetif (self net : nat) : M (option CoreInterface) :=
  n <- get_net self ;;
  find_linknetif (dict_values (_netif n)) net.
End GetLinkNetif.

(** ** Starting a bridge *)

(** Modelled from the spec: the operations of the net-client
    ([core/nodes/netclient.py], not among the sources) that starting a
    network uses, create-bridge and disable-mac-learning.  Each reaches the
    host as one call; which call it is, the back-end in use decides. *)
Inductive NetClientOp :=
| CreateBridge (bridge : string)
| DisableMacLearning (bridge : string).

Class NetClient := {
  net_client_call : NetClientOp -> HostCall
}.

Section Startup.
Context {num : Type} {env : Env} {client : NetClient}.
Local Abbreviation M := (M (num := num)).

(** [self.net_client.<op>(...)]. *)
Definition net_client (op : NetClientOp) : M unit :=
  call (net_client_call op).

(** [CoreNetwork.startup]. *)
Definition startup (self : nat) : M unit :=
  n <- get_net self ;;
  net_client (CreateBridge (brname n)) ;;
  update_net self (set_has_ebtables_chain false) ;;
  update_net self (set_up true).

(** [HubNode.startup]. *)
Definition HubNode_startup (self : nat) : M unit :=
  startup self ;;
  n <- get_net self ;;
  net_client (DisableMacLearning (brname n)).

(** [WlanNode.startup]. *)
Definition WlanNode_startup (self : nat) : M unit :=
  startup self ;;
  n <- get_net self ;;
  net_client (DisableMacLearning (brname n)) ;;
  ebchange self.
End Startup.

(** ** The chain a network's adjacency map asks for

    The rules of the specification's chain build, written from its words:
    per pair, two accept rules under DROP when linked, two drop rules under
    ACCEPT when not linked, nothing otherwise. *)

Definition flush_cmd (bridge : string) : string := "-F " +:+ bridge.

Definition new_chain_cmd (bridge : string) (p : NetworkPolicy) : string :=
  "-N " +:+ bridge +:+ " -P " +:+ policy_value p.

Definition forward_jump_cmd (bridge : string) : string :=
  "-A FORWARD --logical-in " +:+ bridge +:+ " -j " +:+ bridge.

(** The two rules for traffic entering at [a] and leaving at [b], and
    entering at [b] and leaving at [a]. *)
Definition pair_rules (bridge : string) (a b : CoreInterface)
    (target : string) : list string :=
  [ "-A " +:+ bridge +:+ " -i " +:+ localname a +:+ " -o " +:+ localname b
      +:+ " -j " +:+ target;
    "-A " +:+ bridge +:+ " -o " +:+ localname a +:+ " -i " +:+ localname b
      +:+ " -j " +:+ target ].

Definition rules_of_pair (p : NetworkPolicy) (bridge : string)
    (a b : CoreInterface) (linked : bool) : list string :=
  match p, linked with
  | DROP, true => pair_rules bridge a b "ACCEPT"
  | ACCEPT, false => pair_rules bridge a b "DROP"
  | _, _ => []
  end.

Definition chain_header (n : CoreNetwork) : list string :=
  if has_ebtables_chain n then [flush_cmd (brname n)]
  else [new_chain_cmd (brname n) (policy n); forward_jump_cmd (brname n)].

Definition chain_rules (n : CoreNetwork) : list string :=
  flat_map (fun '(a, r) =>
    flat_map (fun '(b, l) => rules_of_pair (policy n) (brname n) a b l) r)
    (_linked n).

Definition add_cmds {num} (l : list string) (w : World num) : World num :=
  with_ebq (fun q => set_cmds (cmds q ++ l) q) w.

Definition add_events {num} (l : list event) (w : World num) : World num :=
  with_trace (fun t => t ++ l) w.

(** The policy default of the specification: pairs are linked under ACCEPT
    and not linked under DROP. *)
Definition policy_default (p : NetworkPolicy) : option bool :=
  match p with
  | ACCEPT => Some true
  | DROP => Some false
  | POLICY_OTHER _ => None
  end.

(** The network with the adjacency entry of the ordered pair (a, b) set. *)
Definition with_entry (a b : CoreInterface) (v : bool) (r : row)
    (n : CoreNetwork) : CoreNetwork :=
  set_linked (dict_set a (dict_set b v r) (_linked n)) n.

Definition put_net {num} (self : nat) (n : CoreNetwork) (w : World num)
    : World num :=
  with_nets (fun m => <[self := n]> m) w.

(** The stored adjacency entry of the ordered pair (a, b), if any. *)
Definition stored (n : CoreNetwork) (a b : CoreInterface) : option bool :=
  match dict_get a (_linked n) with
  | Some r => dict_get b r
  | None => None
  end.

(** The specification's mark-dirty on the queue: add the network to the
    dirty list unless it is there. *)
Definition mark_dirty (self : nat) (q : EbtablesQueue) : EbtablesQueue :=
  if bool_decide (self ∈ updates q) then q
  else set_updates (updates q ++ [self]) q.

(** What an observer of the program can tell of a world: everything but
    the lock events of the trace. *)
Definition calls_of (t : list event) : list HostCall :=
  flat_map (fun e => match e with Call c => [c] | _ => [] end) t.

Definition observable {num} (w : World num) :=
  (nets w, ifaces w, ebq w, clock w, calls_of (trace w), next_oid w).

(** [link] and [unlink] differ in the target value only; this is their
    common shape, used to reason about both at once. *)
Definition relink {num} (target : bool) (self : nat)
    (netif1 netif2 : CoreInterface) : M (num := num) unit :=
  returned <- with_lock (linked_lock self) (
    l <- linked self netif1 netif2 ;;
    if eqb l target then ret true
    else store_linked self netif1 netif2 target ;; ret false) ;;
  if (returned : bool) then ret tt else ebchange self.

(** The world [relink] leaves: nothing but the lock events when the entry
    is stored with the target value; the defaulted entry when the default
    is the target; else the entry set and the network marked dirty. *)
Definition relink_world {num} (target : bool) (self : nat) (n : CoreNetwork)
    (a b : CoreInterface) (r : row) (d : bool) (w : World num) : World num :=
  if eqb (default d (dict_get b r)) target then
    add_events [Acquire (linked_lock self); Release (linked_lock self)]
      (match dict_get b r with
       | Some _ => w
       | None => put_net self (with_entry a b d r n) w
       end)
  else
    add_events [Acquire (linked_lock self); Release (linked_lock self);
                Acquire updatelock; Release updatelock]
      (with_ebq (mark_dirty self) (put_net self (with_entry a b target r n) w)).

(** The link state in force for the ordered pair (a, b): the stored entry,
    or the policy default while nothing is stored. *)
Definition in_force (n : CoreNetwork) (a b : CoreInterface) : option bool :=
  match stored n a b with
  | Some v => Some v
  | None => policy_default (policy n)
  end.

(** Operations on the adjacency map of one network, and their runs. *)
Inductive adj_op :=
| OpLink (a b : CoreInterface)
| OpUnlink (a b : CoreInterface)
| OpLinked (a b : CoreInterface).

Definition run_op {num} (self : nat) (o : adj_op) : M (num := num) unit :=
  match o with
  | OpLink a b => link self a b
  | OpUnlink a b => unlink self a b
  | OpLinked a b => linked self a b ;; ret tt
  end.

Definition run_ops {num} (self : nat) (l : list adj_op) : M (num := num) unit :=
  for_ l (run_op self).

(** The same operation on the pair taken in the other order. *)
Definition mirror (o : adj_op) : adj_op :=
  match o with
  | OpLink a b => OpLink b a
  | OpUnlink a b => OpUnlink b a
  | OpLinked a b => OpLinked b a
  end.

(** A run in which every operation is immediately followed by the same
    operation on the pair in the other order. *)
Definition both_ways (l : list adj_op) : list adj_op :=
  flat_map (fun o => [o; mirror o]) l.

(** What an operation does to the link state in force. *)
Definition in_force_after (o : adj_op) (f : CoreInterface -> CoreInterface -> option bool)
    (p q : CoreInterface) : option bool :=
  match o with
  | OpLink a b => if decide (p = a /\ q = b) then Some true else f p q
  | OpUnlink a b => if decide (p = a /\ q = b) then Some false else f p q
  | OpLinked _ _ => f p q
  end.

(** The adjacency map answers the same for both orders of every pair. *)
Definition symmetric (n : CoreNetwork) : Prop :=
  forall p q, in_force n p q = in_force n q p.

(** From network state [n] in world [w] to [n1] in [w1], nothing changed
    about which interfaces are attached, the policy, or which interfaces
    have an adjacency row. *)
Definition same_attachment {num} (self : nat) (w : World num) (n : CoreNetwork)
    (w1 : World num) (n1 : CoreNetwork) : Prop :=
  nets w1 !! self = Some n1 /\
  ifaces w1 = ifaces w /\
  _netif n1 = _netif n /\
  policy n1 = policy n /\
  forall x, is_Some (dict_get x (_linked n)) -> is_Some (dict_get x (_linked n1)).

(** ** Reasoning about computations *)

(** [m] keeps the property [I] of the world, whatever its outcome. *)
Definition preserves {num A} (I : World num -> Prop) (m : M (num := num) A)
    : Prop :=
  forall w, I w -> I (snd (m w)).

(** When [m] starts where [P] holds and returns [a], [Q a] holds. *)
Definition triple {num A} (P : World num -> Prop) (m : M (num := num) A)
    (Q : A -> World num -> Prop) : Prop :=
  forall w a w', P w -> m w = (Ok a, w') -> Q a w'.

(** The interface's cache holds [v] under [key]. *)
Definition cached {num} (netif : CoreInterface) (key : string) (v : pval num)
    (w : World num) : Prop :=
  cache_get key (if_state_of w netif) = v.

(** The cache holds what [linkconfig] stores for these options. *)
Definition cached_as_requested {num} `{!PyNum num} (netif : CoreInterface)
    (o : LinkOptions num) (w : World num) : Prop :=
  cached netif "bw" (of_opt (bandwidth o)) w /\
  cached netif "delay" (of_opt (delay o)) w /\
  cached netif "loss" (of_opt (num_float <$> per o)) w /\
  cached netif "duplicate" (of_opt (num_int <$> dup o)) w /\
  cached netif "jitter" (of_opt (jitter o)) w.

(** What attaching [netif] at index [i] leaves in the network and on the
    interface. *)
Definition attach_net (netif : CoreInterface) (i : Z) (n : CoreNetwork)
    : CoreNetwork :=
  set_linked (dict_set netif [] (_linked n))
    (set_netif (dict_set i netif (_netif n)) (set_ifindex (i + 1) n)).

Definition put_if {num} (netif : CoreInterface) (s : IfState num)
    (w : World num) : World num :=
  with_ifaces (fun m => <[oid netif := s]> m) w.

Definition attach_world {num} (self : nat) (netif : CoreInterface)
    (n : CoreNetwork) (w : World num) : World num :=
  put_if netif
    (set_net (Some self)
       (set_netifi (Some (next_index n)) (if_state_of w netif)))
    (put_net self (attach_net netif (next_index n) n) w).

(** An address in CIDR form: what follows the slash reads as a number. *)
Definition has_mask {env : Env} (address : string) : Prop :=
  is_Some (int_of_str (snd (partition_slash address))).

(** The veth names of the specification:
    veth<self-id-hex>.<peer-id-hex>.<session-short-id>. *)
Definition veth_localname (self_id peer_id : Z) (sess : string) : string :=
  "veth" +:+ py_hex self_id +:+ "." +:+ py_hex peer_id +:+ "." +:+ sess.

(** What [linknet] leaves once the veth is attached to this bridge: the
    interface registered in the peer [p] at the peer's next free index with
    an empty adjacency row, and both networks recorded on the interface. *)
Definition register_world {num} (self net : nat) (netif : CoreInterface)
    (p : CoreNetwork) (w : World num) : World num :=
  let w1 :=
    add_events [Acquire (linked_lock net); Release (linked_lock net)]
      (put_net net (attach_net netif (next_index p) p) w) in
  put_if netif
    (set_othernet (Some net) (set_net (Some self) (if_state_of w1 netif))) w1.

(** The host calls and lock events of a [linknet] that returns. *)
Definition linknet_events (n p : CoreNetwork) (vlocal vname : string)
    (net : nat) : list event :=
  (if up n then [Call (CreateVeth vlocal vname);
                 Call (SetInterfaceMaster (brname n) vlocal)]
   else []) ++
  (if up p && nonempty (brname p)
   then [Call (SetInterfaceMaster (brname p) vname)] else []) ++
  [Acquire (linked_lock net); Release (linked_lock net)].

(** Properties of the world that the trace, or the queue, does not
    decide. *)
Definition ignores_trace {num} (I : World num -> Prop) : Prop :=
  forall f w, I w -> I (with_trace f w).

Definition ignores_ebq {num} (I : World num -> Prop) : Prop :=
  forall f w, I w -> I (with_ebq f w).

(** The part of the worker's loop body that runs for a network whose
    session is there: rebuild and commit once the rate allows it. *)
Definition rebuild_if_due {num} {env : Env} (wlan : nat) : M (num := num) unit :=
  elapsed <- lastupdate wlan ;;
  if rate <? elapsed then
    buildcmds wlan ;;
    ebcommit wlan ;;
    updated wlan
  else ret tt.

(** Reading [wlan.session] raises. *)
Definition session_raises {num} (wlan : nat) (w : World num) : bool :=
  match fst (get_session wlan w) with
  | Ok _ => false
  | Raise _ => true
  end.

(** The network as [shutdown] leaves it. *)
Definition shut_down (n : CoreNetwork) : CoreNetwork :=
  set_up false (set_session None (set_linked [] (set_netif [] n))).

(** ** Locks around host calls *)

(** [l.release()] by the thread that holds it. *)
Fixpoint release (l : lock) (held : list lock) : list lock :=
  match held with
  | [] => []
  | l' :: held' => if decide (l = l') then held' else l' :: release l held'
  end.

(** The locks held after the events [t], from the locks [held] before. *)
Fixpoint held_after (held : list lock) (t : list event) : list lock :=
  match t with
  | [] => held
  | Call _ :: t' => held_after held t'
  | Acquire l :: t' => held_after (l :: held) t'
  | Release l :: t' => held_after (release l held) t'
  end.

(** The host calls among the events [t], each with the locks held when it
    is made. *)
Fixpoint calls_with_locks (held : list lock) (t : list event)
    : list (HostCall * list lock) :=
  match t with
  | [] => []
  | Call c :: t' => (c, held) :: calls_with_locks held t'
  | Acquire l :: t' => calls_with_locks (l :: held) t'
  | Release l :: t' => calls_with_locks (release l held) t'
  end.

(** Started with the locks [held], [m] only adds events to the trace, ends
    with the same locks held, and makes each of its host calls with a set
    of locks that satisfies [P]. *)
Definition emits {num A} (held : list lock) (P : list lock -> Prop)
    (m : M (num := num) A) : Prop :=
  forall w, exists evs,
    trace (snd (m w)) = trace w ++ evs /\
    held_after held evs = held /\
    Forall (fun x => P (snd x)) (calls_with_locks held evs).

(** The dirty list has at most [k] entries. *)
Definition at_most_dirty {num} (k : nat) (w : World num) : Prop :=
  (length (updates (ebq w)) <= k)%nat.

(** ** The dirty list and the worker's pass *)

(** The dirty list satisfies [P]. *)
Definition on_dirty {num} (P : list nat -> Prop) (w : World num) : Prop :=
  P (updates (ebq w)).

(** The entries at the second, fourth, ... place of a list. *)
Fixpoint every_second {A} (l : list A) : list A :=
  match l with
  | _ :: y :: l' => y :: every_second l'
  | _ => []
  end.

(** The network's last update is no more than [rate] ago, or it has no
    timestamp yet. *)
Definition not_due {num} (wlan : nat) (w : World num) : Prop :=
  match last_update_time (ebq w) !! wlan with
  | Some t => clock w - t <= rate
  | None => True
  end.

(** The calls [host_cmd] makes for a command. *)
Definition host_cmd_calls (args : string) : list event :=
  [Call (Shell args); Call (Remote args)].

(** The queue after [updated]: the timestamp written, the first entry of
    the network taken off the dirty list. *)
Definition mark_updated (wlan : nat) (now : Z) (q : EbtablesQueue)
    : EbtablesQueue :=
  set_updates (list_remove wlan (updates q))
    (set_last_update_time (<[wlan := now]> (last_update_time q)) q).

(** ** The atomic commit *)

Definition rm_atomic_file : string := "rm -f " +:+ atomic_file.

(** The commands of a commit that must succeed for it to go through: the
    save, the pending commands against the file, the commit. *)
Definition commit_cmds {env : Env} (pending : list string) : list string :=
  ebatomiccmd "--atomic-save" :: map ebatomiccmd pending
    ++ [ebatomiccmd "--atomic-commit"].

(** The host accepts these commands, locally and on the servers, whenever
    they are run. *)
Definition accepts {env : Env} (l : list string) : Prop :=
  forall t c, c ∈ l ->
    host_ok t (Shell c) = true /\ host_ok t (Remote c) = true.

(** The events of the removal of the atomic file, after the events [t]:
    the servers are asked only when the local removal went through. *)
Definition rm_events {env : Env} (t : list event) : list event :=
  if host_ok t (Shell rm_atomic_file) then host_cmd_calls rm_atomic_file
  else [Call (Shell rm_atomic_file)].

(** The host calls of [host_cmd] for each of the commands, in order. *)
Definition host_calls (l : list string) : list HostCall :=
  flat_map (fun c => [Shell c; Remote c]) l.

(** ** Addresses in link data *)

(** The address and mask of the last entry of an address list whose
    address part [p] accepts, if there is one. *)
Definition last_address {env : Env} (p : string -> bool) (l : list string)
    (d : option string * option Z) : option string * option Z :=
  match last (List.filter (fun a => p (fst (partition_slash a))) l) with
  | Some a =>
      (Some (fst (partition_slash a)), int_of_str (snd (partition_slash a)))
  | None => d
  end.

(** A link record without names, hardware addresses and IP addresses. *)
Definition bare_record {num} (r : LinkData num) : Prop :=
  interface1_name _ r = None /\ interface1_mac _ r = None /\
  interface1_ip4 _ r = None /\ interface1_ip4_mask _ r = None /\
  interface1_ip6 _ r = None /\ interface1_ip6_mask _ r = None /\
  interface2_name _ r = None /\ interface2_mac _ r = None /\
  interface2_ip4 _ r = None /\ interface2_ip4_mask _ r = None /\
  interface2_ip6 _ r = None /\ interface2_ip6_mask _ r = None.

(** ** Bridge-to-bridge links, looked up *)

(** The store [linknet] leaves when it returns the interface [a], but
    for the trace. *)
Definition linknet_world {num} (self peer : nat) (a : CoreInterface)
    (n p : CoreNetwork) (w : World num) : World num :=
  register_world self peer a p
    (attach_world self a n (put_if a fresh_if (with_next_oid S w))).

(** The network as [startup] leaves it. *)
Definition started (n : CoreNetwork) : CoreNetwork :=
  set_up true (set_has_ebtables_chain false n).

(** ** Names of veth devices *)

(** A string without dot and minus sign. *)
Fixpoint plain (s : string) : Prop :=
  match s with
  | EmptyString => True
  | String c s' => c <> "."%char /\ c <> "-"%char /\ plain s'
  end.

(** ** A sample host

    Whole numbers as the numeric values, and a host on which every call
    succeeds.  The instance serves the samples only: it takes [float] and
    [int] as the identity, writes every number without a fractional part
    (Python writes [float(25)] as 25.0) and takes the quotient of the burst
    exactly.  The theorems about [linkconfig] hold for every instance. *)

#[global] Instance PyNum_Z : PyNum Z := {
  num_gt0 x := 0 <? x;
  num_le0 x := x <=? 0;
  num_truthy x := negb (x =? 0);
  num_float x := x;
  num_int x := x;
  num_min100 x := Z.min x 100;
  num_str x := pretty x;
  num_burst m bw := Z.max (2 * m) (bw `quot` 1000)
}.

Definition sample_env : Env := {|
  host_ok := fun _ _ => true;
  EBTABLES_BIN := "/sbin/ebtables";
  TC_BIN := "/sbin/tc";
  valid_ipv4 := fun s => match index 0 ":" s with Some _ => false | None => true end;
  int_of_str := fun s => match s with "24" => Some 24 | "64" => Some 64 | _ => None end;
  getifindex := fun _ _ => 0;
  veth_mtu := 1500;
  linktype := 1
|}.

Definition eth_a : CoreInterface := mkInterface 1 "eth0" "veth1.0.1" 1500 (Some 1).
Definition eth_b : CoreInterface := mkInterface 2 "eth0" "veth2.0.1" 1500 (Some 2).
Definition eth_c : CoreInterface := mkInterface 3 "eth0" "veth3.0.1" 1500 (Some 3).

Definition sample_session : Session := mkSession 1 "1".

(** A started wireless LAN (policy DROP) with [eth_a] and [eth_b] attached
    at indices 0 and 1 and nothing recorded about their link yet. *)
Definition wlan0 : CoreNetwork :=
  mkNetwork 5 "b.5.1" true DROP false
    [(0, eth_a); (1, eth_b)] [(eth_a, []); (eth_b, [])] 2 (Some sample_session).

Definition queue0 : EbtablesQueue := mkQueue true true [] [] {[ 0%nat := 0 ]}.

Definition world0 : World Z :=
  mkWorld {[ 0%nat := wlan0 ]}
    {[ 1%nat := set_net (Some 0%nat) (set_netifi (Some 0) fresh_if);
       2%nat := set_net (Some 0%nat) (set_netifi (Some 1) fresh_if) ]}
    queue0 1000 [] 10.

(** The options of the test suite's link update. *)
Definition sample_options : LinkOptions Z :=
  mkLinkOptions (Some 5000000) (Some 50) (Some 25) (Some 25) (Some 10).

(** A started point-to-point network without interfaces, and three
    interfaces no network owns yet. *)
Definition ptp0 : CoreNetwork :=
  mkNetwork 7 "b.7.1" true ACCEPT false [] [] 0 (Some sample_session).

Definition eth_d : CoreInterface := mkInterface 4 "eth0" "veth4.0.1" 1500 (Some 4).
Definition eth_e : CoreInterface := mkInterface 5 "eth0" "veth5.0.1" 1500 (Some 5).

Definition ptp_world : World Z :=
  mkWorld {[ 0%nat := ptp0 ]} ∅ (mkQueue false false [] [] ∅) 1000 [] 10.

(** The point-to-point network after [eth_c] and [eth_d] were attached. *)
Definition ptp2 : CoreNetwork :=
  mkNetwork 7 "b.7.1" true ACCEPT false
    [(0, eth_c); (1, eth_d)] [(eth_c, []); (eth_d, [])] 2 (Some sample_session).

Definition ptp_world2 : World Z :=
  mkWorld {[ 0%nat := ptp2 ]}
    {[ 3%nat := set_net (Some 0%nat) (set_netifi (Some 0) fresh_if);
       4%nat := set_net (Some 0%nat) (set_netifi (Some 1) fresh_if) ]}
    (mkQueue false false [] [] ∅) 1000
    [Call (SetInterfaceMaster "b.7.1" "veth3.0.1");
     Call (SetInterfaceMaster "b.7.1" "veth4.0.1")] 10.

(** The point-to-point network of two nodes with one address each; in
    [ptp_world_uni] the first interface carries a delay the second has
    not. *)
Definition ptp_world_addr : World Z :=
  mkWorld {[ 0%nat := ptp2 ]}
    {[ 3%nat := mkIfState (Some 0) (Some 0%nat) None ∅ ["10.0.0.1/24"] None;
       4%nat := mkIfState (Some 1) (Some 0%nat) None ∅ ["10.0.0.2/24"] None ]}
    (mkQueue false false [] [] ∅) 1000 [] 10.

Definition ptp_world_uni : World Z :=
  mkWorld {[ 0%nat := ptp2 ]}
    {[ 3%nat := mkIfState (Some 0) (Some 0%nat) None {[ "delay" := PNum 50 ]}
                  ["10.0.0.1/24"] None;
       4%nat := mkIfState (Some 1) (Some 0%nat) None ∅ ["10.0.0.2/24"] None ]}
    (mkQueue false false [] [] ∅) 1000 [] 10.

(** Two started switches of one session, and two whose ids are too long
    for a veth name. *)
Definition switch1 : CoreNetwork :=
  mkNetwork 1 "b.1.1" true ACCEPT false [] [] 0 (Some sample_session).
Definition switch2 : CoreNetwork :=
  mkNetwork 2 "b.2.1" true ACCEPT false [] [] 0 (Some sample_session).

Definition switch_world : World Z :=
  mkWorld {[ 0%nat := switch1; 1%nat := switch2 ]} ∅
    (mkQueue false false [] [] ∅) 1000 [] 10.

Definition long_session : Session := mkSession 43981 "abcd".

Definition switch_world_long : World Z :=
  mkWorld {[ 0%nat := mkNetwork 74565 "b.74565.abcd" true ACCEPT false [] [] 0
                        (Some long_session);
             1%nat := mkNetwork 144470 "b.144470.abcd" true ACCEPT false [] [] 0
                        (Some long_session) ]} ∅
    (mkQueue false false [] [] ∅) 1000 [] 10.

(** The sample wireless LAN on the dirty list, one second after its last
    update. *)
Definition dirty_world : World Z := with_ebq (set_updates [0%nat]) world0.

(** ** Further samples *)

(** Three networks after their shutdown, all still on the dirty list. *)
Definition stale_world : World Z :=
  mkWorld {[ 0%nat := shut_down wlan0; 1%nat := shut_down switch1;
             2%nat := shut_down switch2 ]} ∅
    (mkQueue true true [] [0%nat; 1%nat; 2%nat] ∅) 1000 [] 10.

(** The sample wireless LAN on the dirty list, a tenth of a second after
    its last update. *)
Definition recent_world : World Z :=
  with_ebq (set_last_update_time {[ 0%nat := 900 ]}) dirty_world.

(** The sample wireless LAN on the dirty list before the queue has a
    timestamp for it. *)
Definition unstamped_world : World Z :=
  with_ebq (set_last_update_time ∅) dirty_world.

(** A host that refuses to save the kernel tables into the atomic file. *)
Definition refusing_env : Env := {|
  host_ok := fun _ c =>
    match c with
    | Shell args =>
        negb (String.eqb args
                "/sbin/ebtables --atomic-file /tmp/pycore.ebtables.atomic --atomic-save")
    | _ => true
    end;
  EBTABLES_BIN := "/sbin/ebtables";
  TC_BIN := "/sbin/tc";
  valid_ipv4 := valid_ipv4 (Env := sample_env);
  int_of_str := int_of_str (Env := sample_env);
  getifindex := fun _ _ => 0;
  veth_mtu := 1500;
  linktype := 1
|}.

(** A host on which no command succeeds. *)
Definition failing_env : Env := {|
  host_ok := fun _ _ => false;
  EBTABLES_BIN := "/sbin/ebtables";
  TC_BIN := "/sbin/tc";
  valid_ipv4 := valid_ipv4 (Env := sample_env);
  int_of_str := int_of_str (Env := sample_env);
  getifindex := fun _ _ => 0;
  veth_mtu := 1500;
  linktype := 1
|}.

(** The sample wireless LAN before it is started. *)
Definition down_world : World Z :=
  with_nets (fun m => <[0%nat := set_up false wlan0]> m) world0.

(** The point-to-point network when the second interface has a second
    IPv4 address and an IPv6 address, and when its address has no mask. *)
Definition ptp_world_many : World Z :=
  mkWorld {[ 0%nat := ptp2 ]}
    {[ 3%nat := mkIfState (Some 0) (Some 0%nat) None ∅ ["10.0.0.1/24"] None;
       4%nat := mkIfState (Some 1) (Some 0%nat) None ∅
                  ["10.0.0.2/24"; "2001::2/64"; "10.0.1.2/24"] None ]}
    (mkQueue false false [] [] ∅) 1000 [] 10.

Definition ptp_world_nomask : World Z :=
  mkWorld {[ 0%nat := ptp2 ]}
    {[ 3%nat := mkIfState (Some 0) (Some 0%nat) None ∅ ["10.0.0.1/24"] None;
       4%nat := mkIfState (Some 1) (Some 0%nat) None ∅ ["10.0.0.2"] None ]}
    (mkQueue false false [] [] ∅) 1000 [] 10.

(** A net-client whose operations are commands of their own. *)
Definition sample_client : NetClient := {|
  net_client_call := fun op =>
    match op with
    | CreateBridge bridge => Shell ("create-bridge " +:+ bridge)
    | DisableMacLearning bridge => Shell ("disable-mac-learning " +:+ bridge)
    end
|}.

(** * Properties *)

(** ** C1: the chain build *)

Section BuildCmds.
Context {num : Type}.
Implicit Types (w : World num) (n : CoreNetwork).

Lemma add_cmds_nil w : add_cmds [] w = w.
Proof.
  destruct w as [? ? [] ? ? ?]; unfold add_cmds, with_ebq, set_cmds; simpl.
  by rewrite app_nil_r.
Qed.

Lemma add_cmds_app l1 l2 w : add_cmds l2 (add_cmds l1 w) = add_cmds (l1 ++ l2) w.
Proof.
  unfold add_cmds, with_ebq, set_cmds; simpl. by rewrite app_assoc.
Qed.

Lemma for_add_cmds {A} (body : A -> M unit) (g : A -> list string) :
  (forall x w, body x w = (Ok tt, add_cmds (g x) w)) ->
  forall l w, for_ l body w = (Ok tt, add_cmds (flat_map g l) w).
Proof.
  intros Hbody l; induction l as [|x l IH]; intros w; simpl.
  - by rewrite add_cmds_nil.
  - unfold bind. rewrite Hbody, IH. by rewrite add_cmds_app.
Qed.

Lemma pair_body_add_cmds n a (x : CoreInterface * bool) w :
  (let '(netif2, linked) := x in
   if bool_decide (policy n = DROP) && linked then
     cmds_extend (pair_rules (brname n) a netif2 "ACCEPT")
   else if bool_decide (policy n = ACCEPT) && negb linked then
     cmds_extend (pair_rules (brname n) a netif2 "DROP")
   else ret tt) w
  = (Ok tt, add_cmds (let '(b, l) := x in
                      rules_of_pair (policy n) (brname n) a b l) w).
Proof.
  destruct x as [b l].
  destruct (policy n), l; simpl; try reflexivity;
    by rewrite add_cmds_nil.
Qed.

(** C1. [buildcmds] on a network of the store always returns; it takes and
    releases the network's adjacency lock, appends to the pending commands
    the header (one flush command when the network has its chain, else the
    chain creation with the policy as default and the FORWARD jump keyed by
    --logical-in) followed, pair by pair in the adjacency map's order, by
    the two ACCEPT rules (policy DROP, linked), the two DROP rules (policy
    ACCEPT, not linked) or nothing, and leaves the has-filter-chain flag
    set; nothing else changes. *)
Theorem buildcmds_rebuilds_chain w wlan n :
  nets w !! wlan = Some n ->
  buildcmds wlan w =
    (Ok tt,
     add_events [Acquire (linked_lock wlan); Release (linked_lock wlan)]
       (add_cmds (chain_header n ++ chain_rules n)
          (with_nets (fun m => <[wlan := set_has_ebtables_chain true n]> m) w))).
Proof.
  intros Hn.
  assert (Hloop : forall w',
    for_ (_linked n) (fun '(netif1, v) =>
      for_ v (fun '(netif2, linked) =>
        if bool_decide (policy n = DROP) && linked then
          cmds_extend (pair_rules (brname n) netif1 netif2 "ACCEPT")
        else if bool_decide (policy n = ACCEPT) && negb linked then
          cmds_extend (pair_rules (brname n) netif1 netif2 "DROP")
        else ret tt)) w' = (Ok tt, add_cmds (chain_rules n) w')).
  { intros w'. unfold chain_rules.
    apply (for_add_cmds (A := CoreInterface * row)).
    intros [a r] w''.
    apply (for_add_cmds (A := CoreInterface * bool)).
    intros x w3. apply pair_body_add_cmds. }
  unfold buildcmds, with_lock, finally, bind at 1.
  unfold emit at 1, modify at 1.
  unfold bind at 1, get_net at 1. simpl.
  rewrite Hn.
  unfold chain_header, pair_rules in *.
  destruct (has_ebtables_chain n) eqn:Hflag.
  - unfold bind at 1. unfold cmds_extend at 1, update_ebq, modify at 1.
    rewrite Hloop. simpl.
    replace (set_has_ebtables_chain true n) with n
      by (destruct n; simpl in *; subst; reflexivity).
    unfold add_events, add_cmds, with_ebq, with_trace, with_nets, set_cmds,
      flush_cmd; simpl.
    rewrite insert_id by done.
    by rewrite <- !app_assoc.
  - unfold bind at 1. unfold bind at 1.
    unfold update_net, bind at 1, get_net. simpl. rewrite Hn.
    unfold modify at 1. unfold cmds_extend at 1, update_ebq, modify at 1.
    rewrite Hloop. simpl.
    unfold add_events, add_cmds, with_ebq, with_trace, with_nets, set_cmds,
      new_chain_cmd, forward_jump_cmd; simpl.
    by rewrite <- !app_assoc.
Qed.
End BuildCmds.

(** On the sample wireless LAN after [link(eth_a, eth_b)] was recorded. *)
Lemma buildcmds_rebuilds_chain_witness :
  nets (with_nets (fun m => <[0%nat := set_linked [(eth_a, [(eth_b, true)]); (eth_b, [])] wlan0]> m) world0)
    !! 0%nat = Some (set_linked [(eth_a, [(eth_b, true)]); (eth_b, [])] wlan0)
  /\ cmds (ebq (snd (buildcmds 0%nat
        (with_nets (fun m => <[0%nat := set_linked [(eth_a, [(eth_b, true)]); (eth_b, [])] wlan0]> m) world0))))
     = [ "-N b.5.1 -P DROP";
         "-A FORWARD --logical-in b.5.1 -j b.5.1";
         "-A b.5.1 -i veth1.0.1 -o veth2.0.1 -j ACCEPT";
         "-A b.5.1 -o veth1.0.1 -i veth2.0.1 -j ACCEPT" ].
Proof.
  assert (Hn : nets (with_nets (fun m => <[0%nat := set_linked [(eth_a, [(eth_b, true)]); (eth_b, [])] wlan0]> m) world0)
    !! 0%nat = Some (set_linked [(eth_a, [(eth_b, true)]); (eth_b, [])] wlan0))
    by (simpl; apply lookup_insert_eq).
  split; [exact Hn|].
  rewrite (buildcmds_rebuilds_chain _ _ _ Hn).
  reflexivity.
Defined.

(** ** C2: [linked] *)

Section Linked.
Context {num : Type}.
Implicit Types (w : World num) (n : CoreNetwork) (a b : CoreInterface).

(** What [linked] computes, branch by branch. *)
Lemma linked_eq w self n a b :
  nets w !! self = Some n ->
  linked self a b w =
    match recorded w n a with
    | None => (Raise KeyError, w)
    | Some x1 =>
      if bool_decide (x1 <> a)
      then (Raise (ValueError ("inconsistency for netif " +:+ name a)), w)
      else
      match recorded w n b with
      | None => (Raise KeyError, w)
      | Some x2 =>
        if bool_decide (x2 <> b)
        then (Raise (ValueError ("inconsistency for netif " +:+ name b)), w)
        else
        match dict_get a (_linked n) with
        | Some r =>
          match dict_get b r with
          | Some v => (Ok v, w)
          | None =>
            match policy n with
            | ACCEPT => (Ok true, put_net self (with_entry a b true r n) w)
            | DROP => (Ok false, put_net self (with_entry a b false r n) w)
            | POLICY_OTHER v => (Raise (Exception_ ("unknown policy: " +:+ v)), w)
            end
          end
        | None =>
          match policy n with
          | POLICY_OTHER v => (Raise (Exception_ ("unknown policy: " +:+ v)), w)
          | _ => (Raise KeyError, w)
          end
        end
      end
    end.
Proof.
  intros Hn. unfold linked, bind at 1, get_net. rewrite Hn.
  unfold bind at 1, get_if at 1, gets at 1. unfold bind at 1.
  fold (recorded w n a).
  destruct (recorded w n a) as [x1|]; simpl; [|reflexivity].
  destruct (bool_decide (x1 <> a)); [reflexivity|].
  unfold bind at 1, get_if at 1, gets at 1. unfold bind at 1.
  fold (recorded w n b).
  destruct (recorded w n b) as [x2|]; simpl; [|reflexivity].
  destruct (bool_decide (x2 <> b)); [reflexivity|].
  unfold try_except, bind at 1.
  destruct (dict_get a (_linked n)) as [r|] eqn:Hr; simpl.
  - destruct (dict_get b r) as [v|]; simpl; [reflexivity|].
    destruct (policy n); simpl; try reflexivity;
      unfold bind, update_net, bind, get_net; simpl; rewrite Hn; simpl;
      reflexivity.
  - destruct (policy n); simpl; reflexivity.
Qed.

(** C2, as the code has it.  On a network of the store, for interfaces a
    and b that the interface map holds under the indices they carry, a with
    its adjacency row: [linked] returns the stored entry and changes
    nothing; without an entry it returns the policy default (true under
    ACCEPT, false under DROP) and stores it, and under any other policy it
    raises the unknown-policy exception.  When a (or, a being attached, b)
    is not held under the index it carries, [linked] fails and changes
    nothing: with the inconsistency [ValueError] when the map holds another
    interface under that index, with [KeyError] when the interface carries
    no index or the map has no such index. *)
Theorem linked_entry_default_or_failure w self n a b :
  nets w !! self = Some n ->
  (forall r, recorded w n a = Some a -> recorded w n b = Some b ->
     dict_get a (_linked n) = Some r ->
     (forall v, dict_get b r = Some v -> linked self a b w = (Ok v, w)) /\
     (forall d, dict_get b r = None -> policy_default (policy n) = Some d ->
        linked self a b w = (Ok d, put_net self (with_entry a b d r n) w)) /\
     (dict_get b r = None -> policy_default (policy n) = None ->
        linked self a b w
        = (Raise (Exception_ ("unknown policy: " +:+ policy_value (policy n))), w)))
  /\ (recorded w n a = None -> linked self a b w = (Raise KeyError, w))
  /\ (forall x, recorded w n a = Some x -> x <> a ->
        linked self a b w
        = (Raise (ValueError ("inconsistency for netif " +:+ name a)), w))
  /\ (recorded w n a = Some a -> recorded w n b = None ->
        linked self a b w = (Raise KeyError, w))
  /\ (forall y, recorded w n a = Some a -> recorded w n b = Some y -> y <> b ->
        linked self a b w
        = (Raise (ValueError ("inconsistency for netif " +:+ name b)), w)).
Proof.
  intros Hn. rewrite (linked_eq _ _ _ _ _ Hn).
  split; [|split; [|split; [|split]]].
  - intros r Ha Hb Hr. rewrite Ha, Hb, Hr.
    rewrite !bool_decide_eq_false_2 by (intros ?; congruence).
    split; [|split].
    + by intros v ->.
    + intros d -> Hd. destruct (policy n); simpl in Hd; congruence.
    + intros -> Hd. destruct (policy n); simpl in Hd; try congruence.
      reflexivity.
  - by intros ->.
  - intros x -> Hx. by rewrite bool_decide_eq_true_2.
  - intros -> ->. by rewrite bool_decide_eq_false_2 by (intros ?; congruence).
  - intros y -> -> Hy.
    rewrite bool_decide_eq_false_2 by (intros ?; congruence).
    by rewrite bool_decide_eq_true_2.
Qed.
End Linked.

(** On the sample wireless LAN, whose adjacency rows are still empty, the
    first question about (eth_a, eth_b) stores the DROP default. *)
Lemma linked_entry_default_or_failure_witness :
  nets world0 !! 0%nat = Some wlan0 /\
  linked 0%nat eth_a eth_b world0
  = (Ok false, put_net 0%nat (with_entry eth_a eth_b false [] wlan0) world0).
Proof.
  assert (Hn : nets world0 !! 0%nat = Some wlan0) by reflexivity.
  split; [exact Hn|].
  destruct (linked_entry_default_or_failure world0 0%nat wlan0 eth_a eth_b Hn)
    as [Hattached _].
  destruct (Hattached [] eq_refl eq_refl eq_refl) as (_ & Hdefault & _).
  exact (Hdefault false eq_refl eq_refl).
Defined.

(** The claim as the specification words it fails: [eth_c] was never
    attached to the sample network, and [linked] raises [KeyError] for it,
    not the inconsistency error. *)
Lemma linked_unattached_not_inconsistency :
  recorded world0 wlan0 eth_c = None /\
  fst (linked 0%nat eth_c eth_a world0) = Raise KeyError /\
  forall msg, fst (linked 0%nat eth_c eth_a world0) <> Raise (ValueError msg).
Proof.
  repeat split; try reflexivity.
  intros msg. vm_compute. discriminate.
Qed.

(** ** Dictionaries *)

Section PyDictFacts.
Context {K V : Type} `{EqDecision K}.
Implicit Types (k : K) (v : V) (d : list (K * V)).

Lemma dict_get_set_eq k v d : dict_get k (dict_set k v d) = Some v.
Proof.
  induction d as [|[k' v'] d IH]; simpl.
  - by rewrite decide_True.
  - destruct (decide (k = k')) as [->|Hne]; simpl.
    + by rewrite decide_True.
    + by rewrite decide_False.
Qed.

Lemma dict_get_set_ne k k' v d :
  k <> k' -> dict_get k' (dict_set k v d) = dict_get k' d.
Proof.
  intros Hne. induction d as [|[k0 v0] d IH]; simpl.
  - by rewrite decide_False by congruence.
  - destruct (decide (k = k0)) as [->|Hk]; simpl.
    + by rewrite !decide_False by congruence.
    + destruct (decide (k' = k0)); [done|]. apply IH.
Qed.

Lemma dict_set_set k v1 v2 d : dict_set k v2 (dict_set k v1 d) = dict_set k v2 d.
Proof.
  induction d as [|[k' v'] d IH]; simpl.
  - by rewrite decide_True.
  - destruct (decide (k = k')) as [->|Hne]; simpl.
    + by rewrite decide_True.
    + rewrite decide_False by done. by rewrite IH.
Qed.

Lemma dict_set_id k v d : dict_get k d = Some v -> dict_set k v d = d.
Proof.
  induction d as [|[k' v'] d IH]; simpl; [done|].
  destruct (decide (k = k')) as [->|Hne].
  - by intros [= ->].
  - intros Hd. by rewrite IH.
Qed.
End PyDictFacts.

(** ** C3: [link] and [unlink] *)

Section Relink.
Context {num : Type}.
Implicit Types (w : World num) (n : CoreNetwork) (a b : CoreInterface).

Lemma link_relink self a b w : link self a b w = relink true self a b w.
Proof.
  unfold link, relink, with_lock, finally, bind.
  destruct (emit _ w) as [[[]|e] w1]; [|reflexivity].
  destruct (linked self a b w1) as [[[]|e] w2]; reflexivity.
Qed.

Lemma unlink_relink self a b w : unlink self a b w = relink false self a b w.
Proof.
  unfold unlink, relink, with_lock, finally, bind.
  destruct (emit _ w) as [[[]|e] w1]; [|reflexivity].
  destruct (linked self a b w1) as [[[]|e] w2]; reflexivity.
Qed.

Lemma ebchange_eq self w :
  ebchange self w
  = (Ok tt, add_events [Acquire updatelock; Release updatelock]
              (with_ebq (mark_dirty self) w)).
Proof.
  unfold ebchange, with_lock, finally, bind, emit, modify, gets, mark_dirty,
    add_events, with_trace, with_ebq.
  simpl. destruct (bool_decide (self ∈ updates (ebq w))); simpl.
  all: by rewrite <- app_assoc.
Qed.

(** [linked] on attached interfaces, in one equation. *)
Lemma linked_attached w self n a b r d :
  nets w !! self = Some n ->
  recorded w n a = Some a -> recorded w n b = Some b ->
  dict_get a (_linked n) = Some r ->
  policy_default (policy n) = Some d ->
  linked self a b w
  = (Ok (default d (dict_get b r)),
     match dict_get b r with
     | Some _ => w
     | None => put_net self (with_entry a b d r n) w
     end).
Proof.
  intros Hn Ha Hb Hr Hd.
  rewrite (linked_eq _ _ _ _ _ Hn), Ha, Hb, Hr.
  rewrite !bool_decide_eq_false_2 by (intros ?; congruence).
  destruct (dict_get b r) as [v|]; simpl; [reflexivity|].
  destruct (policy n); simpl in Hd; congruence.
Qed.

Lemma store_linked_eq w self n a b r v :
  nets w !! self = Some n ->
  dict_get a (_linked n) = Some r ->
  store_linked self a b v w = (Ok tt, put_net self (with_entry a b v r n) w).
Proof.
  intros Hn Hr. unfold store_linked, update_net, bind, get_net, modify.
  simpl. rewrite Hn. simpl. rewrite Hr. simpl. by rewrite Hn.
Qed.

Lemma with_entry_twice a b v1 v2 r n :
  with_entry a b v2 (dict_set b v1 r) (with_entry a b v1 r n)
  = with_entry a b v2 r n.
Proof.
  unfold with_entry, set_linked; simpl. by rewrite !dict_set_set.
Qed.

Lemma put_net_twice self n1 n2 w :
  put_net self n2 (put_net self n1 w) = put_net self n2 w.
Proof.
  unfold put_net, with_nets; simpl. by rewrite insert_insert_eq.
Qed.

Lemma relink_eq t w self n a b r d :
  nets w !! self = Some n ->
  recorded w n a = Some a -> recorded w n b = Some b ->
  dict_get a (_linked n) = Some r ->
  policy_default (policy n) = Some d ->
  relink t self a b w = (Ok tt, relink_world t self n a b r d w).
Proof.
  intros Hn Ha Hb Hr Hd.
  unfold relink, with_lock, finally. unfold bind at 1. unfold bind at 1.
  unfold emit at 1, modify at 1. unfold bind at 1.
  rewrite (linked_attached _ self n a b r d) by done.
  unfold relink_world.
  destruct (eqb (default d (dict_get b r)) t) eqn:Hcur.
  - unfold ret at 1, emit, modify.
    destruct (dict_get b r); unfold add_events, put_net, with_nets,
      with_trace; simpl; by rewrite <- app_assoc.
  - unfold bind at 1.
    destruct (dict_get b r) as [v|] eqn:Hbr.
    + rewrite (store_linked_eq _ self n a b r t) by done.
      unfold ret at 1, emit at 1, modify at 1.
      rewrite ebchange_eq.
      unfold add_events, put_net, with_nets, with_ebq, with_trace; simpl.
      by rewrite <- !app_assoc.
    + rewrite (store_linked_eq _ self (with_entry a b d r n) a b
                 (dict_set b d r) t).
      * rewrite with_entry_twice, put_net_twice.
        unfold ret at 1, emit at 1, modify at 1.
        rewrite ebchange_eq.
        unfold add_events, put_net, with_nets, with_ebq, with_trace; simpl.
        by rewrite <- !app_assoc.
      * simpl. apply lookup_insert_eq.
      * simpl. apply dict_get_set_eq.
Qed.

Lemma calls_of_app t1 t2 : calls_of (t1 ++ t2) = calls_of t1 ++ calls_of t2.
Proof. unfold calls_of. by rewrite flat_map_app. Qed.

Lemma observable_add_locks (l : list event) w :
  calls_of l = [] -> observable (add_events l w) = observable w.
Proof.
  intros Hl. unfold observable, add_events, with_trace; simpl.
  by rewrite calls_of_app, Hl, app_nil_r.
Qed.

(** The state [relink] leaves is one in which the entry is stored with the
    target value and the interfaces are still attached. *)
Lemma relink_world_attached t w self n a b r d :
  nets w !! self = Some n ->
  recorded w n a = Some a -> recorded w n b = Some b ->
  dict_get a (_linked n) = Some r ->
  policy_default (policy n) = Some d ->
  exists n' r',
    nets (relink_world t self n a b r d w) !! self = Some n' /\
    recorded (relink_world t self n a b r d w) n' a = Some a /\
    recorded (relink_world t self n a b r d w) n' b = Some b /\
    dict_get a (_linked n') = Some r' /\
    dict_get b r' = Some t /\
    policy n' = policy n.
Proof.
  intros Hn Ha Hb Hr Hd. unfold relink_world.
  destruct (eqb (default d (dict_get b r)) t) eqn:Hcur.
  - apply eqb_prop in Hcur.
    destruct (dict_get b r) as [v|] eqn:Hbr; simpl in Hcur; subst.
    + exists n, r. by repeat split.
    + exists (with_entry a b t r n), (dict_set b t r). simpl.
      rewrite lookup_insert_eq, !dict_get_set_eq. by repeat split.
  - exists (with_entry a b t r n), (dict_set b t r). simpl.
    rewrite lookup_insert_eq, !dict_get_set_eq. by repeat split.
Qed.

(** C3, as the code has it.  For attached interfaces a and b (a with its
    adjacency row) under policy ACCEPT or DROP, [link(a, b)] (target true)
    and [unlink(a, b)] (target false) return, leave the entry of (a, b)
    stored with the target, and notify the queue (mark the network dirty)
    exactly when the value in force before (the stored entry, or the policy
    default while nothing is stored) was not the target.  When the entry is
    already stored with the target nothing observable changes.  When
    nothing is stored and the policy default is the target, the map is
    written all the same: [linked] stores the default, and that entry is
    all that changes.  Doing the operation twice in a row leaves what doing
    it once leaves. *)
Theorem link_unlink_set_entry_and_notify (t : bool) w self n a b r d :
  nets w !! self = Some n ->
  recorded w n a = Some a -> recorded w n b = Some b ->
  dict_get a (_linked n) = Some r ->
  policy_default (policy n) = Some d ->
  let op := if t then link else unlink in
  let w' := snd (op self a b w) in
  fst (op self a b w) = Ok tt /\
  (exists n', nets w' !! self = Some n' /\ stored n' a b = Some t) /\
  ebq w' = (if eqb (default d (dict_get b r)) t then ebq w
            else mark_dirty self (ebq w)) /\
  (dict_get b r = Some t -> observable w' = observable w) /\
  (dict_get b r = None -> d = t ->
   observable w' = observable (put_net self (with_entry a b t r n) w)) /\
  fst ((op self a b ;; op self a b) w) = Ok tt /\
  observable (snd ((op self a b ;; op self a b) w)) = observable w'.
Proof.
  intros Hn Ha Hb Hr Hd op w'.
  assert (Hop : forall w0, op self a b w0 = relink t self a b w0).
  { intros w0. subst op. destruct t; [apply link_relink|apply unlink_relink]. }
  assert (Hw' : op self a b w = (Ok tt, relink_world t self n a b r d w)).
  { rewrite Hop. by apply relink_eq. }
  subst w'. rewrite Hw'. simpl.
  destruct (relink_world_attached t w self n a b r d Hn Ha Hb Hr Hd)
    as (n' & r' & Hn' & Ha' & Hb' & Hr' & Hbr' & Hp').
  split; [reflexivity|]. split; [|split; [|split; [|split]]].
  - exists n'. split; [done|]. unfold stored. by rewrite Hr'.
  - unfold relink_world.
    by destruct (eqb (default d (dict_get b r)) t), (dict_get b r).
  - intros Hbr. unfold relink_world. rewrite Hbr. simpl.
    rewrite eqb_reflx. by apply observable_add_locks.
  - intros Hbr ->. unfold relink_world. rewrite Hbr. simpl.
    rewrite eqb_reflx. by apply observable_add_locks.
  - unfold bind. rewrite Hw', Hop.
    rewrite (relink_eq t _ self n' a b r' d) by (done || congruence).
    split; [reflexivity|]. simpl.
    unfold relink_world at 1. rewrite Hbr'. simpl. rewrite eqb_reflx.
    by apply observable_add_locks.
Qed.
End Relink.

(** [link(eth_a, eth_b)] on the sample wireless LAN: the entry changes from
    the DROP default to true and the network is marked dirty. *)
Lemma link_unlink_set_entry_and_notify_witness :
  nets world0 !! 0%nat = Some wlan0 /\
  stored wlan0 eth_a eth_b = None /\
  fst (link 0%nat eth_a eth_b world0) = Ok tt /\
  updates (ebq (snd (link 0%nat eth_a eth_b world0))) = [0%nat].
Proof.
  assert (Hn : nets world0 !! 0%nat = Some wlan0) by reflexivity.
  destruct (link_unlink_set_entry_and_notify true world0 0%nat wlan0
              eth_a eth_b [] false Hn eq_refl eq_refl eq_refl eq_refl)
    as (Hok & _ & Hq & _).
  split; [exact Hn|]. split; [reflexivity|]. split; [exact Hok|].
  simpl in Hq. rewrite Hq. reflexivity.
Defined.

(** The claim as the specification words it fails where the target is in
    force by the policy default only.  On the sample point-to-point network
    (policy ACCEPT) nothing is stored for (eth_c, eth_d) and [linked]
    answers true; [link(eth_c, eth_d)] still writes the map, which then
    holds the entry, and does not notify the queue. *)
Lemma link_default_target_writes_map :
  nets ptp_world2 !! 0%nat = Some ptp2 /\
  recorded ptp_world2 ptp2 eth_c = Some eth_c /\
  recorded ptp_world2 ptp2 eth_d = Some eth_d /\
  stored ptp2 eth_c eth_d = None /\
  in_force ptp2 eth_c eth_d = Some true /\
  fst (link 0%nat eth_c eth_d ptp_world2) = Ok tt /\
  nets (snd (link 0%nat eth_c eth_d ptp_world2)) !! 0%nat
  = Some (with_entry eth_c eth_d true [] ptp2) /\
  stored (with_entry eth_c eth_d true [] ptp2) eth_c eth_d = Some true /\
  nets (snd (link 0%nat eth_c eth_d ptp_world2)) <> nets ptp_world2 /\
  ebq (snd (link 0%nat eth_c eth_d ptp_world2)) = ebq ptp_world2.
Proof.
  do 8 (split; [vm_compute; reflexivity|]).
  split; [|vm_compute; reflexivity].
  intros Heq. apply (f_equal (fun m => m !! 0%nat)) in Heq.
  vm_compute in Heq. discriminate Heq.
Qed.

(** ** C4: symmetry of the adjacency map *)

Section Symmetry.
Context {num : Type}.
Implicit Types (w : World num) (n : CoreNetwork) (a b p q : CoreInterface).

Lemma stored_with_entry a b v r n p q :
  dict_get a (_linked n) = Some r ->
  stored (with_entry a b v r n) p q
  = if decide (p = a) then (if decide (q = b) then Some v else stored n a q)
    else stored n p q.
Proof.
  intros Hr. unfold stored, with_entry; simpl.
  destruct (decide (p = a)) as [->|Hp].
  - rewrite dict_get_set_eq, Hr. destruct (decide (q = b)) as [->|Hq].
    + apply dict_get_set_eq.
    + by apply dict_get_set_ne.
  - by rewrite dict_get_set_ne.
Qed.

Lemma in_force_with_entry a b v r n p q :
  dict_get a (_linked n) = Some r ->
  in_force (with_entry a b v r n) p q
  = if decide (p = a /\ q = b) then Some v else in_force n p q.
Proof.
  intros Hr. unfold in_force. rewrite (stored_with_entry _ _ _ _ _ _ _ Hr).
  simpl. destruct (decide (p = a)) as [->|Hp], (decide (q = b)) as [->|Hq];
    simpl.
  - by rewrite decide_True.
  - by rewrite decide_False by (intros []; done).
  - by rewrite decide_False by (intros []; done).
  - by rewrite decide_False by (intros []; done).
Qed.

Lemma same_attachment_refl self w n :
  nets w !! self = Some n -> same_attachment self w n w n.
Proof. intros Hn. by repeat split. Qed.

Lemma same_attachment_trans self w n w1 n1 w2 n2 :
  same_attachment self w n w1 n1 -> same_attachment self w1 n1 w2 n2 ->
  same_attachment self w n w2 n2.
Proof.
  intros (H1 & H2 & H3 & H4 & H5) (K1 & K2 & K3 & K4 & K5).
  repeat split; try congruence. intros x Hx. by apply K5, H5.
Qed.

Lemma same_attachment_recorded self w n w1 n1 a :
  same_attachment self w n w1 n1 -> recorded w1 n1 a = recorded w n a.
Proof.
  intros (_ & Hi & Hnf & _). unfold recorded, netif_at, if_state_of.
  by rewrite Hi, Hnf.
Qed.

Lemma same_attachment_with_entry self w n a b v r :
  nets w !! self = Some n -> dict_get a (_linked n) = Some r ->
  same_attachment self w n (put_net self (with_entry a b v r n) w)
    (with_entry a b v r n).
Proof.
  intros Hn Hr. repeat split; simpl.
  - apply lookup_insert_eq.
  - intros x Hx. destruct (decide (a = x)) as [->|Hne].
    + rewrite dict_get_set_eq. by eexists.
    + by rewrite dict_get_set_ne.
Qed.

Lemma same_attachment_ext self w n w1 w2 n1 :
  nets w2 = nets w1 -> ifaces w2 = ifaces w1 ->
  same_attachment self w n w1 n1 -> same_attachment self w n w2 n1.
Proof.
  intros Hnets Hifs (H1 & H2 & H3 & H4 & H5).
  unfold same_attachment. rewrite Hnets, Hifs. by repeat split.
Qed.

Lemma linked_ok_inv self w n a b v w1 :
  nets w !! self = Some n ->
  linked self a b w = (Ok v, w1) ->
  recorded w n a = Some a /\ recorded w n b = Some b /\
  exists r, dict_get a (_linked n) = Some r.
Proof.
  intros Hn. rewrite (linked_eq _ _ _ _ _ Hn).
  destruct (recorded w n a) as [x1|]; [|discriminate].
  case_bool_decide as Hx1; [discriminate|].
  destruct (recorded w n b) as [x2|]; [|discriminate].
  case_bool_decide as Hx2; [discriminate|].
  subst x1 x2.
  destruct (dict_get a (_linked n)) as [r|].
  - intros _. repeat split. by exists r.
  - destruct (policy n); discriminate.
Qed.

Lemma linked_effect self w n a b v w1 d :
  nets w !! self = Some n ->
  policy_default (policy n) = Some d ->
  linked self a b w = (Ok v, w1) ->
  exists n1, same_attachment self w n w1 n1 /\
    (forall p q, in_force n1 p q = in_force n p q) /\
    in_force n a b = Some v.
Proof.
  intros Hn Hd Hl.
  destruct (linked_ok_inv _ _ _ _ _ _ _ Hn Hl) as (Ha & Hb & r & Hr).
  rewrite (linked_attached _ _ _ _ _ _ _ Hn Ha Hb Hr Hd) in Hl.
  assert (Hst : stored n a b = dict_get b r) by (unfold stored; by rewrite Hr).
  destruct (dict_get b r) as [v0|] eqn:Hbr; simpl in Hl;
    injection Hl as <- <-.
  - exists n. split; [by apply same_attachment_refl|].
    split; [done|]. unfold in_force. by rewrite Hst.
  - exists (with_entry a b d r n).
    split; [by apply same_attachment_with_entry|].
    assert (Hab : in_force n a b = Some d) by (unfold in_force; by rewrite Hst).
    split; [|done]. intros p q. rewrite (in_force_with_entry _ _ _ _ _ _ _ Hr).
    case_decide as Hpq; [|done]. destruct Hpq as [-> ->]. by rewrite Hab.
Qed.

Lemma relink_ok_inv self t w n a b w1 :
  nets w !! self = Some n ->
  relink t self a b w = (Ok tt, w1) ->
  recorded w n a = Some a /\ recorded w n b = Some b /\
  exists r, dict_get a (_linked n) = Some r.
Proof.
  intros Hn Hrel.
  destruct (linked self a b (add_events [Acquire (linked_lock self)] w))
    as [[v|e] w2] eqn:Hl.
  - exact (linked_ok_inv self (add_events [Acquire (linked_lock self)] w)
             n a b v w2 Hn Hl).
  - exfalso. revert Hrel.
    unfold relink, with_lock, finally. unfold bind at 1, bind at 1.
    unfold emit at 1, modify at 1. unfold bind at 1.
    fold (add_events [Acquire (linked_lock self)] w). rewrite Hl.
    simpl. discriminate.
Qed.

Lemma relink_effect self t w n a b w1 d :
  nets w !! self = Some n ->
  policy_default (policy n) = Some d ->
  relink t self a b w = (Ok tt, w1) ->
  exists n1, same_attachment self w n w1 n1 /\
    (forall p q, in_force n1 p q
                 = if decide (p = a /\ q = b) then Some t else in_force n p q).
Proof.
  intros Hn Hd Hrel.
  destruct (relink_ok_inv _ _ _ _ _ _ _ Hn Hrel) as (Ha & Hb & r & Hr).
  rewrite (relink_eq t w self n a b r d Hn Ha Hb Hr Hd) in Hrel.
  injection Hrel as <-.
  assert (Hst : stored n a b = dict_get b r) by (unfold stored; by rewrite Hr).
  unfold relink_world.
  destruct (eqb (default d (dict_get b r)) t) eqn:Hcur.
  - apply eqb_prop in Hcur.
    destruct (dict_get b r) as [v0|] eqn:Hbr; simpl in Hcur; subst.
    + exists n. split.
      { eapply same_attachment_ext; [| |by apply same_attachment_refl]; done. }
      intros p q. case_decide as Hpq; [|done]. destruct Hpq as [-> ->].
      unfold in_force. by rewrite Hst.
    + exists (with_entry a b t r n). split.
      { eapply same_attachment_ext;
          [| |by apply (same_attachment_with_entry self w n a b t r)]; done. }
      intros p q. by apply in_force_with_entry.
  - exists (with_entry a b t r n). split.
    { eapply same_attachment_ext;
        [| |by apply (same_attachment_with_entry self w n a b t r)]; done. }
    intros p q. by apply in_force_with_entry.
Qed.

Lemma run_op_effect self o w n w1 d :
  nets w !! self = Some n ->
  policy_default (policy n) = Some d ->
  run_op self o w = (Ok tt, w1) ->
  exists n1, same_attachment self w n w1 n1 /\
    (forall p q, in_force n1 p q = in_force_after o (in_force n) p q).
Proof.
  intros Hn Hd Hrun. destruct o as [a b|a b|a b]; simpl in *.
  - rewrite link_relink in Hrun. by eapply relink_effect.
  - rewrite unlink_relink in Hrun. by eapply relink_effect.
  - unfold bind in Hrun.
    destruct (linked self a b w) as [[v|e] w2] eqn:Hl; [|discriminate].
    injection Hrun as <-.
    destruct (linked_effect _ _ _ _ _ _ _ _ Hn Hd Hl) as (n1 & Hf & Hin & _).
    by exists n1.
Qed.

Lemma in_force_after_ext o f g p q :
  (forall x y, f x y = g x y) ->
  in_force_after o f p q = in_force_after o g p q.
Proof. intros Hfg. destruct o; simpl; by rewrite Hfg. Qed.

Lemma both_orders_keep_symmetry o f :
  (forall p q, f p q = f q p) ->
  forall p q,
    in_force_after (mirror o) (in_force_after o f) p q
    = in_force_after (mirror o) (in_force_after o f) q p.
Proof.
  intros Hf p q. destruct o as [a b|a b|a b]; simpl; [| |done].
  all: destruct (decide (p = b /\ q = a)) as [H1|H1],
         (decide (q = b /\ p = a)) as [H2|H2],
         (decide (p = a /\ q = b)) as [H3|H3],
         (decide (q = a /\ p = b)) as [H4|H4];
    first [reflexivity | apply Hf | exfalso; tauto].
Qed.

(** Rows without entries answer the policy default everywhere. *)
Lemma empty_rows_symmetric n :
  (forall x r, dict_get x (_linked n) = Some r -> r = []) -> symmetric n.
Proof.
  intros Hrows p q. unfold in_force, stored.
  destruct (dict_get p (_linked n)) as [rp|] eqn:Hp;
    destruct (dict_get q (_linked n)) as [rq|] eqn:Hq;
    try rewrite (Hrows _ _ Hp); try rewrite (Hrows _ _ Hq); reflexivity.
Qed.

Lemma run_both_ways_symmetric self d ops :
  forall w n w',
    nets w !! self = Some n ->
    policy_default (policy n) = Some d ->
    symmetric n ->
    run_ops self (both_ways ops) w = (Ok tt, w') ->
    exists n', same_attachment self w n w' n' /\ symmetric n'.
Proof.
  induction ops as [|o ops IH]; intros w n w' Hn Hd Hsym Hrun.
  - injection Hrun as <-. exists n. split; [by apply same_attachment_refl|done].
  - change (both_ways (o :: ops)) with (o :: mirror o :: both_ways ops) in Hrun.
    unfold run_ops in Hrun. simpl in Hrun. unfold bind at 1 in Hrun.
    destruct (run_op self o w) as [[[]|e] w1] eqn:H1; [|discriminate].
    unfold bind at 1 in Hrun.
    destruct (run_op self (mirror o) w1) as [[[]|e] w2] eqn:H2; [|discriminate].
    destruct (run_op_effect _ _ _ _ _ _ Hn Hd H1) as (n1 & Hf1 & Hin1).
    assert (Hn1 : nets w1 !! self = Some n1) by apply Hf1.
    assert (Hd1 : policy_default (policy n1) = Some d).
    { destruct Hf1 as (_ & _ & _ & -> & _). done. }
    destruct (run_op_effect _ _ _ _ _ _ Hn1 Hd1 H2) as (n2 & Hf2 & Hin2).
    assert (Hn2 : nets w2 !! self = Some n2) by apply Hf2.
    assert (Hd2 : policy_default (policy n2) = Some d).
    { destruct Hf2 as (_ & _ & _ & -> & _). done. }
    assert (Hsym2 : symmetric n2).
    { intros p q. rewrite !Hin2.
      rewrite (in_force_after_ext _ _ (in_force_after o (in_force n)) p q)
        by apply Hin1.
      rewrite (in_force_after_ext _ _ (in_force_after o (in_force n)) q p)
        by apply Hin1.
      by apply both_orders_keep_symmetry. }
    destruct (IH w2 n2 w' Hn2 Hd2 Hsym2 Hrun) as (n' & Hf' & Hsym').
    exists n'. split; [|done].
    eapply same_attachment_trans; [|exact Hf'].
    by eapply same_attachment_trans.
Qed.

Lemma stored_relinked a b v r n p q :
  dict_get a (_linked n) = Some r ->
  stored (with_entry a b v r n) p q
  = if decide (p = a /\ q = b) then Some v else stored n p q.
Proof.
  intros Hr. rewrite (stored_with_entry _ _ _ _ _ _ _ Hr).
  destruct (decide (p = a)) as [->|Hp], (decide (q = b)) as [->|Hq].
  - by rewrite decide_True.
  - by rewrite decide_False by (intros []; done).
  - by rewrite decide_False by (intros []; done).
  - by rewrite decide_False by (intros []; done).
Qed.

(** C4, as the code has it.  The map is keyed by ordered pairs.  On a
    network with policy ACCEPT or DROP, a [link(a, b)] or [unlink(a, b)]
    that returns leaves the stored entry of the ordered pair (a, b) at its
    target and the stored entry of every other ordered pair, (b, a)
    included, as it was.  And when the map answers the same for both
    orders of every pair (as it does while the rows are empty), then after
    any run of link, unlink and linked operations in which each operation
    is immediately followed by the same operation on the pair in the other
    order, [linked(a, b)] and [linked(b, a)] return, and return the same
    value, for attached a and b. *)
Theorem linked_symmetric_after_both_ways self d :
  (forall (t : bool) w n a b w1,
     nets w !! self = Some n ->
     policy_default (policy n) = Some d ->
     (if t then link else unlink) self a b w = (Ok tt, w1) ->
     exists n1, nets w1 !! self = Some n1 /\
       forall p q, stored n1 p q
                   = if decide (p = a /\ q = b) then Some t else stored n p q) /\
  (forall ops w n w' a b,
     nets w !! self = Some n ->
     policy_default (policy n) = Some d ->
     symmetric n ->
     recorded w n a = Some a -> recorded w n b = Some b ->
     is_Some (dict_get a (_linked n)) -> is_Some (dict_get b (_linked n)) ->
     run_ops self (both_ways ops) w = (Ok tt, w') ->
     exists v, fst (linked self a b w') = Ok v /\
               fst (linked self b a w') = Ok v).
Proof.
  split.
  - intros t w n a b w1 Hn Hd Hop.
    assert (Hrel : relink t self a b w = (Ok tt, w1)).
    { destruct t; [by rewrite <- link_relink|by rewrite <- unlink_relink]. }
    destruct (relink_ok_inv _ _ _ _ _ _ _ Hn Hrel) as (Ha & Hb & r & Hr).
    rewrite (relink_eq t w self n a b r d Hn Ha Hb Hr Hd) in Hrel.
    injection Hrel as <-.
    assert (Hst : stored n a b = dict_get b r) by (unfold stored; by rewrite Hr).
    unfold relink_world.
    destruct (eqb (default d (dict_get b r)) t) eqn:Hcur.
    + apply eqb_prop in Hcur.
      destruct (dict_get b r) as [v0|] eqn:Hbr; simpl in Hcur; subst.
      * exists n. split; [done|]. intros p q.
        case_decide as Hpq; [|done]. by destruct Hpq as [-> ->].
      * exists (with_entry a b t r n). split; [apply lookup_insert_eq|].
        intros p q. by apply stored_relinked.
    + exists (with_entry a b t r n). split; [apply lookup_insert_eq|].
      intros p q. by apply stored_relinked.
  - intros ops w n w' a b Hn Hd Hsym Ha Hb Hra Hrb Hrun.
    destruct (run_both_ways_symmetric _ _ _ _ _ _ Hn Hd Hsym Hrun)
      as (n' & Hf & Hsym').
    assert (Ha' : recorded w' n' a = Some a)
      by (by rewrite (same_attachment_recorded _ _ _ _ _ _ Hf)).
    assert (Hb' : recorded w' n' b = Some b)
      by (by rewrite (same_attachment_recorded _ _ _ _ _ _ Hf)).
    destruct Hf as (Hn' & _ & _ & Hp & Hrows).
    destruct (Hrows a Hra) as [ra Hra'], (Hrows b Hrb) as [rb Hrb'].
    assert (Hd' : policy_default (policy n') = Some d) by (by rewrite Hp).
    rewrite (linked_attached w' self n' a b ra d) by done.
    rewrite (linked_attached w' self n' b a rb d) by done.
    exists (default d (dict_get b ra)). split; [done|]. simpl. f_equal.
    specialize (Hsym' a b). unfold in_force, stored in Hsym'.
    rewrite Hra', Hrb', Hd' in Hsym'.
    destruct (dict_get b ra), (dict_get a rb); simpl; congruence.
Qed.
End Symmetry.

(** On the sample wireless LAN: [link(eth_a, eth_b)] stores the entry of
    (eth_a, eth_b) and leaves that of (eth_b, eth_a) unset; and after
    linking in both orders, asking, unlinking in both orders and linking
    again in both orders, the two orders answer alike. *)
Lemma linked_symmetric_after_both_ways_witness :
  (exists n1,
     nets (snd (link 0%nat eth_a eth_b world0)) !! 0%nat = Some n1 /\
     stored n1 eth_a eth_b = Some true /\
     stored n1 eth_b eth_a = None) /\
  exists v,
    fst (linked 0%nat eth_a eth_b
           (snd (run_ops 0%nat
                   (both_ways [OpLink eth_a eth_b; OpLinked eth_b eth_a;
                               OpUnlink eth_b eth_a; OpLink eth_a eth_b])
                   world0))) = Ok v /\
    fst (linked 0%nat eth_b eth_a
           (snd (run_ops 0%nat
                   (both_ways [OpLink eth_a eth_b; OpLinked eth_b eth_a;
                               OpUnlink eth_b eth_a; OpLink eth_a eth_b])
                   world0))) = Ok v.
Proof.
  destruct (linked_symmetric_after_both_ways (num := Z) 0%nat false)
    as [Hwrite Hsym].
  split.
  - destruct (Hwrite true world0 wlan0 eth_a eth_b
                (snd (link 0%nat eth_a eth_b world0)) eq_refl eq_refl)
      as (n1 & Hn1 & Hst).
    { vm_compute. reflexivity. }
    exists n1. split; [exact Hn1|]. rewrite !Hst. split; reflexivity.
  - apply (Hsym [OpLink eth_a eth_b; OpLinked eth_b eth_a;
                 OpUnlink eth_b eth_a; OpLink eth_a eth_b]
             world0 wlan0 _ eth_a eth_b).
    + reflexivity.
    + reflexivity.
    + apply empty_rows_symmetric. intros x r. simpl.
      repeat case_decide; intros [= <-]; reflexivity.
    + reflexivity.
    + reflexivity.
    + by eexists.
    + by eexists.
    + vm_compute. reflexivity.
Defined.

(** The claim as the specification words it fails: after a single
    [link(eth_a, eth_b)] on the sample wireless LAN (policy DROP), the pair
    is linked in one order and not in the other. *)
Lemma linked_not_symmetric_after_link :
  recorded world0 wlan0 eth_a = Some eth_a /\
  recorded world0 wlan0 eth_b = Some eth_b /\
  fst (link 0%nat eth_a eth_b world0) = Ok tt /\
  fst (linked 0%nat eth_a eth_b (snd (link 0%nat eth_a eth_b world0))) = Ok true /\
  fst (linked 0%nat eth_b eth_a (snd (link 0%nat eth_a eth_b world0))) = Ok false.
Proof. repeat split; vm_compute; reflexivity. Qed.

(** Applying each operation to both orders of its pair is not enough when
    the two calls are apart: after link(eth_a, eth_b), unlink(eth_a,
    eth_b), unlink(eth_b, eth_a), link(eth_b, eth_a) the pair is linked in
    one order and not in the other. *)
Lemma linked_not_symmetric_when_interleaved :
  fst (run_ops 0%nat [OpLink eth_a eth_b; OpUnlink eth_a eth_b;
                      OpUnlink eth_b eth_a; OpLink eth_b eth_a] world0)
  = Ok tt /\
  fst (linked 0%nat eth_a eth_b
         (snd (run_ops 0%nat [OpLink eth_a eth_b; OpUnlink eth_a eth_b;
                              OpUnlink eth_b eth_a; OpLink eth_b eth_a]
                 world0))) = Ok false /\
  fst (linked 0%nat eth_b eth_a
         (snd (run_ops 0%nat [OpLink eth_a eth_b; OpUnlink eth_a eth_b;
                              OpUnlink eth_b eth_a; OpLink eth_b eth_a]
                 world0))) = Ok true.
Proof. repeat split; vm_compute; reflexivity. Qed.

(** ** Rules for [preserves] and [triple] *)

Section Rules.
Context {num : Type}.
Implicit Types (w : World num) (I P : World num -> Prop).
Local Abbreviation M := (M (num := num)).

Lemma preserves_ret {A} I (a : A) : preserves I (ret a).
Proof. by intros w. Qed.

Lemma preserves_raise {A} I e : preserves I (raise (A := A) e).
Proof. by intros w. Qed.

Lemma preserves_gets {A} I (f : World num -> A) : preserves I (gets f).
Proof. by intros w. Qed.

Lemma preserves_modify I f :
  (forall w, I w -> I (f w)) -> preserves I (modify f).
Proof. intros Hf w Hw. by apply Hf. Qed.

Lemma preserves_bind {A B} I (m : M A) (k : A -> M B) :
  preserves I m -> (forall a, preserves I (k a)) -> preserves I (bind m k).
Proof.
  intros Hm Hk w Hw. unfold bind. specialize (Hm w Hw).
  destruct (m w) as [[a|e] w1]; simpl in *; [by apply Hk|done].
Qed.

Lemma preserves_try_except {A} I (m : M A) handled h :
  preserves I m -> (forall e, preserves I (h e)) ->
  preserves I (try_except m handled h).
Proof.
  intros Hm Hh w Hw. unfold try_except. specialize (Hm w Hw).
  destruct (m w) as [[a|e] w1]; simpl in *; [done|].
  destruct (handled e); [by apply Hh|done].
Qed.

Lemma preserves_finally {A} I (m : M A) f :
  preserves I m -> preserves I f -> preserves I (finally m f).
Proof.
  intros Hm Hf w Hw. unfold finally. specialize (Hm w Hw).
  destruct (m w) as [r w1]; simpl in *. specialize (Hf w1 Hm).
  by destruct (f w1) as [[[]|e] w2].
Qed.

Lemma preserves_for {A} I (l : list A) (body : A -> M unit) :
  (forall x, preserves I (body x)) -> preserves I (for_ l body).
Proof.
  intros Hbody. induction l as [|x l IH]; simpl.
  - apply preserves_ret.
  - apply preserves_bind; [apply Hbody|by intros _].
Qed.

Lemma preserves_get_net I r : preserves I (get_net (num := num) r).
Proof. intros w Hw. unfold get_net. by destruct (nets w !! r). Qed.

Lemma preserves_get_if I i : preserves I (get_if (num := num) i).
Proof. by intros w. Qed.

Lemma triple_ret {A} P (a : A) (Q : A -> World num -> Prop) :
  (forall w, P w -> Q a w) -> triple P (ret a) Q.
Proof. intros HQ w a' w' Hw [= <- <-]. by apply HQ. Qed.

Lemma triple_bind {A B} P (m : M A) (k : A -> M B) Q1 Q :
  triple P m Q1 -> (forall a, triple (Q1 a) (k a) Q) -> triple P (bind m k) Q.
Proof.
  intros Hm Hk w b w' Hw. unfold bind.
  destruct (m w) as [[a|e] w1] eqn:Hmw; [|discriminate].
  intros Hkw. eapply Hk; [|exact Hkw]. by eapply Hm.
Qed.

Lemma triple_conseq {A} (P P' : World num -> Prop) (m : M A)
    (Q Q' : A -> World num -> Prop) :
  (forall w, P' w -> P w) -> (forall a w, Q a w -> Q' a w) ->
  triple P m Q -> triple P' m Q'.
Proof. intros HP HQ Hm w a w' Hw Hmw. eapply HQ, Hm; [by apply HP|done]. Qed.

Lemma triple_preserves {A} I (m : M A) :
  preserves I m -> triple I m (fun _ => I).
Proof. intros Hm w a w' Hw Hmw. specialize (Hm w Hw). by rewrite Hmw in Hm. Qed.

Lemma triple_preserves_weaken {A} I (Q : World num -> Prop) (m : M A) :
  preserves I m -> (forall w, I w -> Q w) -> triple I m (fun _ => Q).
Proof.
  intros Hm HQ w a w' Hw Hmw. apply HQ. specialize (Hm w Hw).
  by rewrite Hmw in Hm.
Qed.

Lemma triple_and {A} P1 P2 (m : M A) (Q1 Q2 : A -> World num -> Prop) :
  triple P1 m Q1 -> triple P2 m Q2 ->
  triple (fun w => P1 w /\ P2 w) m (fun a w => Q1 a w /\ Q2 a w).
Proof.
  intros H1 H2 w a w' [Hw1 Hw2] Hmw. split; [by eapply H1|by eapply H2].
Qed.
End Rules.

(** ** C5: [linkconfig] with unchanged parameters *)

Section LinkConfigFacts.
Context {num : Type} `{!PyNum num} {env : Env}.
Implicit Types (w : World num) (netif : CoreInterface) (v : pval num).

Lemma setparam_same netif key v w :
  cached netif key v w -> setparam netif key v w = (Ok false, w).
Proof.
  intros Hc. unfold setparam, bind, get_if, gets.
  by rewrite bool_decide_eq_true_2.
Qed.

Lemma getparam_eq netif key w :
  getparam netif key w = (Ok (cache_get key (if_state_of w netif)), w).
Proof. reflexivity. Qed.

Lemma setparam_establishes netif key v w :
  cached netif key v (snd (setparam netif key v w)).
Proof.
  unfold setparam, bind, get_if, gets. case_bool_decide as Hc; simpl; [done|].
  unfold cached, if_state_of, cache_get; simpl.
  by rewrite lookup_insert_eq; simpl; rewrite lookup_insert_eq.
Qed.

Lemma setparam_preserves netif key key' v v' :
  key <> key' -> preserves (cached netif key' v') (setparam netif key v).
Proof.
  intros Hne w Hw. unfold setparam, bind, get_if, gets.
  case_bool_decide as Hc; simpl; [done|].
  unfold cached, if_state_of, cache_get in *; simpl.
  rewrite lookup_insert_eq; simpl. by rewrite lookup_insert_ne.
Qed.

Lemma getparam_preserves (I : World num -> Prop) netif key :
  preserves I (getparam netif key).
Proof. by intros w. Qed.

Lemma call_preserves_cached netif key v c :
  preserves (cached netif key v) (call c).
Proof. intros w Hw. unfold call. by destruct (host_ok (trace w) c). Qed.

Lemma host_cmd_if_up_preserves_cached netif key v self cmd :
  preserves (cached netif key v) (host_cmd_if_up self cmd).
Proof.
  unfold host_cmd_if_up, self_up.
  apply preserves_bind.
  - apply preserves_bind; [apply preserves_get_net|intros n; apply preserves_ret].
  - intros []; [apply call_preserves_cached|apply preserves_ret].
Qed.

Lemma preserves_and {A} (I J : World num -> Prop) (m : M A) :
  preserves I m -> preserves J m -> preserves (fun w => I w /\ J w) m.
Proof. intros HI HJ w [Hw1 Hw2]. split; [by apply HI|by apply HJ]. Qed.

Lemma setparam_adds (P : World num -> Prop) netif key v :
  preserves P (setparam netif key v) ->
  triple P (setparam netif key v) (fun _ w => P w /\ cached netif key v w).
Proof.
  intros HP w a w' Hw Hs. split.
  - specialize (HP w Hw). by rewrite Hs in HP.
  - pose proof (setparam_establishes netif key v w) as He. by rewrite Hs in He.
Qed.

(** Steps of [linkconfig] that write other keys or none keep a cached
    value. *)
Ltac keeps :=
  repeat first
    [ apply preserves_and
    | apply preserves_ret
    | apply preserves_raise
    | apply getparam_preserves
    | apply host_cmd_if_up_preserves_cached
    | apply setparam_preserves; discriminate
    | match goal with
      | |- preserves _ (if ?c then _ else _) => destruct c
      | |- preserves _ (match ?o with _ => _ end) => destruct o
      | |- preserves _ (bind _ _) => apply preserves_bind; [|intros ?]
      end ].

(** A call of [linkconfig] that returns leaves the requested values in the
    cache. *)
Lemma linkconfig_caches_request self netif o :
  triple (fun _ => True) (linkconfig self netif o)
    (fun _ => cached_as_requested netif o).
Proof.
  unfold linkconfig. cbv zeta.
  eapply triple_bind
    with (Q1 := fun _ => cached netif "bw" (of_opt (bandwidth o))).
  { intros w a w' _ Hs.
    pose proof (setparam_establishes netif "bw" (of_opt (bandwidth o)) w) as He.
    by rewrite Hs in He. }
  intros set_bw.
  eapply triple_bind; [apply triple_preserves; keeps|]. intros changed.
  eapply triple_bind; [apply triple_preserves; keeps|]. intros has_tbf.
  eapply triple_bind; [apply setparam_adds; keeps|]. intros c1.
  eapply triple_bind; [apply setparam_adds; keeps|]. intros c2.
  eapply triple_bind; [apply setparam_adds; keeps|]. intros c3.
  eapply triple_bind; [apply setparam_adds; keeps|]. intros c4.
  eapply triple_preserves_weaken; [keeps|].
  intros w ((((Hbw & Hdelay) & Hloss) & Hdup) & Hjit). by repeat split.
Qed.

(** C5. When the interface's cache already holds the requested bandwidth,
    delay, loss, duplicate and jitter (in particular in the world a
    returned call of [linkconfig] with the same options left),
    [linkconfig] returns and leaves the world as it was: no host call is
    logged and nothing is written. *)
Theorem linkconfig_unchanged_no_command w self netif o :
  cached_as_requested netif o w \/
    (exists w0, linkconfig self netif o w0 = (Ok tt, w)) ->
  linkconfig self netif o w = (Ok tt, w).
Proof.
  intros Hcase.
  assert (Hc : cached_as_requested netif o w).
  { destruct Hcase as [Hc|[w0 Hrun]]; [done|].
    by eapply (linkconfig_caches_request self netif o w0). }
  destruct Hc as (Hbw & Hdelay & Hloss & Hdup & Hjit).
  unfold linkconfig. cbv zeta.
  unfold bind at 1. rewrite (setparam_same _ _ _ _ Hbw).
  unfold bind at 1, ret at 1.
  unfold bind at 1. rewrite getparam_eq.
  unfold bind at 1. rewrite (setparam_same _ _ _ _ Hdelay).
  unfold bind at 1. rewrite (setparam_same _ _ _ _ Hloss).
  unfold bind at 1. rewrite (setparam_same _ _ _ _ Hdup).
  unfold bind at 1. rewrite (setparam_same _ _ _ _ Hjit).
  reflexivity.
Qed.
End LinkConfigFacts.

(** The link update of the test suite on [eth_a] of the sample network: the
    first call issues the two tc commands, the second one none. *)
Lemma linkconfig_unchanged_no_command_witness :
  calls_of (trace (snd (linkconfig (env := sample_env) 0%nat eth_a
                          sample_options world0)))
  = [ Shell "/sbin/tc qdisc replace dev veth1.0.1 root handle 1: tbf rate 5000000 burst 5000 limit 65535";
      Shell "/sbin/tc qdisc replace dev veth1.0.1 parent 1:1 handle 10: netem delay 50us 10us 25% loss 25% duplicate 25%" ] /\
  linkconfig (env := sample_env) 0%nat eth_a sample_options
    (snd (linkconfig (env := sample_env) 0%nat eth_a sample_options world0))
  = (Ok tt, snd (linkconfig (env := sample_env) 0%nat eth_a sample_options world0)).
Proof.
  split; [vm_compute; reflexivity|].
  apply linkconfig_unchanged_no_command. right. exists world0.
  vm_compute. reflexivity.
Defined.

(** ** C6: point-to-point networks take two interfaces *)

Section PtpAttach.
Context {num : Type} {env : Env}.
Implicit Types (w : World num) (n : CoreNetwork) (netif : CoreInterface).

Lemma dict_has_del_ne {V} (i j : Z) (d : list (Z * V)) :
  i <> j -> dict_has j (dict_del i d) = dict_has j d.
Proof.
  intros Hne. unfold dict_has. induction d as [|[k v] d IH]; simpl; [done|].
  destruct (decide (i = k)) as [->|Hik]; simpl.
  - by rewrite decide_False by congruence.
  - destruct (decide (j = k)); [done|]. apply IH.
Qed.

Lemma dict_del_length {V} (i : Z) (d : list (Z * V)) :
  dict_has i d = true -> S (length (dict_del i d)) = length d.
Proof.
  unfold dict_has. induction d as [|[k v] d IH]; simpl; [done|].
  destruct (decide (i = k)); simpl; [done|]. intros Hd. by rewrite IH.
Qed.

(** [first_free] answers an index the map does not use, at or after the
    start. *)
Lemma first_free_spec fuel :
  forall (d : list (Z * CoreInterface)) i,
    (length d <= fuel)%nat ->
    i <= first_free fuel d i /\ dict_has (first_free fuel d i) d = false.
Proof.
  induction fuel as [|fuel IH]; intros d i Hlen; simpl.
  - destruct d; [|simpl in Hlen; lia]. split; [lia|done].
  - destruct (dict_has i d) eqn:Hi; [|split; [lia|done]].
    pose proof (dict_del_length i d Hi) as Hdel.
    destruct (IH (dict_del i d) (i + 1)) as [Hle Hfree]; [lia|].
    split; [lia|]. rewrite <- Hfree. symmetry. apply dict_has_del_ne. lia.
Qed.

Lemma next_index_free n : dict_get (next_index n) (_netif n) = None.
Proof.
  destruct (first_free_spec (length (_netif n)) (_netif n) (ifindex n))
    as [_ Hfree]; [done|].
  unfold dict_has in Hfree. fold (next_index n) in Hfree.
  by destruct (dict_get (next_index n) (_netif n)).
Qed.

Lemma dict_set_fresh_length {K V} `{EqDecision K} (k : K) (v : V) d :
  dict_get k d = None -> length (dict_set k v d) = S (length d).
Proof.
  induction d as [|[k' v'] d IH]; simpl; [done|].
  destruct (decide (k = k')); [done|]. intros Hd. simpl. by rewrite IH.
Qed.

Lemma get_net_eq w r n : nets w !! r = Some n -> get_net r w = (Ok n, w).
Proof. intros Hn. unfold get_net. by rewrite Hn. Qed.

Lemma update_net_eq w r n f :
  nets w !! r = Some n -> update_net r f w = (Ok tt, put_net r (f n) w).
Proof. intros Hn. unfold update_net, bind. by rewrite (get_net_eq _ _ _ Hn). Qed.

Lemma nets_put_net w r n : nets (put_net r n w) !! r = Some n.
Proof. apply lookup_insert_eq. Qed.

Lemma base_attach_eq w self n netif :
  nets w !! self = Some n ->
  net (if_state_of w netif) = None ->
  base_attach self netif w = (Ok tt, attach_world self netif n w).
Proof.
  intros Hn Hfree. unfold base_attach. unfold bind at 1. unfold get_if, gets.
  rewrite Hfree. unfold newifindex.
  unfold bind at 1, bind at 1. rewrite (get_net_eq _ _ _ Hn).
  unfold bind at 1. rewrite (update_net_eq _ _ _ _ Hn). unfold ret at 1.
  unfold bind at 1. rewrite (update_net_eq _ _ _ _ (nets_put_net _ _ _)).
  unfold bind at 1. unfold update_if at 1, modify at 1.
  unfold bind at 1.
  erewrite update_net_eq by (simpl; apply lookup_insert_eq).
  unfold update_if, modify, attach_world, attach_net, put_if, put_net,
    with_ifaces, with_nets, if_state_of; simpl.
  rewrite !insert_insert_eq, lookup_insert_eq. simpl. reflexivity.
Qed.

Lemma attach_world_attached w self n netif :
  nets (attach_world self netif n w) !! self
    = Some (attach_net netif (next_index n) n) /\
  dict_get (next_index n) (_netif (attach_net netif (next_index n) n))
    = Some netif /\
  length (_netif (attach_net netif (next_index n) n)) = S (length (_netif n)) /\
  recorded (attach_world self netif n w)
    (attach_net netif (next_index n) n) netif = Some netif /\
  dict_get netif (_linked (attach_net netif (next_index n) n)) = Some [].
Proof.
  split; [apply lookup_insert_eq|].
  split; [apply dict_get_set_eq|].
  split; [apply dict_set_fresh_length, next_index_free|].
  split; [|apply dict_get_set_eq].
  unfold recorded, if_state_of, attach_world, put_if; simpl.
  rewrite lookup_insert_eq. simpl. apply dict_get_set_eq.
Qed.

(** C6. On a point-to-point network of the store: with two (or more)
    interfaces in the interface map, [attach] raises the capacity error and
    leaves the world, hence the interface map, as it was; with fewer it is
    [CoreNetwork.attach], and when the interface has no owner and the host
    accepts the bridge command of a started network, it returns with the
    interface in the map under the next free index, one entry more in the
    map, and the empty adjacency row. *)
Theorem PtpNet_attach_at_most_two w self n netif :
  nets w !! self = Some n ->
  ((2 <= length (_netif n))%nat ->
     PtpNet_attach self netif w
     = (Raise (ValueError
                 "Point-to-point links support at most 2 network interfaces"),
        w)) /\
  ((length (_netif n) < 2)%nat ->
     PtpNet_attach self netif w = attach self netif w /\
     (net (if_state_of w netif) = None ->
      (up n = true ->
       host_ok (trace w) (SetInterfaceMaster (brname n) (localname netif))
       = true) ->
      exists w' n',
        PtpNet_attach self netif w = (Ok tt, w') /\
        nets w' !! self = Some n' /\
        dict_get (next_index n) (_netif n') = Some netif /\
        length (_netif n') = S (length (_netif n)) /\
        recorded w' n' netif = Some netif /\
        dict_get netif (_linked n') = Some [])).
Proof.
  intros Hn.
  assert (Heq : PtpNet_attach self netif w
    = if bool_decide (2 <= length (_netif n))%nat
      then (Raise (ValueError
                     "Point-to-point links support at most 2 network interfaces"),
            w)
      else attach self netif w).
  { unfold PtpNet_attach, bind. rewrite (get_net_eq _ _ _ Hn).
    by case_bool_decide. }
  rewrite Heq. split.
  - intros Hlen. by rewrite bool_decide_eq_true_2.
  - intros Hlen. rewrite bool_decide_eq_false_2 by lia. split; [done|].
    intros Hfree Hhost. unfold attach. unfold bind at 1.
    rewrite (get_net_eq _ _ _ Hn). unfold bind at 1.
    destruct (up n) eqn:Hup.
    + unfold call. rewrite (Hhost eq_refl).
      set (w1 := with_trace _ w).
      rewrite (base_attach_eq w1 self n netif Hn Hfree).
      exists (attach_world self netif n w1), (attach_net netif (next_index n) n).
      split; [done|]. apply attach_world_attached.
    + unfold ret at 1.
      rewrite (base_attach_eq w self n netif Hn Hfree).
      exists (attach_world self netif n w), (attach_net netif (next_index n) n).
      split; [done|]. apply attach_world_attached.
Qed.
End PtpAttach.

(** Three interfaces for the sample point-to-point network: the first two
    are attached, the third is refused and the map keeps its two entries. *)
Lemma PtpNet_attach_at_most_two_witness :
  fst (PtpNet_attach (env := sample_env) 0%nat eth_c ptp_world) = Ok tt /\
  fst (PtpNet_attach (env := sample_env) 0%nat eth_d
         (snd (PtpNet_attach (env := sample_env) 0%nat eth_c ptp_world)))
  = Ok tt /\
  PtpNet_attach (env := sample_env) 0%nat eth_e ptp_world2
  = (Raise (ValueError
              "Point-to-point links support at most 2 network interfaces"),
     ptp_world2).
Proof.
  split; [reflexivity|]. split; [reflexivity|].
  assert (Hn : nets ptp_world2 !! 0%nat = Some ptp2) by reflexivity.
  destruct (PtpNet_attach_at_most_two (env := sample_env)
              ptp_world2 0%nat ptp2 eth_e Hn) as [Hfull _].
  apply Hfull. simpl. lia.
Defined.

(** ** C7: link data of a point-to-point network *)

Section PtpLinkDataFacts.
Context {num : Type} `{!PyNum num} {env : Env}.
Implicit Types (w : World num) (n : CoreNetwork).

Lemma scan_addresses_ok (l : list string) :
  Forall has_mask l ->
  forall acc w, exists r, scan_addresses (num := num) l acc w = (Ok r, w).
Proof.
  induction 1 as [|address l [mask Hmask] _ IH]; intros acc w; simpl.
  - by exists acc.
  - destruct (partition_slash address) as [ip m]. simpl in Hmask.
    rewrite Hmask. destruct acc as [[[ip4 ip4_mask] ip6] ip6_mask].
    destruct (valid_ipv4 ip); apply IH.
Qed.

(** C7. On a point-to-point network of the store, [all_link_data] returns
    the empty list unless the interface map has exactly two entries.  With
    two interfaces that belong to nodes and whose addresses are in CIDR
    form, it returns one record from the first node to the second, and,
    exactly when the two parameter caches differ, a second record with the
    endpoints swapped; the unidirectional flag is 1 on both records in that
    case and 0 on the single record otherwise.  The world is left as it
    was. *)
Theorem PtpNet_all_link_data_records w self n flags :
  nets w !! self = Some n ->
  (length (_netif n) <> 2%nat ->
     PtpNet_all_link_data self flags w = (Ok [], w)) /\
  (forall i1 if1 i2 if2 id1 id2,
     _netif n = [(i1, if1); (i2, if2)] ->
     node if1 = Some id1 -> node if2 = Some id2 ->
     Forall has_mask (addrlist (if_state_of w if1)) ->
     Forall has_mask (addrlist (if_state_of w if2)) ->
     exists rec1 rec2,
       PtpNet_all_link_data self flags w
       = (Ok (if decide (getparams (if_state_of w if1)
                         = getparams (if_state_of w if2))
              then [rec1] else [rec1; rec2]), w) /\
       node1_id rec1 = id1 /\ node2_id rec1 = id2 /\
       node1_id rec2 = id2 /\ node2_id rec2 = id1 /\
       message_type rec1 = flags /\
       unidirectional rec1
       = (if decide (getparams (if_state_of w if1)
                     = getparams (if_state_of w if2)) then 0 else 1) /\
       unidirectional rec2 = 1).
Proof.
  intros Hn. unfold PtpNet_all_link_data. split.
  - intros Hlen. unfold bind at 1. rewrite (get_net_eq _ _ _ Hn).
    apply Nat.eqb_neq in Hlen. by rewrite Hlen.
  - intros i1 if1 i2 if2 id1 id2 Hnetif Hnode1 Hnode2 Hmask1 Hmask2.
    unfold bind at 1. rewrite (get_net_eq _ _ _ Hn).
    rewrite Hnetif. simpl.
    unfold bind at 1, get_if at 1, gets at 1.
    unfold bind at 1, get_if at 1, gets at 1.
    destruct (scan_addresses_ok _ Hmask1 (None, None, None, None) w)
      as [[[[ip4_1 m4_1] ip6_1] m6_1] Hs1].
    destruct (scan_addresses_ok _ Hmask2 (None, None, None, None) w)
      as [[[[ip4_2 m4_2] ip6_2] m6_2] Hs2].
    unfold bind at 1. rewrite Hs1. unfold bind at 1. rewrite Hs2.
    unfold node_id_of. rewrite Hnode1, Hnode2.
    unfold bind at 1, ret at 1. unfold bind at 1, ret at 1.
    destruct (decide (getparams (if_state_of w if1)
                      = getparams (if_state_of w if2))) as [Heq|Hne].
    + rewrite bool_decide_eq_false_2 by (intros ?; done). simpl.
      eexists _, (mkLinkData MessageFlags_NONE id2 id1 linktype 1
                    PNone PNone PNone PNone PNone 0 None None None None None
                    None 0 None None None None None None).
      split; [reflexivity|]. by repeat split.
    + rewrite bool_decide_eq_true_2 by done. simpl.
      eexists _, _. split; [reflexivity|]. by repeat split.
Qed.
End PtpLinkDataFacts.

(** The sample point-to-point network: one record while both caches are
    alike, two records with the flag set when one side has a delay. *)
Lemma PtpNet_all_link_data_records_witness :
  (exists r, fst (PtpNet_all_link_data (env := sample_env) 0%nat 0 ptp_world_addr)
             = Ok [r] /\ unidirectional r = 0) /\
  (exists r1 r2,
     fst (PtpNet_all_link_data (env := sample_env) 0%nat 0 ptp_world_uni)
     = Ok [r1; r2] /\
     (node1_id r1, node2_id r1, unidirectional r1) = (3, 4, 1) /\
     (node1_id r2, node2_id r2, unidirectional r2) = (4, 3, 1)).
Proof.
  assert (Hcidr : forall a, a = "10.0.0.1/24" \/ a = "10.0.0.2/24" ->
                            has_mask (env := sample_env) a).
  { intros a [->| ->]; by eexists. }
  split.
  - destruct (PtpNet_all_link_data_records (env := sample_env)
                ptp_world_addr 0%nat ptp2 0 eq_refl) as [_ Htwo].
    destruct (Htwo 0 eth_c 1 eth_d 3 4 eq_refl eq_refl eq_refl)
      as (r1 & r2 & Hrun & _ & _ & _ & _ & _ & Huni & _).
    { repeat constructor. apply Hcidr. by left. }
    { repeat constructor. apply Hcidr. by right. }
    exists r1. rewrite Hrun. split; [reflexivity|]. rewrite Huni. reflexivity.
  - destruct (PtpNet_all_link_data_records (env := sample_env)
                ptp_world_uni 0%nat ptp2 0 eq_refl) as [_ Htwo].
    destruct (Htwo 0 eth_c 1 eth_d 3 4 eq_refl eq_refl eq_refl)
      as (r1 & r2 & Hrun & Ha & Hb & Hc & Hd & _ & Huni & Huni2).
    { repeat constructor. apply Hcidr. by left. }
    { repeat constructor. apply Hcidr. by right. }
    exists r1, r2. rewrite Hrun, Ha, Hb, Hc, Hd, Huni, Huni2.
    repeat split; reflexivity.
Defined.

(** ** C8: [linknet] *)

Section LinkNetFacts.
Context {num : Type} {env : Env}.
Implicit Types (w : World num) (n p : CoreNetwork) (netif : CoreInterface).

Lemma get_session_eq w self n s :
  nets w !! self = Some n -> session n = Some s ->
  get_session self w = (Ok s, w).
Proof.
  intros Hn Hs. unfold get_session, bind. rewrite (get_net_eq _ _ _ Hn).
  by rewrite Hs.
Qed.

Lemma call_eq w c :
  call c w = (if host_ok (trace w) c then Ok tt else Raise CoreCommandError,
              add_events [Call c] w).
Proof. unfold call. by destruct (host_ok (trace w) c). Qed.

Lemma attach_eq w self n netif :
  nets w !! self = Some n ->
  attach self netif w
  = if up n then
      if host_ok (trace w) (SetInterfaceMaster (brname n) (localname netif))
      then base_attach self netif
             (add_events [Call (SetInterfaceMaster (brname n) (localname netif))] w)
      else (Raise CoreCommandError,
            add_events [Call (SetInterfaceMaster (brname n) (localname netif))] w)
    else base_attach self netif w.
Proof.
  intros Hn. unfold attach. unfold bind at 1. rewrite (get_net_eq _ _ _ Hn).
  unfold bind at 1. destruct (up n); [|reflexivity].
  rewrite call_eq. by destruct (host_ok _ _).
Qed.

Lemma Veth_eq w vname vlocal start :
  Veth vname vlocal start w
  = let netif := mkInterface (next_oid w) vname vlocal veth_mtu None in
    let w1 := put_if netif fresh_if (with_next_oid S w) in
    if start then
      (if host_ok (trace w) (CreateVeth vlocal vname) then Ok netif
       else Raise CoreCommandError,
       add_events [Call (CreateVeth vlocal vname)] w1)
    else (Ok netif, w1).
Proof.
  unfold Veth, bind, gets, modify. simpl. destruct start; [|reflexivity].
  rewrite call_eq. simpl. by destruct (host_ok _ _).
Qed.

Lemma linknet_tail w self net a p vname :
  nets w !! net = Some p ->
  (p0 <- get_net net ;;
   (if up p0 && nonempty (brname p0)
    then call (SetInterfaceMaster (brname p0) vname)
    else ret tt) ;;
   i <- newifindex net ;;
   update_net net (fun p1 => set_netif (dict_set i a (_netif p1)) p1) ;;
   with_lock (linked_lock net)
     (update_net net (fun p1 => set_linked (dict_set a [] (_linked p1)) p1)) ;;
   update_if a (set_net (Some self)) ;;
   update_if a (set_othernet (Some net)) ;;
   ret a) w
  = if up p && nonempty (brname p) then
      if host_ok (trace w) (SetInterfaceMaster (brname p) vname) then
        (Ok a, register_world self net a p
                 (add_events [Call (SetInterfaceMaster (brname p) vname)] w))
      else (Raise CoreCommandError,
            add_events [Call (SetInterfaceMaster (brname p) vname)] w)
    else (Ok a, register_world self net a p w).
Proof.
  intros Hp.
  assert (Hrest : forall w0, nets w0 !! net = Some p ->
    (i <- newifindex net ;;
     update_net net (fun p1 => set_netif (dict_set i a (_netif p1)) p1) ;;
     with_lock (linked_lock net)
       (update_net net (fun p1 => set_linked (dict_set a [] (_linked p1)) p1)) ;;
     update_if a (set_net (Some self)) ;;
     update_if a (set_othernet (Some net)) ;;
     ret a) w0 = (Ok a, register_world self net a p w0)).
  { intros w0 Hp0. unfold newifindex.
    unfold bind at 1, bind at 1. rewrite (get_net_eq _ _ _ Hp0).
    unfold bind at 1. rewrite (update_net_eq _ _ _ _ Hp0). unfold ret at 1.
    unfold bind at 1. rewrite (update_net_eq _ _ _ _ (nets_put_net _ _ _)).
    unfold bind at 1, with_lock, finally, bind at 1, emit at 1, modify at 1.
    erewrite update_net_eq by (simpl; apply lookup_insert_eq).
    unfold emit at 1, modify at 1.
    unfold bind, update_if, modify, ret, register_world, attach_net,
      add_events, put_if, put_net, with_ifaces, with_nets, with_trace,
      if_state_of; simpl.
    rewrite !insert_insert_eq, lookup_insert_eq. simpl.
    by rewrite <- app_assoc. }
  unfold bind at 1. rewrite (get_net_eq _ _ _ Hp).
  unfold bind at 1. destruct (up p && nonempty (brname p)).
  - rewrite call_eq. destruct (host_ok _ _); [|reflexivity]. by apply Hrest.
  - unfold ret at 1. by apply Hrest.
Qed.

(** The world [linknet] returns, seen from a world [w] in which the
    interface is already attached to this network. *)
Lemma register_world_registered w self peer a n p :
  self <> peer ->
  nets w !! self = Some (attach_net a (next_index n) n) ->
  (exists n', nets (register_world self peer a p w) !! self = Some n' /\
     dict_get (next_index n) (_netif n) = None /\
     dict_get (next_index n) (_netif n') = Some a /\
     dict_get a (_linked n') = Some []) /\
  (exists p', nets (register_world self peer a p w) !! peer = Some p' /\
     dict_get (next_index p) (_netif p) = None /\
     dict_get (next_index p) (_netif p') = Some a /\
     dict_get a (_linked p') = Some []) /\
  net (if_state_of (register_world self peer a p w) a) = Some self /\
  othernet (if_state_of (register_world self peer a p w) a) = Some peer /\
  trace (register_world self peer a p w)
    = trace w ++ [Acquire (linked_lock peer); Release (linked_lock peer)].
Proof.
  intros Hne Hn'. unfold register_world, if_state_of; simpl.
  rewrite lookup_insert_ne by done. rewrite !lookup_insert_eq.
  split; [|split]; [| |done].
  - eexists. split; [exact Hn'|].
    split; [apply next_index_free|]. split; apply dict_get_set_eq.
  - eexists. split; [reflexivity|].
    split; [apply next_index_free|]. split; apply dict_get_set_eq.
Qed.

(** The end of [linknet] after the attach to this network, in each of
    its cases: with or without the host call for the peer bridge. *)
Ltac linknet_registered n p Hne Hn3 :=
  rewrite (linknet_tail _ _ _ _ p _) by (simpl; by rewrite lookup_insert_ne);
  destruct (up p && nonempty (brname p));
    [destruct (host_ok _ _); [|discriminate]|];
  intros [= <- <-];
  (split; [done|]); (split; [lia|]);
  let Hself := fresh "Hself" in
  let Hpeer := fresh "Hpeer" in
  let Hnet := fresh "Hnet" in
  let Hother := fresh "Hother" in
  let Htrace := fresh "Htrace" in
  match goal with
  | |- context [register_world ?self ?peer ?a ?p ?w0] =>
    destruct (register_world_registered w0 self peer a n p Hne)
      as (Hself & Hpeer & Hnet & Hother & Htrace); [apply Hn3|]
  end;
  (split; [rewrite Htrace; simpl; by rewrite <- ?app_assoc|done]).

(** C8. For two distinct networks of the store, the first with its
    session: the veth halves are named veth<self-hex>.<peer-hex>.<sess> and
    veth<peer-hex>.<self-hex>.<sess>; when either name has 16 bytes or more
    [linknet] raises [ValueError] and leaves the world as it was (nothing
    created, nothing attached).  When [linknet] returns, the interface it
    returns is a new object with these two names, both shorter than 16
    bytes; the host was asked, in this order, to create the pair and to put
    the local half into this bridge when this network is up, and to put the
    remote half into the peer bridge when (and only when) the peer is up
    and has a bridge name; the interface is in this network's map under its
    next free index and in the peer's map under the peer's next free index,
    in both with an empty adjacency row; and the interface records this
    network as its network and the peer as its other network.  On a host
    that accepts every call [linknet] returns whenever both names are
    short enough. *)
Theorem linknet_names_and_registration w self peer n p s :
  nets w !! self = Some n -> nets w !! peer = Some p -> self <> peer ->
  session n = Some s ->
  let vlocal := veth_localname (net_id n) (net_id p) (short_session_id s) in
  let vname := veth_localname (net_id p) (net_id n) (short_session_id s) in
  ((16 <= String.length vlocal \/ 16 <= String.length vname)%nat ->
     exists msg, linknet self peer w = (Raise (ValueError msg), w)) /\
  (forall netif w', linknet self peer w = (Ok netif, w') ->
     netif = mkInterface (next_oid w) vname vlocal veth_mtu None /\
     (String.length vlocal < 16 /\ String.length vname < 16)%nat /\
     trace w' = trace w ++ linknet_events n p vlocal vname peer /\
     (exists n', nets w' !! self = Some n' /\
        dict_get (next_index n) (_netif n) = None /\
        dict_get (next_index n) (_netif n') = Some netif /\
        dict_get netif (_linked n') = Some []) /\
     (exists p', nets w' !! peer = Some p' /\
        dict_get (next_index p) (_netif p) = None /\
        dict_get (next_index p) (_netif p') = Some netif /\
        dict_get netif (_linked p') = Some []) /\
     net (if_state_of w' netif) = Some self /\
     othernet (if_state_of w' netif) = Some peer) /\
  ((String.length vlocal < 16 /\ String.length vname < 16)%nat ->
   (forall t c, host_ok t c = true) ->
   exists netif w', linknet self peer w = (Ok netif, w')).
Proof.
  intros Hn Hp Hne Hs vlocal vname.
  split; [intros Hlong|split; [intros netif w'|intros [Hl1' Hl2'] Hhost]].
  all: unfold linknet; unfold bind at 1;
    rewrite (get_session_eq _ _ _ _ Hn Hs);
    unfold bind at 1; rewrite (get_net_eq _ _ _ Hn);
    unfold bind at 1; rewrite (get_net_eq _ _ _ Hp);
    fold (veth_localname (net_id n) (net_id p) (short_session_id s));
    fold (veth_localname (net_id p) (net_id n) (short_session_id s));
    fold vlocal vname;
    destruct (bool_decide (16 <= String.length vlocal)%nat) eqn:Hl1;
    [|destruct (bool_decide (16 <= String.length vname)%nat) eqn:Hl2].
  - by eexists.
  - by eexists.
  - apply bool_decide_eq_false in Hl1, Hl2. lia.
  - unfold raise; discriminate.
  - unfold raise; discriminate.
  - apply bool_decide_eq_false in Hl1, Hl2.
    unfold bind at 1. rewrite Veth_eq. cbv zeta.
    set (a := mkInterface (next_oid w) vname vlocal veth_mtu None).
    set (w1 := put_if a fresh_if (with_next_oid S w)).
    assert (Hfresh : forall l, net (if_state_of (add_events l w1) a) = None).
    { intros l. unfold if_state_of; simpl. by rewrite lookup_insert_eq. }
    assert (Hfresh1 : net (if_state_of w1 a) = None).
    { unfold if_state_of; simpl. by rewrite lookup_insert_eq. }
    assert (Hn3 : forall w0, nets (attach_world self a n w0) !! self
                             = Some (attach_net a (next_index n) n))
      by (intros w0; apply lookup_insert_eq).
    unfold linknet_events.
    destruct (up n) eqn:Hup.
    + destruct (host_ok (trace w) (CreateVeth vlocal vname)); [|discriminate].
      unfold bind at 1. rewrite (attach_eq _ self n a) by exact Hn. rewrite Hup.
      destruct (host_ok _ (SetInterfaceMaster (brname n) (localname a)));
        [|discriminate].
      rewrite (base_attach_eq _ self n a) by (exact Hn || apply Hfresh).
      linknet_registered n p Hne Hn3.
    + unfold bind at 1. rewrite (attach_eq _ self n a) by exact Hn. rewrite Hup.
      rewrite (base_attach_eq _ self n a) by (exact Hn || apply Hfresh1).
      linknet_registered n p Hne Hn3.
  - apply bool_decide_eq_true in Hl1. lia.
  - apply bool_decide_eq_true in Hl2. lia.
  - unfold bind at 1. rewrite Veth_eq. cbv zeta.
    set (a := mkInterface (next_oid w) vname vlocal veth_mtu None).
    set (w1 := put_if a fresh_if (with_next_oid S w)).
    assert (Hfresh : forall l, net (if_state_of (add_events l w1) a) = None).
    { intros l. unfold if_state_of; simpl. by rewrite lookup_insert_eq. }
    assert (Hfresh1 : net (if_state_of w1 a) = None).
    { unfold if_state_of; simpl. by rewrite lookup_insert_eq. }
    destruct (up n) eqn:Hup.
    + rewrite Hhost. unfold bind at 1.
      rewrite (attach_eq _ self n a) by exact Hn. rewrite Hup, Hhost.
      rewrite (base_attach_eq _ self n a) by (exact Hn || apply Hfresh).
      rewrite (linknet_tail _ self peer a p vname)
        by (simpl; by rewrite lookup_insert_ne).
      rewrite Hhost. destruct (up p && nonempty (brname p)); by eexists _, _.
    + unfold bind at 1.
      rewrite (attach_eq _ self n a) by exact Hn. rewrite Hup.
      rewrite (base_attach_eq _ self n a) by (exact Hn || apply Hfresh1).
      rewrite (linknet_tail _ self peer a p vname)
        by (simpl; by rewrite lookup_insert_ne).
      rewrite Hhost. destruct (up p && nonempty (brname p)); by eexists _, _.
Qed.
End LinkNetFacts.

(** Two switches of the sample session get veth1.2.1 and veth2.1.1; with
    ids 0x12345 and 0x23456 and session abcd the names have 20 bytes and
    nothing happens. *)
Lemma linknet_names_and_registration_witness :
  (exists msg,
     linknet (env := sample_env) 0%nat 1%nat switch_world_long
     = (Raise (ValueError msg), switch_world_long)) /\
  (exists netif w',
     linknet (env := sample_env) 0%nat 1%nat switch_world = (Ok netif, w') /\
     localname netif = "veth1.2.1" /\ name netif = "veth2.1.1" /\
     calls_of (trace w')
     = [CreateVeth "veth1.2.1" "veth2.1.1";
        SetInterfaceMaster "b.1.1" "veth1.2.1";
        SetInterfaceMaster "b.2.1" "veth2.1.1"]).
Proof.
  split.
  - destruct (linknet_names_and_registration (env := sample_env)
                switch_world_long 0%nat 1%nat _ _ long_session
                eq_refl eq_refl ltac:(discriminate) eq_refl) as [Hlong _].
    apply Hlong. left. vm_compute. lia.
  - destruct (linknet_names_and_registration (env := sample_env)
                switch_world 0%nat 1%nat _ _ sample_session
                eq_refl eq_refl ltac:(discriminate) eq_refl)
      as (_ & Hok & Hruns).
    destruct Hruns as (netif & w' & Hrun).
    { vm_compute. lia. }
    { reflexivity. }
    exists netif, w'. split; [exact Hrun|].
    destruct (Hok netif w' Hrun) as (-> & _ & Htrace & _).
    split; [reflexivity|]. split; [reflexivity|].
    rewrite Htrace. reflexivity.
Defined.

(** ** C10: [shutdown] and the worker's stale-network check *)

Section Shutdown.
Context {num : Type} {env : Env}.
Implicit Types (w : World num) (n : CoreNetwork) (I : World num -> Prop).

Lemma preserves_emit I e : ignores_trace I -> preserves I (emit e).
Proof. intros HI w Hw. by apply HI. Qed.

Lemma preserves_call I c : ignores_trace I -> preserves I (call c).
Proof.
  intros HI w Hw. unfold call. destruct (host_ok (trace w) c); by apply HI.
Qed.

Lemma preserves_update_ebq I f : ignores_ebq I -> preserves I (update_ebq f).
Proof. intros HI w Hw. by apply HI. Qed.

Lemma preserves_with_lock {A} I l (m : M A) :
  ignores_trace I -> preserves I m -> preserves I (with_lock l m).
Proof.
  intros HI Hm. unfold with_lock.
  apply preserves_bind; [by apply preserves_emit|intros _].
  apply preserves_finally; [done|by apply preserves_emit].
Qed.

Lemma preserves_get_session I self : preserves I (get_session (num := num) self).
Proof.
  unfold get_session. apply preserves_bind; [apply preserves_get_net|].
  intros n. destruct (session n); [apply preserves_ret|apply preserves_raise].
Qed.

Lemma preserves_host_cmd I self args :
  ignores_trace I -> preserves I (host_cmd self args).
Proof.
  intros HI. unfold host_cmd.
  apply preserves_bind; [by apply preserves_call|intros _].
  apply preserves_bind; [apply preserves_get_session|intros _].
  by apply preserves_call.
Qed.

Lemma preserves_stopupdateloop I self :
  ignores_trace I -> ignores_ebq I -> preserves I (stopupdateloop self).
Proof.
  intros HT HE. unfold stopupdateloop.
  apply preserves_bind.
  { apply preserves_with_lock; [done|by apply preserves_update_ebq]. }
  intros _. apply preserves_bind; [apply preserves_gets|intros q].
  case_bool_decide; [apply preserves_ret|].
  apply preserves_bind; [by apply preserves_update_ebq|intros _].
  apply preserves_bind; [apply preserves_gets|intros q'].
  destruct (updatethread q'); [by apply preserves_update_ebq|apply preserves_ret].
Qed.

Lemma preserves_netif_shutdown I netif :
  ignores_trace I -> preserves I (netif_shutdown netif).
Proof.
  intros HI. unfold netif_shutdown.
  apply preserves_try_except; [by apply preserves_call|].
  intros _. apply preserves_ret.
Qed.

Lemma preserves_remove_chain I self :
  ignores_trace I ->
  preserves I
    (try_except
       (n <- get_net self ;;
        call (DeleteBridge (brname n)) ;;
        if has_ebtables_chain n then
          ebtablescmds (host_cmd self)
            [ EBTABLES_BIN +:+ " -D FORWARD --logical-in " +:+ brname n
                +:+ " -j " +:+ brname n;
              EBTABLES_BIN +:+ " -X " +:+ brname n ]
        else ret tt)
       is_CoreCommandError (fun _ => ret tt)).
Proof.
  intros HI. apply preserves_try_except; [|intros _; apply preserves_ret].
  apply preserves_bind; [apply preserves_get_net|intros n].
  apply preserves_bind; [by apply preserves_call|intros _].
  destruct (has_ebtables_chain n); [|apply preserves_ret].
  apply preserves_with_lock; [done|].
  apply preserves_for. intros c. by apply preserves_host_cmd.
Qed.

Lemma holds_net_ignores_trace self n :
  ignores_trace (fun w : World num => nets w !! self = Some n).
Proof. by intros f w Hw. Qed.

Lemma holds_net_ignores_ebq self n :
  ignores_ebq (fun w : World num => nets w !! self = Some n).
Proof. by intros f w Hw. Qed.

(** What the worker's loop body does, by the stale-network check. *)
Lemma visit_eq wlan w :
  visit wlan w
  = if session_raises wlan w then updated wlan w else rebuild_if_due wlan w.
Proof.
  unfold visit, session_raises, rebuild_if_due, try_except.
  unfold bind at 1, bind at 1. unfold get_session, bind, get_net.
  destruct (nets w !! wlan) as [n|]; [|reflexivity].
  by destruct (session n).
Qed.

Lemma shutdown_ok_inv w self n w' :
  nets w !! self = Some n -> up n = true ->
  shutdown self w = (Ok tt, w') ->
  nets w' !! self = Some (shut_down n).
Proof.
  intros Hn Hup. unfold shutdown. unfold bind at 1.
  rewrite (get_net_eq _ _ _ Hn), Hup. simpl.
  pose proof (holds_net_ignores_trace self n) as HI.
  unfold bind at 1.
  pose proof (preserves_stopupdateloop _ self HI
                (holds_net_ignores_ebq self n) w Hn) as H1.
  destruct (stopupdateloop self w) as [[[]|e] w1]; [|discriminate].
  simpl in H1. unfold bind at 1.
  pose proof (preserves_remove_chain _ self HI w1 H1) as H2.
  destruct (try_except _ _ _ w1) as [[[]|e] w2]; [|discriminate].
  simpl in H2. unfold bind at 1. rewrite (get_net_eq _ _ _ H2).
  unfold bind at 1.
  pose proof (preserves_for _ (dict_values (_netif n)) netif_shutdown
                (fun x => preserves_netif_shutdown _ x HI) w2 H2) as H3.
  destruct (for_ _ _ w2) as [[[]|e] w3]; [|discriminate]. simpl in H3.
  unfold bind at 1. rewrite (update_net_eq _ _ _ _ H3).
  unfold bind at 1. rewrite (update_net_eq _ _ _ _ (nets_put_net _ _ _)).
  unfold bind at 1, del_session. unfold bind at 1.
  set (w4 := put_net self (set_linked [] (set_netif [] n)) _).
  assert (H4 : nets w4 !! self = Some (set_linked [] (set_netif [] n)))
    by apply nets_put_net.
  destruct (session n) as [s|] eqn:Hs.
  - rewrite (get_session_eq _ _ _ s H4) by done.
    rewrite (update_net_eq _ _ _ _ H4).
    rewrite (update_net_eq _ _ _ _ (nets_put_net _ _ _)).
    intros [= <-]. apply nets_put_net.
  - unfold get_session, bind. rewrite (get_net_eq _ _ _ H4). simpl.
    rewrite Hs. discriminate.
Qed.

Lemma updated_drops wlan w :
  wlan ∈ updates (ebq w) ->
  exists w', updated wlan w = (Ok tt, w') /\
    updates (ebq w') = list_remove wlan (updates (ebq w)) /\
    cmds (ebq w') = cmds (ebq w) /\
    trace w' = trace w /\ nets w' = nets w.
Proof.
  intros Hin. unfold updated, bind, gets, update_ebq, modify. simpl.
  rewrite bool_decide_eq_true_2 by done. by eexists.
Qed.

(** C10. On a network of the store that is up, a [shutdown] that returns
    leaves the network without session (reading [self.session] raises
    [AttributeError] from then on, whatever else changes in the world),
    with empty interface and adjacency maps, and down.  The worker's loop
    body marks a network as updated without building or committing exactly
    when reading its session raises, and otherwise rebuilds if the rate
    allows; so for the network shut down, once it is on the dirty list, the
    body takes it off the list and issues no command. *)
Theorem shutdown_makes_network_stale w self n w' :
  nets w !! self = Some n -> up n = true ->
  shutdown self w = (Ok tt, w') ->
  (exists n', nets w' !! self = Some n' /\
     session n' = None /\ _netif n' = [] /\ _linked n' = [] /\
     up n' = false) /\
  (forall w1, nets w1 !! self = nets w' !! self ->
     get_session self w1 = (Raise (AttributeError "session"), w1)) /\
  (forall wlan w1,
     visit wlan w1
     = if session_raises wlan w1 then updated wlan w1
       else rebuild_if_due wlan w1) /\
  (forall w1, nets w1 !! self = nets w' !! self ->
     self ∈ updates (ebq w1) ->
     exists w2, visit self w1 = (Ok tt, w2) /\
       updates (ebq w2) = list_remove self (updates (ebq w1)) /\
       cmds (ebq w2) = cmds (ebq w1) /\
       trace w2 = trace w1 /\ nets w2 = nets w1).
Proof.
  intros Hn Hup Hrun.
  pose proof (shutdown_ok_inv _ _ _ _ Hn Hup Hrun) as Hn'.
  assert (Hraise : forall w1, nets w1 !! self = nets w' !! self ->
            get_session self w1 = (Raise (AttributeError "session"), w1)).
  { intros w1 Hw1. rewrite Hn' in Hw1.
    unfold get_session, bind. by rewrite (get_net_eq _ _ _ Hw1). }
  split; [by exists (shut_down n)|]. split; [exact Hraise|].
  split; [apply visit_eq|].
  intros w1 Hw1 Hin. rewrite visit_eq. unfold session_raises.
  rewrite (Hraise w1 Hw1). simpl. by apply updated_drops.
Qed.
End Shutdown.

(** Shutting the sample wireless LAN down, then marking it dirty: the
    worker's loop body takes it off the list again without a command. *)
Lemma shutdown_makes_network_stale_witness :
  fst (shutdown (env := sample_env) 0%nat world0) = Ok tt /\
  nets (snd (shutdown (env := sample_env) 0%nat world0)) !! 0%nat
  = Some (shut_down wlan0) /\
  exists w2,
    visit (env := sample_env) 0%nat
      (with_ebq (set_updates [0%nat])
         (snd (shutdown (env := sample_env) 0%nat world0)))
    = (Ok tt, w2) /\
    updates (ebq w2) = [] /\
    trace w2 = trace (snd (shutdown (env := sample_env) 0%nat world0)).
Proof.
  assert (Hrun : shutdown (env := sample_env) 0%nat world0
                 = (Ok tt, snd (shutdown (env := sample_env) 0%nat world0)))
    by (vm_compute; reflexivity).
  destruct (shutdown_makes_network_stale (env := sample_env)
              world0 0%nat wlan0 _ eq_refl eq_refl Hrun)
    as ((n' & Hn' & _) & _ & _ & Hdrop).
  split; [by rewrite Hrun|]. split; [vm_compute; reflexivity|].
  destruct (Hdrop (with_ebq (set_updates [0%nat])
                     (snd (shutdown (env := sample_env) 0%nat world0))))
    as (w2 & Hvisit & Hupd & _ & Htrace & _).
  { reflexivity. }
  { simpl. apply list_elem_of_here. }
  exists w2. split; [exact Hvisit|]. split; [|exact Htrace].
  rewrite Hupd. reflexivity.
Defined.

(** ** The worker's loop reaches the end of the dirty list *)

Section WorkerLoop.
Context {num : Type} {env : Env}.
Implicit Types (w : World num) (k : nat).

Lemma list_remove_length x l : (length (list_remove x l) <= length l)%nat.
Proof.
  induction l as [|y l IH]; simpl; [lia|].
  destruct (decide (x = y)); simpl; lia.
Qed.

Lemma at_most_dirty_ignores_trace k : ignores_trace (at_most_dirty (num := num) k).
Proof. by intros f w Hw. Qed.

Lemma preserves_keep_updates k f :
  (forall q, updates (f q) = updates q) ->
  preserves (at_most_dirty (num := num) k) (update_ebq f).
Proof.
  intros Hf w Hw. unfold at_most_dirty in *. simpl. by rewrite Hf.
Qed.

Lemma preserves_dirty_update_net k r f :
  preserves (at_most_dirty (num := num) k) (update_net r f).
Proof.
  intros w Hw. unfold update_net, bind, get_net.
  by destruct (nets w !! r).
Qed.

Lemma preserves_dirty_updated k wlan :
  preserves (at_most_dirty (num := num) k) (updated wlan).
Proof.
  unfold updated.
  apply preserves_bind; [apply preserves_gets|intros now].
  apply preserves_bind; [by apply preserves_keep_updates|intros _].
  apply preserves_bind; [apply preserves_gets|intros q].
  case_bool_decide; [|apply preserves_raise].
  intros w Hw. unfold at_most_dirty in *. simpl.
  pose proof (list_remove_length wlan (updates (ebq w))). lia.
Qed.

Lemma preserves_dirty_lastupdate k wlan :
  preserves (at_most_dirty (num := num) k) (lastupdate wlan).
Proof.
  unfold lastupdate.
  apply preserves_bind; [apply preserves_gets|intros now].
  apply preserves_bind; [apply preserves_gets|intros q].
  destruct (last_update_time q !! wlan); [apply preserves_ret|].
  apply preserves_bind; [apply preserves_gets|intros now'].
  apply preserves_bind; [by apply preserves_keep_updates|intros _].
  apply preserves_ret.
Qed.

Lemma preserves_dirty_buildcmds k wlan :
  preserves (at_most_dirty (num := num) k) (buildcmds wlan).
Proof.
  unfold buildcmds, cmds_extend.
  apply preserves_with_lock; [apply at_most_dirty_ignores_trace|].
  apply preserves_bind; [apply preserves_get_net|intros n].
  apply preserves_bind.
  { destruct (has_ebtables_chain n); [by apply preserves_keep_updates|].
    apply preserves_bind; [apply preserves_dirty_update_net|intros _].
    by apply preserves_keep_updates. }
  intros _. apply preserves_for. intros [netif1 v].
  apply preserves_for. intros [netif2 l].
  destruct (bool_decide (policy n = DROP) && l);
    [by apply preserves_keep_updates|].
  destruct (bool_decide (policy n = ACCEPT) && negb l);
    [by apply preserves_keep_updates|apply preserves_ret].
Qed.

Lemma preserves_dirty_ebcommit k wlan :
  preserves (at_most_dirty (num := num) k) (ebcommit wlan).
Proof.
  pose proof (at_most_dirty_ignores_trace k) as HT.
  unfold ebcommit.
  apply preserves_bind; [by apply preserves_host_cmd|intros _].
  apply preserves_bind; [apply preserves_gets|intros q].
  apply preserves_bind.
  { apply preserves_for. intros c. by apply preserves_host_cmd. }
  intros _. apply preserves_bind; [by apply preserves_keep_updates|intros _].
  apply preserves_bind; [by apply preserves_host_cmd|intros _].
  apply preserves_try_except; [by apply preserves_host_cmd|].
  intros _. apply preserves_ret.
Qed.

Lemma preserves_dirty_visit k wlan :
  preserves (at_most_dirty (num := num) k) (visit wlan).
Proof.
  unfold visit. apply preserves_bind.
  { apply preserves_try_except; [|intros _; apply preserves_ret].
    apply preserves_bind; [apply preserves_get_session|].
    intros _. apply preserves_ret. }
  intros [|]; [apply preserves_dirty_updated|].
  apply preserves_bind; [apply preserves_dirty_lastupdate|intros elapsed].
  destruct (rate <? elapsed); [|apply preserves_ret].
  apply preserves_bind; [apply preserves_dirty_buildcmds|intros _].
  apply preserves_bind; [apply preserves_dirty_ebcommit|intros _].
  apply preserves_dirty_updated.
Qed.

(** The body never makes the list longer, so once the fuel covers what is
    left of the list, more fuel changes nothing: the model's loop stops
    where Python's iterator does, at the end of the list. *)
Lemma scan_updates_enough_fuel fuel :
  forall i w,
    (length (updates (ebq w)) - i <= fuel)%nat ->
    scan_updates fuel i w = scan_updates (S fuel) i w.
Proof.
  induction fuel as [|fuel IH]; intros i w Hlen.
  - simpl. unfold bind, gets.
    rewrite lookup_ge_None_2 by lia. reflexivity.
  - change (scan_updates (S fuel) i w)
      with ((q <- gets ebq ;;
             match updates q !! i with
             | None => ret tt
             | Some wlan => visit wlan ;; scan_updates fuel (S i)
             end) w).
    change (scan_updates (S (S fuel)) i w)
      with ((q <- gets ebq ;;
             match updates q !! i with
             | None => ret tt
             | Some wlan => visit wlan ;; scan_updates (S fuel) (S i)
             end) w).
    unfold bind at 1 3, gets.
    destruct (updates (ebq w) !! i) as [wlan|] eqn:Hi; [|reflexivity].
    apply lookup_lt_Some in Hi.
    unfold bind.
    pose proof (preserves_dirty_visit _ wlan w (le_n _)) as Hvisit.
    unfold at_most_dirty in Hvisit.
    destruct (visit wlan w) as [[[]|e] w1]; [|reflexivity].
    simpl in Hvisit. apply IH. lia.
Qed.

(** With the fuel [updateloop_pass] gives it, the loop is the loop with
    any larger fuel. *)
Lemma scan_updates_fuel_irrelevant extra w :
  scan_updates (length (updates (ebq w))) 0 w
  = scan_updates (length (updates (ebq w)) + extra) 0 w.
Proof.
  induction extra as [|extra IH]; [by rewrite Nat.add_0_r|].
  rewrite IH, Nat.add_succ_r. apply scan_updates_enough_fuel. lia.
Qed.
End WorkerLoop.

(** ** C9: which locks are held around host calls *)

Section Locks.
Context {num : Type} {env : Env}.
Implicit Types (w : World num) (held : list lock) (P : list lock -> Prop).
Local Abbreviation M := (M (num := num)).

Lemma held_after_app held t1 t2 :
  held_after held (t1 ++ t2) = held_after (held_after held t1) t2.
Proof.
  revert held. induction t1 as [|[c|l|l] t1 IH]; intros held; simpl; auto.
Qed.

Lemma calls_with_locks_app held t1 t2 :
  calls_with_locks held (t1 ++ t2)
  = calls_with_locks held t1 ++ calls_with_locks (held_after held t1) t2.
Proof.
  revert held. induction t1 as [|[c|l|l] t1 IH]; intros held; simpl; auto.
  by rewrite IH.
Qed.

Lemma emits_silent {A} held P (m : M A) :
  (forall w, trace (snd (m w)) = trace w) -> emits held P m.
Proof.
  intros Hm w. exists []. rewrite app_nil_r. by repeat split.
Qed.

Lemma emits_ret {A} held P (a : A) : emits held P (ret a : M A).
Proof. by apply emits_silent. Qed.

Lemma emits_raise {A} held P e : emits held P (raise e : M A).
Proof. by apply emits_silent. Qed.

Lemma emits_gets {A} held P (f : World num -> A) : emits held P (gets f).
Proof. by apply emits_silent. Qed.

Lemma emits_get_net held P r : emits held P (get_net (num := num) r).
Proof.
  apply emits_silent. intros w. unfold get_net. by destruct (nets w !! r).
Qed.

Lemma emits_update_ebq held P f : emits held P (update_ebq (num := num) f).
Proof. by apply emits_silent. Qed.

Lemma emits_bind {A B} held P (m : M A) (k : A -> M B) :
  emits held P m -> (forall a, emits held P (k a)) -> emits held P (bind m k).
Proof.
  intros Hm Hk w. unfold bind.
  destruct (Hm w) as (e1 & Ht1 & Hh1 & Hc1).
  destruct (m w) as [[a|e] w1]; simpl in *; [|by exists e1].
  destruct (Hk a w1) as (e2 & Ht2 & Hh2 & Hc2).
  exists (e1 ++ e2). rewrite Ht2, Ht1, app_assoc. split; [done|].
  rewrite held_after_app, calls_with_locks_app, Hh1. split; [done|].
  by apply Forall_app.
Qed.

Lemma emits_try_except {A} held P (m : M A) handled h :
  emits held P m -> (forall e, emits held P (h e)) ->
  emits held P (try_except m handled h).
Proof.
  intros Hm Hh w. unfold try_except.
  destruct (Hm w) as (e1 & Ht1 & Hh1 & Hc1).
  destruct (m w) as [[a|e] w1]; simpl in *; [by exists e1|].
  destruct (handled e); [|by exists e1].
  destruct (Hh e w1) as (e2 & Ht2 & Hh2 & Hc2).
  exists (e1 ++ e2). rewrite Ht2, Ht1, app_assoc. split; [done|].
  rewrite held_after_app, calls_with_locks_app, Hh1. split; [done|].
  by apply Forall_app.
Qed.

Lemma emits_for {A} held P (l : list A) (body : A -> M unit) :
  (forall x, emits held P (body x)) -> emits held P (for_ l body).
Proof.
  intros Hbody. induction l as [|x l IH]; simpl.
  - apply emits_ret.
  - apply emits_bind; [apply Hbody|by intros _].
Qed.

Lemma emits_call held P c : P held -> emits held P (call c : M unit).
Proof.
  intros HP w. exists [Call c]. unfold call.
  destruct (host_ok (trace w) c); simpl; repeat split; by constructor.
Qed.

Lemma release_head l held : release l (l :: held) = held.
Proof. simpl. by rewrite decide_True. Qed.

Lemma emits_with_lock {A} held P l (m : M A) :
  emits (l :: held) P m -> emits held P (with_lock l m).
Proof.
  intros Hm w. unfold with_lock, finally, bind, emit, modify. simpl.
  destruct (Hm (with_trace (fun t => t ++ [Acquire l]) w))
    as (e1 & Ht1 & Hh1 & Hc1).
  destruct (m _) as [r w1]; simpl in *.
  exists (Acquire l :: e1 ++ [Release l]). split.
  { rewrite Ht1. by rewrite <- !app_assoc. }
  cbn [held_after calls_with_locks].
  rewrite held_after_app, calls_with_locks_app, Hh1.
  cbn [held_after calls_with_locks].
  rewrite release_head, app_nil_r. by split.
Qed.

Lemma emits_update_net held P r f : emits held P (update_net (num := num) r f).
Proof.
  apply emits_silent. intros w. unfold update_net, bind, get_net.
  by destruct (nets w !! r).
Qed.

Lemma emits_get_session held P r : emits held P (get_session (num := num) r).
Proof.
  apply emits_silent. intros w. unfold get_session, bind, get_net.
  destruct (nets w !! r) as [n|]; [|done]. by destruct (session n).
Qed.

Lemma emits_finally {A} held P (m : M A) f :
  emits held P m -> emits held P f -> emits held P (finally m f).
Proof.
  intros Hm Hf w. unfold finally.
  destruct (Hm w) as (e1 & Ht1 & Hh1 & Hc1).
  destruct (m w) as [r w1]; simpl in *.
  destruct (Hf w1) as (e2 & Ht2 & Hh2 & Hc2).
  exists (e1 ++ e2). split.
  { destruct (f w1) as [[[]|e] w2]; simpl in *; by rewrite Ht2, Ht1, app_assoc. }
  rewrite held_after_app, calls_with_locks_app, Hh1. split; [done|].
  by apply Forall_app.
Qed.

(** Steps through a computation made of the operations above. *)
Ltac locks :=
  repeat first
    [ apply emits_ret | apply emits_raise | apply emits_gets
    | apply emits_get_net | apply emits_get_session
    | apply emits_update_ebq | apply emits_update_net
    | apply emits_call; auto; fail
    | match goal with
      | |- emits _ _ (bind _ _) => apply emits_bind; [|intros ?]
      | |- emits _ _ (with_lock _ _) => apply emits_with_lock
      | |- emits _ _ (try_except _ _ _) => apply emits_try_except; [|intros ?]
      | |- emits _ _ (for_ _ _) => apply emits_for; intros ?
      | |- emits _ _ (if ?c then _ else _) => destruct c
      | |- emits _ _ (match ?o with _ => _ end) => destruct o
      | |- emits _ _ (let '(_, _) := ?x in _) => destruct x
      end ].

Lemma emits_host_cmd held P self args :
  P held -> emits held P (host_cmd (num := num) self args).
Proof. intros HP. unfold host_cmd. locks. Qed.

Lemma emits_updated held P wlan : emits held P (updated (num := num) wlan).
Proof. unfold updated. locks. Qed.

Lemma emits_lastupdate held P wlan : emits held P (lastupdate (num := num) wlan).
Proof. unfold lastupdate. locks. Qed.

Lemma emits_buildcmds held P wlan : emits held P (buildcmds (num := num) wlan).
Proof. unfold buildcmds, cmds_extend. locks. Qed.

Lemma emits_ebcommit held P wlan : P held -> emits held P (ebcommit (num := num) wlan).
Proof.
  intros HP. unfold ebcommit. locks; by apply emits_host_cmd.
Qed.

Lemma emits_visit held P wlan : P held -> emits held P (visit (num := num) wlan).
Proof.
  intros HP. unfold visit. locks;
    first [apply emits_updated | apply emits_lastupdate
          | apply emits_buildcmds | by apply emits_ebcommit].
Qed.

Lemma emits_scan_updates held P fuel :
  P held -> forall i, emits held P (scan_updates (num := num) fuel i).
Proof.
  intros HP. induction fuel as [|fuel IH]; intros i; simpl; locks.
  - by apply emits_visit.
  - apply IH.
Qed.

Lemma emits_ebchange held P wlan : emits held P (ebchange (num := num) wlan).
Proof. unfold ebchange. locks. Qed.

Lemma emits_linked held P self a b : emits held P (linked (num := num) self a b).
Proof. unfold linked, subscript. locks. Qed.

Lemma emits_link held P self a b : emits held P (link (num := num) self a b).
Proof.
  unfold link, store_linked, subscript. locks;
    first [apply emits_linked | apply emits_ebchange].
Qed.

Lemma emits_unlink held P self a b : emits held P (unlink (num := num) self a b).
Proof.
  unfold unlink, store_linked, subscript. locks;
    first [apply emits_linked | apply emits_ebchange].
Qed.

Lemma emits_stopupdateloop held P wlan :
  emits held P (stopupdateloop (num := num) wlan).
Proof. unfold stopupdateloop. locks. Qed.

Lemma emits_startupdateloop held P wlan :
  emits held P (startupdateloop (num := num) wlan).
Proof. unfold startupdateloop. locks. Qed.

Lemma emits_shutdown self :
  emits [] (fun h => h = [] \/ h = [ebtables_lock]) (shutdown (num := num) self).
Proof.
  unfold shutdown, ebtablescmds, netif_shutdown, del_session. locks;
    first [apply emits_stopupdateloop | apply emits_host_cmd; auto].
Qed.

Lemma emits_updateloop_pass :
  emits [] (eq [updatelock]) (updateloop_pass (num := num)).
Proof.
  unfold updateloop_pass. locks.
  - by apply emits_scan_updates.
  - by apply emits_silent.
Qed.

Lemma emits_weaken {A} held P (Q : list lock -> Prop) (m : M A) :
  (forall h, P h -> Q h) -> emits held P m -> emits held Q m.
Proof.
  intros HPQ Hm w. destruct (Hm w) as (evs & Ht & Hh & Hc).
  exists evs. repeat split; try done.
  eapply Forall_impl; [exact Hc|]. intros x. apply HPQ.
Qed.

(** C9, as the code has it.  The worker takes the queue's state mutex for
    its whole pass, so every host call of the pass (the commands of the
    atomic commit) is made with that mutex held; no adjacency lock is held
    at them.  Outside the pass the state mutex is never held at a host
    call: [shutdown] makes its host calls with no lock held or, for the
    chain removal, with the process-wide ebtables mutex and nothing else
    held, and marking dirty, registering, unregistering, [buildcmds],
    [link] and [unlink] make no host call at all.  Each of them ends with
    the locks held that were held before. *)
Theorem state_mutex_held_only_by_worker_pass :
  emits []
    (fun h => updatelock ∈ h /\ forall n, linked_lock n ∉ h)
    (updateloop_pass (num := num)) /\
  (forall self,
     emits [] (fun h => h = [] \/ h = [ebtables_lock])
       (shutdown (num := num) self)) /\
  (forall wlan,
     emits [] (fun _ => False) (ebchange (num := num) wlan) /\
     emits [] (fun _ => False) (startupdateloop (num := num) wlan) /\
     emits [] (fun _ => False) (stopupdateloop (num := num) wlan) /\
     emits [] (fun _ => False) (buildcmds (num := num) wlan)) /\
  (forall self a b,
     emits [] (fun _ => False) (link (num := num) self a b) /\
     emits [] (fun _ => False) (unlink (num := num) self a b)).
Proof.
  split.
  { eapply emits_weaken; [|apply emits_updateloop_pass].
    intros h <-. split; [apply list_elem_of_here|].
    intros n Hin. apply list_elem_of_singleton in Hin. discriminate. }
  split; [apply emits_shutdown|].
  split.
  - intros wlan. repeat split.
    + apply emits_ebchange.
    + apply emits_startupdateloop.
    + apply emits_stopupdateloop.
    + apply emits_buildcmds.
  - intros self a b. split; [apply emits_link|apply emits_unlink].
Qed.
End Locks.

(** The claim as the specification words it fails: in a pass of the worker
    over the dirty sample network, every command of the atomic commit is
    issued while the queue's state mutex is held. *)
Lemma state_mutex_held_across_commit :
  calls_with_locks []
    (trace (snd (updateloop_pass (env := sample_env) dirty_world)))
  = [ (Shell "/sbin/ebtables --atomic-file /tmp/pycore.ebtables.atomic --atomic-save",
       [updatelock]);
      (Remote "/sbin/ebtables --atomic-file /tmp/pycore.ebtables.atomic --atomic-save",
       [updatelock]);
      (Shell "/sbin/ebtables --atomic-file /tmp/pycore.ebtables.atomic -N b.5.1 -P DROP",
       [updatelock]);
      (Remote "/sbin/ebtables --atomic-file /tmp/pycore.ebtables.atomic -N b.5.1 -P DROP",
       [updatelock]);
      (Shell "/sbin/ebtables --atomic-file /tmp/pycore.ebtables.atomic -A FORWARD --logical-in b.5.1 -j b.5.1",
       [updatelock]);
      (Remote "/sbin/ebtables --atomic-file /tmp/pycore.ebtables.atomic -A FORWARD --logical-in b.5.1 -j b.5.1",
       [updatelock]);
      (Shell "/sbin/ebtables --atomic-file /tmp/pycore.ebtables.atomic --atomic-commit",
       [updatelock]);
      (Remote "/sbin/ebtables --atomic-file /tmp/pycore.ebtables.atomic --atomic-commit",
       [updatelock]);
      (Shell "rm -f /tmp/pycore.ebtables.atomic", [updatelock]);
      (Remote "rm -f /tmp/pycore.ebtables.atomic", [updatelock]) ].
Proof. vm_compute. reflexivity. Qed.

(** * Further properties *)

(** ** The dirty list *)

Section DirtyList.
Context {num : Type} {env : Env}.
Implicit Types (w : World num) (P : list nat -> Prop).
Local Abbreviation M := (M (num := num)).

Lemma mark_dirty_updates self q :
  updates (mark_dirty self q)
  = if bool_decide (self ∈ updates q) then updates q else updates q ++ [self].
Proof. unfold mark_dirty. by destruct (bool_decide _). Qed.

Lemma mark_dirty_twice self q :
  mark_dirty self (mark_dirty self q) = mark_dirty self q.
Proof.
  unfold mark_dirty at 1. rewrite mark_dirty_updates.
  destruct (bool_decide (self ∈ updates q)) eqn:Hin.
  - by rewrite Hin.
  - rewrite bool_decide_eq_true_2; [done|].
    apply elem_of_app. right. apply list_elem_of_here.
Qed.

(** X1.  [ebchange] always returns; afterwards the network is on the dirty
    list, at its old place when it was there and at the end otherwise; the
    other entries and their order stay; and a second [ebchange] changes
    nothing an observer can tell. *)
Theorem ebchange_marks_once wlan w :
  fst (ebchange wlan w) = Ok tt /\
  wlan ∈ updates (ebq (snd (ebchange wlan w))) /\
  updates (ebq (snd (ebchange wlan w)))
  = (if bool_decide (wlan ∈ updates (ebq w)) then updates (ebq w)
     else updates (ebq w) ++ [wlan]) /\
  cmds (ebq (snd (ebchange wlan w))) = cmds (ebq w) /\
  last_update_time (ebq (snd (ebchange wlan w))) = last_update_time (ebq w) /\
  calls_of (trace (snd (ebchange wlan w))) = calls_of (trace w) /\
  observable (snd ((ebchange wlan ;; ebchange wlan) w))
  = observable (snd (ebchange wlan w)).
Proof.
  unfold bind. rewrite !ebchange_eq. simpl. rewrite ?ebchange_eq. simpl.
  split; [done|]. rewrite mark_dirty_updates.
  split.
  { destruct (bool_decide (wlan ∈ updates (ebq w))) eqn:Hin.
    - by apply bool_decide_eq_true in Hin.
    - apply elem_of_app. right. apply list_elem_of_here. }
  split; [done|].
  split; [unfold mark_dirty; by destruct (bool_decide _)|].
  split; [unfold mark_dirty; by destruct (bool_decide _)|].
  split.
  { rewrite calls_of_app. simpl. by rewrite app_nil_r. }
  unfold observable; simpl.
  rewrite mark_dirty_twice, !calls_of_app. simpl. by rewrite !app_nil_r.
Qed.
End DirtyList.

(** ** What the operations keep of the dirty list *)

Section DirtyInvariant.
Context {num : Type} {env : Env}.
Variable P : list nat -> Prop.
Hypothesis P_remove : forall x l, P l -> P (list_remove x l).
Hypothesis P_snoc : forall x l, P l -> x ∉ l -> P (l ++ [x]).
Local Abbreviation M := (M (num := num)).
Local Abbreviation I := (on_dirty (num := num) P).

Lemma on_dirty_ignores_trace : ignores_trace I.
Proof. by intros f w Hw. Qed.

Lemma on_dirty_update_ebq f :
  (forall q, updates (f q) = updates q) -> preserves I (update_ebq f).
Proof. intros Hf w Hw. unfold on_dirty in *. simpl. by rewrite Hf. Qed.

Lemma on_dirty_update_net r f : preserves I (update_net r f).
Proof.
  intros w Hw. unfold update_net, bind, get_net. by destruct (nets w !! r).
Qed.

Lemma on_dirty_call c : preserves I (call c).
Proof. apply preserves_call, on_dirty_ignores_trace. Qed.

Lemma on_dirty_host_cmd self args : preserves I (host_cmd self args).
Proof. apply preserves_host_cmd, on_dirty_ignores_trace. Qed.

Lemma on_dirty_with_lock {A} l (m : M A) :
  preserves I m -> preserves I (with_lock l m).
Proof. apply preserves_with_lock, on_dirty_ignores_trace. Qed.

Lemma on_dirty_ebchange wlan : preserves I (ebchange wlan).
Proof.
  intros w Hw. rewrite ebchange_eq. unfold on_dirty in *. simpl.
  unfold mark_dirty. case_bool_decide; [done|]. by apply P_snoc.
Qed.

Lemma on_dirty_updated wlan : preserves I (updated wlan).
Proof.
  unfold updated.
  apply preserves_bind; [apply preserves_gets|intros now].
  apply preserves_bind; [by apply on_dirty_update_ebq|intros _].
  apply preserves_bind; [apply preserves_gets|intros q].
  case_bool_decide; [|apply preserves_raise].
  intros w Hw. unfold on_dirty in *. simpl. by apply P_remove.
Qed.

Lemma on_dirty_lastupdate wlan : preserves I (lastupdate wlan).
Proof.
  unfold lastupdate.
  apply preserves_bind; [apply preserves_gets|intros now].
  apply preserves_bind; [apply preserves_gets|intros q].
  destruct (last_update_time q !! wlan); [apply preserves_ret|].
  apply preserves_bind; [apply preserves_gets|intros now'].
  apply preserves_bind; [by apply on_dirty_update_ebq|intros _].
  apply preserves_ret.
Qed.

Lemma on_dirty_buildcmds wlan : preserves I (buildcmds wlan).
Proof.
  unfold buildcmds, cmds_extend.
  apply on_dirty_with_lock.
  apply preserves_bind; [apply preserves_get_net|intros n].
  apply preserves_bind.
  { destruct (has_ebtables_chain n); [by apply on_dirty_update_ebq|].
    apply preserves_bind; [apply on_dirty_update_net|intros _].
    by apply on_dirty_update_ebq. }
  intros _. apply preserves_for. intros [netif1 v].
  apply preserves_for. intros [netif2 l].
  destruct (bool_decide (policy n = DROP) && l);
    [by apply on_dirty_update_ebq|].
  destruct (bool_decide (policy n = ACCEPT) && negb l);
    [by apply on_dirty_update_ebq|apply preserves_ret].
Qed.

Lemma on_dirty_ebcommit wlan : preserves I (ebcommit wlan).
Proof.
  unfold ebcommit.
  apply preserves_bind; [apply on_dirty_host_cmd|intros _].
  apply preserves_bind; [apply preserves_gets|intros q].
  apply preserves_bind.
  { apply preserves_for. intros c. apply on_dirty_host_cmd. }
  intros _. apply preserves_bind; [by apply on_dirty_update_ebq|intros _].
  apply preserves_bind; [apply on_dirty_host_cmd|intros _].
  apply preserves_try_except; [apply on_dirty_host_cmd|].
  intros _. apply preserves_ret.
Qed.

Lemma on_dirty_visit wlan : preserves I (visit wlan).
Proof.
  unfold visit. apply preserves_bind.
  { apply preserves_try_except; [|intros _; apply preserves_ret].
    apply preserves_bind; [apply preserves_get_session|].
    intros _. apply preserves_ret. }
  intros [|]; [apply on_dirty_updated|].
  apply preserves_bind; [apply on_dirty_lastupdate|intros elapsed].
  destruct (rate <? elapsed); [|apply preserves_ret].
  apply preserves_bind; [apply on_dirty_buildcmds|intros _].
  apply preserves_bind; [apply on_dirty_ebcommit|intros _].
  apply on_dirty_updated.
Qed.

Lemma on_dirty_scan_updates fuel : forall i, preserves I (scan_updates fuel i).
Proof.
  induction fuel as [|fuel IH]; intros i; simpl; [apply preserves_ret|].
  apply preserves_bind; [apply preserves_gets|intros q].
  destruct (updates q !! i); [|apply preserves_ret].
  apply preserves_bind; [apply on_dirty_visit|intros _]. apply IH.
Qed.

Lemma on_dirty_updateloop_pass : preserves I updateloop_pass.
Proof.
  unfold updateloop_pass.
  apply preserves_bind; [|intros _; by apply preserves_modify].
  apply on_dirty_with_lock.
  apply preserves_bind; [apply preserves_gets|intros q].
  apply on_dirty_scan_updates.
Qed.

Lemma on_dirty_linked self a b : preserves I (linked self a b).
Proof.
  unfold linked, subscript.
  repeat first
    [ apply preserves_ret | apply preserves_raise | apply preserves_get_net
    | apply preserves_get_if | apply on_dirty_update_net
    | match goal with
      | |- preserves _ (bind _ _) => apply preserves_bind; [|intros ?]
      | |- preserves _ (try_except _ _ _) =>
          apply preserves_try_except; [|intros ?]
      | |- preserves _ (if ?c then _ else _) => destruct c
      | |- preserves _ (match ?o with _ => _ end) => destruct o
      end ].
Qed.

Lemma on_dirty_relink t self a b : preserves I (relink t self a b).
Proof.
  unfold relink.
  apply preserves_bind.
  { apply on_dirty_with_lock.
    apply preserves_bind; [apply on_dirty_linked|intros l].
    destruct (eqb l t); [apply preserves_ret|].
    apply preserves_bind; [|intros _; apply preserves_ret].
    unfold store_linked, subscript.
    apply preserves_bind; [apply preserves_get_net|intros n].
    apply preserves_bind;
      [destruct (dict_get a (_linked n)); [apply preserves_ret|apply preserves_raise]|].
    intros r. apply on_dirty_update_net. }
  intros [|]; [apply preserves_ret|apply on_dirty_ebchange].
Qed.

Lemma on_dirty_startupdateloop wlan : preserves I (startupdateloop wlan).
Proof.
  unfold startupdateloop.
  apply preserves_bind.
  { apply on_dirty_with_lock.
    apply preserves_bind; [apply preserves_gets|intros now].
    by apply on_dirty_update_ebq. }
  intros _. apply preserves_bind; [apply preserves_gets|intros q].
  destruct (doupdateloop q); [apply preserves_ret|].
  apply preserves_bind; [by apply on_dirty_update_ebq|intros _].
  by apply on_dirty_update_ebq.
Qed.

Lemma on_dirty_stopupdateloop wlan : preserves I (stopupdateloop wlan).
Proof.
  unfold stopupdateloop.
  apply preserves_bind.
  { apply on_dirty_with_lock. by apply on_dirty_update_ebq. }
  intros _. apply preserves_bind; [apply preserves_gets|intros q].
  case_bool_decide; [apply preserves_ret|].
  apply preserves_bind; [by apply on_dirty_update_ebq|intros _].
  apply preserves_bind; [apply preserves_gets|intros q'].
  destruct (updatethread q'); [by apply on_dirty_update_ebq|apply preserves_ret].
Qed.

Lemma on_dirty_shutdown self : preserves I (shutdown self).
Proof.
  pose proof on_dirty_ignores_trace as HT.
  unfold shutdown.
  apply preserves_bind; [apply preserves_get_net|intros n].
  destruct (negb (up n)); [apply preserves_ret|].
  apply preserves_bind; [apply on_dirty_stopupdateloop|intros _].
  apply preserves_bind; [by apply preserves_remove_chain|intros _].
  apply preserves_bind; [apply preserves_get_net|intros n'].
  apply preserves_bind.
  { apply preserves_for. intros x. by apply preserves_netif_shutdown. }
  intros _. apply preserves_bind; [apply on_dirty_update_net|intros _].
  apply preserves_bind; [apply on_dirty_update_net|intros _].
  apply preserves_bind; [|intros _; apply on_dirty_update_net].
  unfold del_session.
  apply preserves_bind; [apply preserves_get_session|intros _].
  apply on_dirty_update_net.
Qed.
End DirtyInvariant.

Section DirtyNoDup.
Context {num : Type} {env : Env}.
Local Abbreviation M := (M (num := num)).

Lemma list_remove_elem_of x y l : y ∈ list_remove x l -> y ∈ l.
Proof.
  induction l as [|z l IH]; simpl; [done|].
  destruct (decide (x = z)).
  - intros Hy. by apply elem_of_cons; right.
  - intros [->|Hy]%elem_of_cons; [apply list_elem_of_here|].
    apply elem_of_cons; right. by apply IH.
Qed.

Lemma list_remove_NoDup x l : NoDup l -> NoDup (list_remove x l).
Proof.
  induction 1 as [|z l Hz Hl IH]; simpl; [constructor|].
  destruct (decide (x = z)); [done|].
  constructor; [|done]. intros Hin. by apply Hz, (list_remove_elem_of x).
Qed.

Lemma snoc_NoDup (x : nat) l : NoDup l -> x ∉ l -> NoDup (l ++ [x]).
Proof.
  intros Hl Hx. apply NoDup_app. split; [done|]. split; [|apply NoDup_singleton].
  intros y Hy ->%list_elem_of_singleton. done.
Qed.

(** X2.  The dirty list never names a network twice: when it has no repeated
    entry, it has none after [ebchange], [updated], [link], [unlink], a
    pass of the worker, registering or unregistering a network, or
    [shutdown], whether these return or raise. *)
Theorem dirty_list_without_repeats :
  (forall wlan, preserves (on_dirty (num := num) NoDup) (ebchange wlan)) /\
  (forall wlan, preserves (on_dirty (num := num) NoDup) (updated wlan)) /\
  (forall self a b,
     preserves (on_dirty (num := num) NoDup) (link self a b) /\
     preserves (on_dirty (num := num) NoDup) (unlink self a b)) /\
  preserves (on_dirty (num := num) NoDup) updateloop_pass /\
  (forall wlan,
     preserves (on_dirty (num := num) NoDup) (startupdateloop wlan) /\
     preserves (on_dirty (num := num) NoDup) (stopupdateloop wlan)) /\
  (forall self, preserves (on_dirty (num := num) NoDup) (shutdown self)).
Proof.
  pose proof list_remove_NoDup as Hrem.
  pose proof snoc_NoDup as Hsnoc.
  split; [intros wlan; by apply on_dirty_ebchange|].
  split; [intros wlan; by apply on_dirty_updated|].
  split.
  { intros self a b. split; intros w Hw.
    - rewrite link_relink. by apply on_dirty_relink.
    - rewrite unlink_relink. by apply on_dirty_relink. }
  split; [by apply on_dirty_updateloop_pass|].
  split; [intros wlan; split;
          [by apply on_dirty_startupdateloop|by apply on_dirty_stopupdateloop]|].
  intros self. by apply on_dirty_shutdown.
Qed.
End DirtyNoDup.

(** ** The worker's pass over networks it does not commit *)

Section PassWithoutCommit.
Context {num : Type} {env : Env}.
Implicit Types (w : World num).
Local Abbreviation M := (M (num := num)).

Lemma updated_eq wlan w :
  wlan ∈ updates (ebq w) ->
  updated wlan w = (Ok tt, with_ebq (mark_updated wlan (clock w)) w).
Proof.
  intros Hin. unfold updated, bind, gets, update_ebq, modify. simpl.
  rewrite bool_decide_eq_true_2 by done. reflexivity.
Qed.

Lemma session_raises_ext wlan w w' :
  nets w' = nets w -> session_raises wlan w' = session_raises wlan w.
Proof.
  intros Hn. unfold session_raises, get_session, bind, get_net. rewrite Hn.
  destruct (nets w !! wlan) as [n|]; [|done]. by destruct (session n).
Qed.

Lemma list_remove_middle x (pre rest : list nat) :
  x ∉ pre -> list_remove x (pre ++ x :: rest) = pre ++ rest.
Proof.
  induction pre as [|y pre IH]; simpl; intros Hx.
  - by rewrite decide_True.
  - rewrite decide_False by (intros ->; apply Hx, list_elem_of_here).
    rewrite IH; [done|]. intros Hin. apply Hx. by apply elem_of_cons; right.
Qed.

Lemma lookup_app_length {A} (pre rest : list A) :
  (pre ++ rest) !! length pre = head rest.
Proof.
  rewrite lookup_app_r by lia. rewrite Nat.sub_diag. by destruct rest.
Qed.

(** The loop over a dirty list of stale networks, from index
    [length pre] on: each visit takes the current entry out, and the
    index moves past the entry that took its place. *)
Lemma scan_updates_stale fuel :
  forall pre rest w,
    updates (ebq w) = pre ++ rest -> (length rest <= fuel)%nat ->
    NoDup (pre ++ rest) ->
    (forall x, x ∈ rest -> session_raises x w = true) ->
    exists w', scan_updates fuel (length pre) w = (Ok tt, w') /\
      updates (ebq w') = pre ++ every_second rest /\
      cmds (ebq w') = cmds (ebq w) /\ nets w' = nets w /\
      ifaces w' = ifaces w /\ trace w' = trace w /\ clock w' = clock w.
Proof.
  induction fuel as [|fuel IH]; intros pre rest w Hupd Hlen Hnd Hstale.
  { destruct rest; [|simpl in Hlen; lia]. exists w. by rewrite Hupd. }
  simpl. unfold bind at 1, gets. rewrite Hupd, lookup_app_length.
  destruct rest as [|x rest]; simpl.
  { exists w. by rewrite Hupd. }
  assert (Hx : x ∉ pre).
  { apply NoDup_app in Hnd as (_ & Hdis & _). intros Hin.
    apply (Hdis x Hin), list_elem_of_here. }
  unfold bind. rewrite visit_eq, Hstale by apply list_elem_of_here.
  rewrite updated_eq by (rewrite Hupd; apply elem_of_app; right; apply list_elem_of_here).
  set (w1 := with_ebq (mark_updated x (clock w)) w).
  assert (Hupd1 : updates (ebq w1) = pre ++ rest).
  { simpl. rewrite Hupd. by apply list_remove_middle. }
  destruct rest as [|y rest].
  { exists w1. split.
    - destruct fuel; [done|]. simpl. unfold bind, gets.
      rewrite Hupd1, lookup_ge_None_2 by (rewrite length_app; simpl; lia).
      done.
    - by rewrite Hupd1. }
  destruct (IH (pre ++ [y]) rest w1) as (w' & Hrun & Hu & Hc & Hn & Hi & Ht & Hk).
  - by rewrite Hupd1, <- app_assoc.
  - simpl in Hlen. lia.
  - rewrite <- app_assoc. simpl.
    apply NoDup_app in Hnd as (Hpre & Hdis & Hrest).
    apply NoDup_cons in Hrest as [_ Hrest].
    apply NoDup_app. split; [done|]. split; [|done].
    intros z Hz Hin. apply (Hdis z Hz). by apply elem_of_cons; right.
  - intros z Hz. rewrite (session_raises_ext z w w1) by done.
    apply Hstale. by do 2 (apply elem_of_cons; right).
  - exists w'. rewrite length_app, Nat.add_1_r in Hrun.
    split; [exact Hrun|]. rewrite Hu, <- app_assoc.
    by repeat split.
Qed.

(** X3.  A pass of the worker over a dirty list of networks whose sessions are
    gone (the list without repeated entry) returns without a host call
    and takes the first, third, fifth, ... entry off the list: taking the
    current entry out moves the next one under the loop's index, which
    then steps past it.  Every second entry is still on the list after
    the pass. *)
Theorem stale_pass_drops_every_other_entry w :
  NoDup (updates (ebq w)) ->
  (forall x, x ∈ updates (ebq w) -> session_raises x w = true) ->
  exists w', updateloop_pass w = (Ok tt, w') /\
    updates (ebq w') = every_second (updates (ebq w)) /\
    cmds (ebq w') = cmds (ebq w) /\ nets w' = nets w /\
    calls_of (trace w') = calls_of (trace w) /\
    clock w' = clock w + rate.
Proof.
  intros Hnd Hstale.
  destruct (scan_updates_stale (length (updates (ebq w))) [] (updates (ebq w))
              (add_events [Acquire updatelock] w))
    as (w1 & Hrun & Hu & Hc & Hn & Hi & Ht & Hk); try done.
  { intros x Hx. rewrite (session_raises_ext x w) by done. by apply Hstale. }
  unfold updateloop_pass, with_lock, finally.
  unfold bind at 1, bind at 1, emit at 1, modify at 1.
  unfold bind at 1, gets at 1.
  change (with_trace (fun t => t ++ [Acquire updatelock]) w)
    with (add_events [Acquire updatelock] w).
  change (updates (ebq (add_events [Acquire updatelock] w)))
    with (updates (ebq w)).
  simpl in Hrun. rewrite Hrun. simpl.
  eexists. split; [reflexivity|]. simpl.
  rewrite Hu, Hc, Hn, Hk, Ht. simpl.
  repeat split; try done.
  rewrite !calls_of_app. simpl. by rewrite !app_nil_r.
Qed.

(** The visit of a network with its session that is not due: the only
    thing [lastupdate] may do is register the network. *)
Lemma visit_not_due wlan w :
  session_raises wlan w = false -> not_due wlan w ->
  visit wlan w
  = (Ok tt,
     match last_update_time (ebq w) !! wlan with
     | Some _ => w
     | None => with_ebq (fun q => set_last_update_time
                           (<[wlan := clock w]> (last_update_time q)) q) w
     end).
Proof.
  intros Hlive Hdue. rewrite visit_eq, Hlive.
  unfold rebuild_if_due, lastupdate, bind, gets, not_due in *.
  destruct (last_update_time (ebq w) !! wlan) as [t|] eqn:Ht.
  - unfold ret. by rewrite (proj2 (Z.ltb_ge _ _)) by lia.
  - reflexivity.
Qed.

(** The loop over a dirty list of networks that are not due, from index
    [i] on: the list stays, and every network from there on that had no
    timestamp gets the current time as its timestamp. *)
Lemma scan_updates_not_due fuel :
  forall i w,
    (length (updates (ebq w)) - i <= fuel)%nat ->
    (forall x, x ∈ updates (ebq w) -> session_raises x w = false /\ not_due x w) ->
    exists w', scan_updates fuel i w = (Ok tt, w') /\
      updates (ebq w') = updates (ebq w) /\ cmds (ebq w') = cmds (ebq w) /\
      doupdateloop (ebq w') = doupdateloop (ebq w) /\
      updatethread (ebq w') = updatethread (ebq w) /\
      (forall x, last_update_time (ebq w') !! x
                 = match last_update_time (ebq w) !! x with
                   | Some t => Some t
                   | None => if bool_decide (x ∈ drop i (updates (ebq w)))
                             then Some (clock w) else None
                   end) /\
      nets w' = nets w /\ ifaces w' = ifaces w /\ trace w' = trace w /\
      clock w' = clock w.
Proof.
  induction fuel as [|fuel IH]; intros i w Hlen Hall.
  { exists w. repeat split; try done. intros x.
    rewrite drop_ge by lia.
    rewrite bool_decide_eq_false_2 by apply not_elem_of_nil.
    by destruct (last_update_time (ebq w) !! x). }
  simpl. unfold bind at 1, gets.
  destruct (updates (ebq w) !! i) as [wlan|] eqn:Hi.
  2:{ exists w. repeat split; try done. intros x.
      rewrite drop_ge by (by apply lookup_ge_None).
      rewrite bool_decide_eq_false_2 by apply not_elem_of_nil.
      by destruct (last_update_time (ebq w) !! x). }
  assert (Hdrop : drop i (updates (ebq w))
                  = wlan :: drop (S i) (updates (ebq w))).
  { by apply drop_S. }
  pose proof (list_elem_of_lookup_2 _ _ _ Hi) as Hin.
  destruct (Hall wlan Hin) as [Hlive Hdue].
  unfold bind. rewrite (visit_not_due wlan w Hlive Hdue).
  set (w1 := match last_update_time (ebq w) !! wlan with
             | Some _ => w
             | None => with_ebq (fun q => set_last_update_time
                                   (<[wlan := clock w]> (last_update_time q)) q) w
             end).
  assert (Hw1 : updates (ebq w1) = updates (ebq w) /\
                cmds (ebq w1) = cmds (ebq w) /\
                doupdateloop (ebq w1) = doupdateloop (ebq w) /\
                updatethread (ebq w1) = updatethread (ebq w) /\
                nets w1 = nets w /\ ifaces w1 = ifaces w /\
                trace w1 = trace w /\ clock w1 = clock w).
  { subst w1. by destruct (last_update_time (ebq w) !! wlan). }
  destruct Hw1 as (Hu & Hc & Hl & Ht & Hn & Hf & Htr & Hk).
  assert (Hstamp : forall x, last_update_time (ebq w1) !! x
                   = match last_update_time (ebq w) !! x with
                     | Some t => Some t
                     | None => if decide (x = wlan) then Some (clock w) else None
                     end).
  { intros x. subst w1.
    destruct (last_update_time (ebq w) !! wlan) as [t|] eqn:Hw.
    - destruct (last_update_time (ebq w) !! x) as [t'|] eqn:Hx; [done|].
      by rewrite decide_False by (intros ->; congruence).
    - simpl. destruct (decide (x = wlan)) as [->|Hne].
      + by rewrite lookup_insert_eq, Hw.
      + rewrite lookup_insert_ne by done.
        by destruct (last_update_time (ebq w) !! x). }
  destruct (IH (S i) w1)
    as (w' & Hrun & Hu' & Hc' & Hl' & Ht' & Hs' & Hn' & Hf' & Htr' & Hk').
  { rewrite Hu. lia. }
  { intros x Hx. rewrite Hu in Hx. destruct (Hall x Hx) as [Hlx Hdx].
    split; [by rewrite (session_raises_ext x w)|].
    unfold not_due in *. rewrite Hstamp, Hk.
    destruct (last_update_time (ebq w) !! x) as [t|]; [done|].
    case_decide; [|done]. unfold rate. lia. }
  exists w'. split; [exact Hrun|].
  rewrite Hu', Hc', Hl', Ht', Hn', Hf', Htr', Hk'.
  repeat split; try done.
  intros x. rewrite Hs', Hstamp, Hu, Hk, Hdrop.
  destruct (last_update_time (ebq w) !! x) as [t|]; [done|].
  destruct (decide (x = wlan)) as [->|Hne].
  - by rewrite bool_decide_eq_true_2 by apply list_elem_of_here.
  - destruct (bool_decide (x ∈ drop (S i) (updates (ebq w)))) eqn:Hb.
    + apply bool_decide_eq_true in Hb.
      by rewrite bool_decide_eq_true_2 by (by apply elem_of_cons; right).
    + apply bool_decide_eq_false in Hb.
      rewrite bool_decide_eq_false_2; [done|].
      intros [?|?]%elem_of_cons; done.
Qed.

(** X4.  Rate limiting.  A pass of the worker over a dirty list of networks
    with their sessions, none of them updated more than [rate] ago (or
    without a timestamp yet), returns without a host call and leaves the
    dirty list, the pending commands, the run flag, the worker thread, the
    networks and the interfaces as they were.  Every timestamp there was
    is kept; a dirty network without a timestamp gets the time of the pass
    as its timestamp, as [lastupdate] registers it, and no other network
    gets one.  So the queue is left as it was when every dirty network had
    a timestamp.  The clock moves on by a tick. *)
Theorem pass_leaves_recently_updated w :
  (forall x, x ∈ updates (ebq w) -> session_raises x w = false /\ not_due x w) ->
  exists w', updateloop_pass w = (Ok tt, w') /\
    updates (ebq w') = updates (ebq w) /\ cmds (ebq w') = cmds (ebq w) /\
    doupdateloop (ebq w') = doupdateloop (ebq w) /\
    updatethread (ebq w') = updatethread (ebq w) /\
    (forall x, last_update_time (ebq w') !! x
               = match last_update_time (ebq w) !! x with
                 | Some t => Some t
                 | None => if bool_decide (x ∈ updates (ebq w))
                           then Some (clock w) else None
                 end) /\
    ((forall x, x ∈ updates (ebq w) ->
                is_Some (last_update_time (ebq w) !! x)) ->
     ebq w' = ebq w) /\
    nets w' = nets w /\ ifaces w' = ifaces w /\
    calls_of (trace w') = calls_of (trace w) /\
    clock w' = clock w + rate.
Proof.
  intros Hall.
  destruct (scan_updates_not_due (length (updates (ebq w))) 0
              (add_events [Acquire updatelock] w))
    as (w1 & Hrun & Hu & Hc & Hl & Ht & Hs & Hn & Hf & Htr & Hk).
  { simpl. lia. }
  { intros x Hx. destruct (Hall x Hx) as [Hlx Hdx].
    split; [by rewrite (session_raises_ext x w)|exact Hdx]. }
  unfold updateloop_pass, with_lock, finally.
  unfold bind at 1, bind at 1, emit at 1, modify at 1.
  unfold bind at 1, gets at 1.
  change (with_trace (fun t => t ++ [Acquire updatelock]) w)
    with (add_events [Acquire updatelock] w).
  change (updates (ebq (add_events [Acquire updatelock] w)))
    with (updates (ebq w)).
  rewrite Hrun. simpl.
  eexists. split; [reflexivity|]. simpl.
  simpl in Hu, Hc, Hl, Ht, Hs, Hn, Hf, Htr, Hk.
  rewrite Hu, Hc, Hl, Ht, Hn, Hf, Hk, Htr.
  do 4 (split; [done|]).
  split; [exact Hs|].
  split.
  { intros Hreg.
    assert (Hmap : last_update_time (ebq w1) = last_update_time (ebq w)).
    { apply map_eq. intros x. rewrite Hs.
      destruct (last_update_time (ebq w) !! x) as [t|] eqn:Hx; [done|].
      case_bool_decide as Hin; [|done].
      destruct (Hreg x Hin) as [t Hsome]. congruence. }
    destruct (ebq w1), (ebq w). simpl in *. congruence. }
  do 2 (split; [done|]).
  split; [|done].
  rewrite !calls_of_app. simpl. by rewrite !app_nil_r.
Qed.

(** X5.  Taking a stale network off the dirty list registers it again:
    [updated] writes its timestamp.  So after the worker has dropped a
    network whose session is gone, the queue still counts that network,
    and unregistering any other network leaves the run flag and the
    worker thread as they were. *)
Theorem dropped_network_keeps_worker_running w wlan other :
  session_raises wlan w = true -> wlan ∈ updates (ebq w) -> other <> wlan ->
  exists w' w'',
    visit wlan w = (Ok tt, w') /\
    last_update_time (ebq w') !! wlan = Some (clock w) /\
    stopupdateloop other w' = (Ok tt, w'') /\
    last_update_time (ebq w'') !! wlan = Some (clock w) /\
    doupdateloop (ebq w'') = doupdateloop (ebq w) /\
    updatethread (ebq w'') = updatethread (ebq w).
Proof.
  intros Hstale Hin Hne. rewrite visit_eq, Hstale, updated_eq by done.
  eexists _, _. split; [reflexivity|].
  split; [simpl; apply lookup_insert_eq|].
  assert (Hsize : (0 < size (delete other (<[wlan := clock w]>
                                 (last_update_time (ebq w)))))%nat).
  { apply Nat.neq_0_lt_0. intros H0%map_size_empty_inv.
    assert (Hl : delete other (<[wlan := clock w]> (last_update_time (ebq w)))
                 !! wlan = Some (clock w)).
    { rewrite lookup_delete_ne by done. apply lookup_insert_eq. }
    rewrite H0 in Hl. by rewrite lookup_empty in Hl. }
  unfold stopupdateloop, with_lock, finally, bind, emit, update_ebq, modify,
    gets; simpl.
  rewrite bool_decide_eq_true_2 by exact Hsize.
  unfold ret. split; [reflexivity|]. simpl.
  split; [|done]. rewrite lookup_delete_ne by done. apply lookup_insert_eq.
Qed.
End PassWithoutCommit.

(** Three networks shut down and still dirty: one pass takes the first
    and the third off the list and leaves the second. *)
Lemma stale_pass_drops_every_other_entry_witness :
  exists w', updateloop_pass (env := sample_env) stale_world = (Ok tt, w') /\
    updates (ebq w') = [1%nat].
Proof.
  destruct (stale_pass_drops_every_other_entry (env := sample_env) stale_world)
    as (w' & Hrun & Hupd & _).
  - apply (bool_decide_unpack (NoDup [0%nat; 1%nat; 2%nat])). vm_compute.
    exact I.
  - intros x Hx. simpl in Hx.
    repeat (apply elem_of_cons in Hx as [->|Hx]; [reflexivity|]).
    by apply elem_of_nil in Hx.
  - exists w'. split; [exact Hrun|]. rewrite Hupd. reflexivity.
Defined.

(** The sample wireless LAN on the dirty list: updated 100 ms ago, the
    pass leaves the queue as it is; without a timestamp, the pass gives it
    the time of the pass. *)
Lemma pass_leaves_recently_updated_witness :
  (exists w', updateloop_pass (env := sample_env) recent_world = (Ok tt, w') /\
     ebq w' = ebq recent_world /\ calls_of (trace w') = []) /\
  (exists w', updateloop_pass (env := sample_env) unstamped_world = (Ok tt, w') /\
     updates (ebq w') = [0%nat] /\
     last_update_time (ebq unstamped_world) !! 0%nat = None /\
     last_update_time (ebq w') !! 0%nat = Some 1000).
Proof.
  split.
  - destruct (pass_leaves_recently_updated (env := sample_env) recent_world)
      as (w' & Hrun & _ & _ & _ & _ & _ & Hq & _ & _ & Hcalls & _).
    + intros x Hx. simpl in Hx. apply list_elem_of_singleton in Hx as ->.
      split; [reflexivity|]. vm_compute. intros H; discriminate H.
    + exists w'. split; [exact Hrun|]. split; [|by rewrite Hcalls].
      apply Hq. intros x Hx. simpl in Hx.
      apply list_elem_of_singleton in Hx as ->. by eexists.
  - destruct (pass_leaves_recently_updated (env := sample_env) unstamped_world)
      as (w' & Hrun & Hupd & _ & _ & _ & Hstamp & _).
    + intros x Hx. simpl in Hx. apply list_elem_of_singleton in Hx as ->.
      split; [reflexivity|]. vm_compute. exact I.
    + exists w'. split; [exact Hrun|]. split; [by rewrite Hupd|].
      split; [reflexivity|]. rewrite Hstamp. reflexivity.
Defined.

(** The first of the three networks shut down is dropped by the worker;
    unregistering the second then leaves the loop switched on. *)
Lemma dropped_network_keeps_worker_running_witness :
  exists w' w'',
    visit (env := sample_env) 0%nat stale_world = (Ok tt, w') /\
    stopupdateloop 1%nat w' = (Ok tt, w'') /\
    last_update_time (ebq stale_world) = ∅ /\
    doupdateloop (ebq w'') = true.
Proof.
  destruct (dropped_network_keeps_worker_running (env := sample_env)
              stale_world 0%nat 1%nat)
    as (w' & w'' & Hvisit & _ & Hstop & _ & Hloop & _).
  - reflexivity.
  - simpl. apply list_elem_of_here.
  - discriminate.
  - exists w', w''. by rewrite Hloop.
Defined.

(** ** The atomic commit *)

Section Commit.
Context {num : Type} {env : Env}.
Implicit Types (w : World num) (n : CoreNetwork).
Local Abbreviation M := (M (num := num)).

Lemma add_events_app (l1 l2 : list event) w :
  add_events l2 (add_events l1 w) = add_events (l1 ++ l2) w.
Proof. unfold add_events, with_trace; simpl. by rewrite <- app_assoc. Qed.

Lemma add_events_nil w : add_events [] w = w.
Proof.
  destruct w. unfold add_events, with_trace; simpl. by rewrite app_nil_r.
Qed.

Lemma with_ebq_add_events f (l : list event) w :
  with_ebq f (add_events l w) = add_events l (with_ebq f w).
Proof. reflexivity. Qed.

Lemma host_cmd_eq w wlan n s args :
  nets w !! wlan = Some n -> session n = Some s ->
  host_cmd wlan args w
  = if host_ok (trace w) (Shell args) then
      (if host_ok (trace w ++ [Call (Shell args)]) (Remote args)
       then Ok tt else Raise CoreCommandError,
       add_events (host_cmd_calls args) w)
    else (Raise CoreCommandError, add_events [Call (Shell args)] w).
Proof.
  intros Hn Hs. unfold host_cmd. unfold bind at 1. rewrite call_eq.
  destruct (host_ok (trace w) (Shell args)); [|reflexivity].
  unfold bind at 1. rewrite (get_session_eq _ _ n s) by done.
  rewrite call_eq, add_events_app. reflexivity.
Qed.

Lemma host_cmd_accepted w wlan n s args :
  nets w !! wlan = Some n -> session n = Some s -> accepts [args] ->
  host_cmd wlan args w = (Ok tt, add_events (host_cmd_calls args) w).
Proof.
  intros Hn Hs Hacc. rewrite (host_cmd_eq _ _ n s) by done.
  destruct (Hacc (trace w) args) as [-> _]; [apply list_elem_of_here|].
  by destruct (Hacc (trace w ++ [Call (Shell args)]) args) as [_ ->];
    [apply list_elem_of_here|].
Qed.

Lemma accepts_cons c l : accepts (c :: l) -> accepts [c] /\ accepts l.
Proof.
  intros H. split; intros t x Hx; apply H.
  - apply list_elem_of_singleton in Hx as ->. apply list_elem_of_here.
  - by apply elem_of_cons; right.
Qed.

Lemma accepts_app l1 l2 : accepts (l1 ++ l2) -> accepts l1 /\ accepts l2.
Proof.
  intros H.
  split; intros t x Hx; apply H, elem_of_app; [by left|by right].
Qed.

Lemma for_host_cmd_accepted wlan n s (f : string -> string) l :
  forall w,
    nets w !! wlan = Some n -> session n = Some s -> accepts (map f l) ->
    for_ l (fun c => host_cmd wlan (f c)) w
    = (Ok tt, add_events (flat_map host_cmd_calls (map f l)) w).
Proof.
  induction l as [|c l IH]; intros w Hn Hs Hacc; simpl.
  - by rewrite add_events_nil.
  - simpl in Hacc. apply accepts_cons in Hacc as [Hc Hl].
    unfold bind. rewrite (host_cmd_accepted _ _ n s) by done.
    rewrite IH by done. by rewrite add_events_app.
Qed.

(** [ebcommit] on a host that accepts the save, the pending commands and
    the commit. *)
Lemma ebcommit_eq w wlan n s :
  nets w !! wlan = Some n -> session n = Some s ->
  accepts (commit_cmds (cmds (ebq w))) ->
  ebcommit wlan w
  = (Ok tt,
     add_events
       (flat_map host_cmd_calls (commit_cmds (cmds (ebq w)))
        ++ rm_events (trace w
                      ++ flat_map host_cmd_calls (commit_cmds (cmds (ebq w)))))
       (with_ebq (set_cmds []) w)).
Proof.
  intros Hn Hs Hacc. unfold commit_cmds in *.
  apply accepts_cons in Hacc as [Hsave Hacc].
  apply accepts_app in Hacc as [Hpending Hcommit].
  unfold ebcommit. unfold bind at 1.
  rewrite (host_cmd_accepted _ _ n s) by done.
  unfold bind at 1, gets at 1. unfold bind at 1.
  change (cmds (ebq (add_events (host_cmd_calls (ebatomiccmd "--atomic-save")) w)))
    with (cmds (ebq w)).
  rewrite (for_host_cmd_accepted _ n s ebatomiccmd) by done.
  rewrite add_events_app.
  unfold bind at 1, update_ebq at 1, modify at 1.
  rewrite with_ebq_add_events.
  unfold bind at 1.
  rewrite (host_cmd_accepted _ _ n s) by done.
  rewrite add_events_app.
  assert (Hseq : (host_cmd_calls (ebatomiccmd "--atomic-save")
                    ++ flat_map host_cmd_calls (map ebatomiccmd (cmds (ebq w))))
                   ++ host_cmd_calls (ebatomiccmd "--atomic-commit")
                 = flat_map host_cmd_calls
                     (ebatomiccmd "--atomic-save" :: map ebatomiccmd (cmds (ebq w))
                        ++ [ebatomiccmd "--atomic-commit"])).
  { simpl. rewrite flat_map_app. simpl. by rewrite <- ?app_assoc. }
  rewrite Hseq. clear Hseq.
  set (seq := flat_map host_cmd_calls _).
  unfold try_except. rewrite (host_cmd_eq _ _ n s) by done.
  unfold rm_events.
  change (trace (add_events seq (with_ebq (set_cmds []) w)))
    with (trace w ++ seq).
  change ("rm -f " +:+ atomic_file) with rm_atomic_file.
  destruct (host_ok (trace w ++ seq) (Shell rm_atomic_file)).
  - rewrite add_events_app.
    by destruct (host_ok _ (Remote rm_atomic_file)).
  - simpl. unfold ret. by rewrite add_events_app.
Qed.

Lemma calls_of_host_cmd_calls l :
  calls_of (flat_map host_cmd_calls l) = host_calls l.
Proof.
  induction l as [|c l IH]; [done|].
  change (flat_map host_cmd_calls (c :: l))
    with (host_cmd_calls c ++ flat_map host_cmd_calls l).
  rewrite calls_of_app, IH. reflexivity.
Qed.

Lemma string_length_app (a b : string) :
  String.length (a +:+ b) = (String.length a + String.length b)%nat.
Proof. induction a as [|c a IH]; simpl; [done|]. by rewrite IH. Qed.

Lemma ebatomiccmd_not_rm c : ebatomiccmd c <> rm_atomic_file.
Proof.
  intros Heq. apply (f_equal String.length) in Heq.
  unfold ebatomiccmd, rm_atomic_file in Heq.
  rewrite !string_length_app in Heq. simpl in Heq. lia.
Qed.

(** X6.  [ebcommit] for a network with its session, on a host that accepts
    every command but, possibly, the removal of the atomic file: the call
    returns; the host has run, each locally and then on the servers, the
    save, the pending commands against the atomic file in their order and
    the commit; the pending commands are dropped; and the removal was
    tried last, on the servers only when it went through locally, its
    failure being swallowed. *)
Theorem ebcommit_commits_and_swallows_rm_failure w wlan n s :
  nets w !! wlan = Some n -> session n = Some s ->
  (forall t c, c <> Shell rm_atomic_file -> c <> Remote rm_atomic_file ->
     host_ok t c = true) ->
  exists w' last,
    ebcommit wlan w = (Ok tt, w') /\
    cmds (ebq w') = [] /\ updates (ebq w') = updates (ebq w) /\
    nets w' = nets w /\
    calls_of (trace w')
    = calls_of (trace w) ++ host_calls (commit_cmds (cmds (ebq w))) ++ last /\
    (last = [Shell rm_atomic_file; Remote rm_atomic_file] \/
     last = [Shell rm_atomic_file] /\
     host_ok (trace w ++ flat_map host_cmd_calls (commit_cmds (cmds (ebq w))))
       (Shell rm_atomic_file) = false).
Proof.
  intros Hn Hs Hhost.
  assert (Hacc : accepts (commit_cmds (cmds (ebq w)))).
  { intros t c Hc.
    assert (Hne : c <> rm_atomic_file).
    { unfold commit_cmds in Hc.
      apply elem_of_cons in Hc as [->|Hc]; [apply ebatomiccmd_not_rm|].
      apply elem_of_app in Hc as [Hc|Hc].
      - apply list_elem_of_fmap in Hc as (x & -> & _). apply ebatomiccmd_not_rm.
      - apply list_elem_of_singleton in Hc as ->. apply ebatomiccmd_not_rm. }
    split; apply Hhost; congruence. }
  rewrite (ebcommit_eq _ _ n s) by done.
  eexists _, (calls_of (rm_events (trace w ++ flat_map host_cmd_calls
                                     (commit_cmds (cmds (ebq w)))))).
  split; [reflexivity|].
  split; [reflexivity|]. split; [reflexivity|]. split; [reflexivity|].
  split.
  { change (trace (add_events ?l ?x)) with (trace x ++ l).
    change (trace (with_ebq ?f ?x)) with (trace x).
    by rewrite !calls_of_app, calls_of_host_cmd_calls. }
  unfold rm_events. destruct (host_ok _ (Shell rm_atomic_file)); [by left|by right].
Qed.
End Commit.

(** A commit of one pending flush on the sample host. *)
Lemma ebcommit_commits_and_swallows_rm_failure_witness :
  exists w',
    ebcommit (env := sample_env) 0%nat
      (with_ebq (set_cmds ["-F b.5.1"]) world0) = (Ok tt, w') /\
    cmds (ebq w') = [] /\
    calls_of (trace w')
    = host_calls
        [ "/sbin/ebtables --atomic-file /tmp/pycore.ebtables.atomic --atomic-save";
          "/sbin/ebtables --atomic-file /tmp/pycore.ebtables.atomic -F b.5.1";
          "/sbin/ebtables --atomic-file /tmp/pycore.ebtables.atomic --atomic-commit";
          "rm -f /tmp/pycore.ebtables.atomic" ].
Proof.
  destruct (ebcommit_commits_and_swallows_rm_failure (env := sample_env)
              (with_ebq (set_cmds ["-F b.5.1"]) world0) 0%nat wlan0
              sample_session eq_refl eq_refl)
    as (w' & last & Hrun & Hcmds & _ & _ & Hcalls & [->|[_ Hno]]).
  - intros t c _ _. reflexivity.
  - exists w'. split; [exact Hrun|]. split; [exact Hcmds|].
    rewrite Hcalls. reflexivity.
  - discriminate Hno.
Defined.

(** ** The worker's pass over a network that is due *)

Section PassWithCommit.
Context {num : Type} {env : Env}.
Implicit Types (w : World num) (n : CoreNetwork).
Local Abbreviation M := (M (num := num)).

(** [buildcmds] on a network of the store, as an equation. *)
Lemma buildcmds_eq w wlan n :
  nets w !! wlan = Some n ->
  buildcmds wlan w
  = (Ok tt,
     add_events [Acquire (linked_lock wlan); Release (linked_lock wlan)]
       (add_cmds (chain_header n ++ chain_rules n)
          (put_net wlan (set_has_ebtables_chain true n) w))).
Proof.
  intros Hn.
  assert (Hloop : forall w',
    for_ (_linked n) (fun '(netif1, v) =>
      for_ v (fun '(netif2, linked) =>
        if bool_decide (policy n = DROP) && linked then
          cmds_extend (pair_rules (brname n) netif1 netif2 "ACCEPT")
        else if bool_decide (policy n = ACCEPT) && negb linked then
          cmds_extend (pair_rules (brname n) netif1 netif2 "DROP")
        else ret tt)) w' = (Ok tt, add_cmds (chain_rules n) w')).
  { intros w'. unfold chain_rules.
    apply (for_add_cmds (A := CoreInterface * row)).
    intros [a r] w''.
    apply (for_add_cmds (A := CoreInterface * bool)).
    intros x w3. apply pair_body_add_cmds. }
  unfold buildcmds, with_lock, finally, bind at 1.
  unfold emit at 1, modify at 1.
  unfold bind at 1, get_net at 1. simpl.
  rewrite Hn.
  unfold chain_header, pair_rules in *.
  destruct (has_ebtables_chain n) eqn:Hflag.
  - unfold bind at 1. unfold cmds_extend at 1, update_ebq, modify at 1.
    rewrite Hloop. simpl.
    replace (set_has_ebtables_chain true n) with n
      by (destruct n; simpl in *; subst; reflexivity).
    unfold add_events, add_cmds, put_net, with_ebq, with_trace, with_nets,
      set_cmds, flush_cmd; simpl.
    rewrite insert_id by done.
    by rewrite <- !app_assoc.
  - unfold bind at 1. unfold bind at 1.
    unfold update_net, bind at 1, get_net. simpl. rewrite Hn.
    unfold modify at 1. unfold cmds_extend at 1, update_ebq, modify at 1.
    rewrite Hloop. simpl.
    unfold add_events, add_cmds, put_net, with_ebq, with_trace, with_nets,
      set_cmds, new_chain_cmd, forward_jump_cmd; simpl.
    by rewrite <- !app_assoc.
Qed.

(** One pass, by what the loop over the dirty list does. *)
Lemma updateloop_pass_eq w :
  updateloop_pass w
  = match scan_updates (length (updates (ebq w))) 0
            (add_events [Acquire updatelock] w) with
    | (Ok _, w1) =>
        (Ok tt, with_clock (fun t => t + rate)
                  (add_events [Release updatelock] w1))
    | (Raise e, w1) => (Raise e, add_events [Release updatelock] w1)
    end.
Proof.
  unfold updateloop_pass, with_lock, finally.
  unfold bind at 1, bind at 1, emit at 1, modify at 1.
  unfold bind at 1, gets at 1.
  change (with_trace (fun t => t ++ [Acquire updatelock]) w)
    with (add_events [Acquire updatelock] w).
  change (updates (ebq (add_events [Acquire updatelock] w)))
    with (updates (ebq w)).
  destruct (scan_updates _ 0 _) as [[[]|e] w1]; reflexivity.
Qed.

Lemma visit_due w wlan n s t :
  nets w !! wlan = Some n -> session n = Some s ->
  last_update_time (ebq w) !! wlan = Some t -> rate < clock w - t ->
  visit wlan w = (buildcmds wlan ;; ebcommit wlan ;; updated wlan) w.
Proof.
  intros Hn Hs Ht Hdue. rewrite visit_eq. unfold session_raises.
  rewrite (get_session_eq _ _ n s) by done. simpl.
  unfold rebuild_if_due, lastupdate. unfold bind at 1, bind at 1, gets at 1.
  unfold bind at 1, gets at 1. rewrite Ht. unfold ret at 1.
  by rewrite (proj2 (Z.ltb_lt _ _)) by lia.
Qed.

(** X7.  A pass of the worker over a dirty list that holds one network, with
    its session and updated more than [rate] ago, on a host that accepts
    every command: the pass returns; the host has run the save, the
    commands pending before followed by the chain's header and rules, the
    commit and the removal of the atomic file, each locally and then on
    the servers; the dirty list and the pending commands are empty, the
    network has its chain flag set and the time of the pass as its
    timestamp, and the clock has moved on by a tick. *)
Theorem pass_commits_due_network w wlan n s t :
  updates (ebq w) = [wlan] ->
  nets w !! wlan = Some n -> session n = Some s ->
  last_update_time (ebq w) !! wlan = Some t -> rate < clock w - t ->
  (forall t c, host_ok t c = true) ->
  exists w', updateloop_pass w = (Ok tt, w') /\
    updates (ebq w') = [] /\ cmds (ebq w') = [] /\
    last_update_time (ebq w') !! wlan = Some (clock w) /\
    nets w' = <[wlan := set_has_ebtables_chain true n]> (nets w) /\
    calls_of (trace w')
    = calls_of (trace w)
      ++ host_calls (commit_cmds (cmds (ebq w) ++ chain_header n ++ chain_rules n)
                     ++ [rm_atomic_file]) /\
    clock w' = clock w + rate.
Proof.
  intros Hupd Hn Hs Ht Hdue Hhost.
  rewrite updateloop_pass_eq, Hupd. simpl. unfold bind at 1, gets at 1.
  change (updates (ebq (add_events [Acquire updatelock] w)))
    with (updates (ebq w)).
  rewrite Hupd. simpl. unfold bind at 1.
  rewrite (visit_due _ _ n s t) by done.
  unfold bind at 1. rewrite (buildcmds_eq _ _ n) by done.
  set (n1 := set_has_ebtables_chain true n).
  set (built := chain_header n ++ chain_rules n).
  set (w1 := add_events _ (add_cmds built (put_net wlan n1 _))).
  assert (Hn1 : nets w1 !! wlan = Some n1) by apply nets_put_net.
  unfold bind at 1.
  rewrite (ebcommit_eq _ _ n1 s) by (done || (intros ? ? _; by rewrite !Hhost)).
  unfold rm_events. rewrite Hhost.
  change (cmds (ebq w1)) with (cmds (ebq w) ++ built).
  set (seq := flat_map host_cmd_calls _ ++ host_cmd_calls rm_atomic_file).
  rewrite updated_eq by (simpl; rewrite Hupd; apply list_elem_of_here).
  unfold ret. eexists. split; [reflexivity|]. simpl.
  rewrite Hupd. simpl. rewrite decide_True by done.
  split; [done|]. split; [done|].
  split; [apply lookup_insert_eq|]. split; [done|]. split; [|done].
  rewrite !calls_of_app. simpl. rewrite !app_nil_r.
  subst seq. do 3 f_equal. rewrite calls_of_app, calls_of_host_cmd_calls.
  unfold host_calls. by rewrite (flat_map_app _ _ [rm_atomic_file]).
Qed.

(** X8.  A commit that fails.  When the host refuses the save of the atomic
    file, a pass of the worker that finds a due network at the head of
    the dirty list raises [CoreCommandError] out of the loop, so the
    worker ends: the state mutex is released and no tick is slept; the
    network is still on the dirty list with its old timestamp, the rules
    built for it are still pending, and its chain flag is already set
    although no chain was created. *)
Theorem failed_commit_leaves_network_dirty w wlan rest n s t :
  updates (ebq w) = wlan :: rest ->
  nets w !! wlan = Some n -> session n = Some s ->
  last_update_time (ebq w) !! wlan = Some t -> rate < clock w - t ->
  (forall t, host_ok t (Shell (ebatomiccmd "--atomic-save")) = false) ->
  exists w', updateloop_pass w = (Raise CoreCommandError, w') /\
    updates (ebq w') = wlan :: rest /\
    cmds (ebq w') = cmds (ebq w) ++ chain_header n ++ chain_rules n /\
    last_update_time (ebq w') = last_update_time (ebq w) /\
    nets w' = <[wlan := set_has_ebtables_chain true n]> (nets w) /\
    trace w'
    = trace w ++ [ Acquire updatelock;
                   Acquire (linked_lock wlan); Release (linked_lock wlan);
                   Call (Shell (ebatomiccmd "--atomic-save"));
                   Release updatelock ] /\
    clock w' = clock w.
Proof.
  intros Hupd Hn Hs Ht Hdue Hhost.
  rewrite updateloop_pass_eq, Hupd. simpl. unfold bind at 1, gets at 1.
  change (updates (ebq (add_events [Acquire updatelock] w)))
    with (updates (ebq w)).
  rewrite Hupd. simpl. unfold bind at 1.
  rewrite (visit_due _ _ n s t) by done.
  unfold bind at 1. rewrite (buildcmds_eq _ _ n) by done.
  unfold bind at 1, ebcommit. unfold bind at 1.
  erewrite host_cmd_eq by (try apply nets_put_net; exact Hs).
  rewrite Hhost.
  eexists. split; [reflexivity|]. simpl.
  rewrite Hupd, <- !app_assoc. by repeat split.
Qed.
End PassWithCommit.

(** The sample wireless LAN, dirty and last updated a second ago: the
    pass creates its chain with default DROP. *)
Lemma pass_commits_due_network_witness :
  exists w', updateloop_pass (env := sample_env) dirty_world = (Ok tt, w') /\
    updates (ebq w') = [] /\ cmds (ebq w') = [] /\
    calls_of (trace w')
    = host_calls
        [ "/sbin/ebtables --atomic-file /tmp/pycore.ebtables.atomic --atomic-save";
          "/sbin/ebtables --atomic-file /tmp/pycore.ebtables.atomic -N b.5.1 -P DROP";
          "/sbin/ebtables --atomic-file /tmp/pycore.ebtables.atomic -A FORWARD --logical-in b.5.1 -j b.5.1";
          "/sbin/ebtables --atomic-file /tmp/pycore.ebtables.atomic --atomic-commit";
          "rm -f /tmp/pycore.ebtables.atomic" ].
Proof.
  destruct (pass_commits_due_network (env := sample_env) dirty_world 0%nat
              wlan0 sample_session 0 eq_refl eq_refl eq_refl eq_refl eq_refl)
    as (w' & Hrun & Hupd & Hcmds & _ & _ & Hcalls & _).
  - intros t c. reflexivity.
  - exists w'. split; [exact Hrun|]. split; [exact Hupd|].
    split; [exact Hcmds|]. rewrite Hcalls. reflexivity.
Defined.

(** The same pass on a host that refuses the save. *)
Lemma failed_commit_leaves_network_dirty_witness :
  exists w',
    updateloop_pass (env := refusing_env) dirty_world
    = (Raise CoreCommandError, w') /\
    updates (ebq w') = [0%nat] /\
    cmds (ebq w') = ["-N b.5.1 -P DROP"; "-A FORWARD --logical-in b.5.1 -j b.5.1"] /\
    nets w' !! 0%nat = Some (set_has_ebtables_chain true wlan0).
Proof.
  destruct (failed_commit_leaves_network_dirty (env := refusing_env)
              dirty_world 0%nat [] wlan0 sample_session 0
              eq_refl eq_refl eq_refl eq_refl eq_refl)
    as (w' & Hrun & Hupd & Hcmds & _ & Hnets & _).
  - intros t. reflexivity.
  - exists w'. split; [exact Hrun|]. split; [exact Hupd|].
    split; [rewrite Hcmds; reflexivity|]. rewrite Hnets. reflexivity.
Defined.

(** ** Registering with the queue, and shutting down *)

Section Lifecycle.
Context {num : Type} {env : Env}.
Implicit Types (w : World num) (n : CoreNetwork).
Local Abbreviation M := (M (num := num)).

Lemma startupdateloop_eq wlan w :
  startupdateloop wlan w
  = (Ok tt,
     add_events [Acquire updatelock; Release updatelock]
       (with_ebq (fun q =>
          let q1 := set_last_update_time
                      (<[wlan := clock w]> (last_update_time q)) q in
          if doupdateloop q then q1
          else set_updatethread true (set_doupdateloop true q1)) w)).
Proof.
  unfold startupdateloop, with_lock, finally, bind, emit, update_ebq, modify,
    gets, ret; simpl.
  destruct (doupdateloop (ebq w)) eqn:Hloop;
    unfold add_events, with_trace, with_ebq; simpl; rewrite ?Hloop; simpl.
  all: by rewrite <- app_assoc.
Qed.

Lemma stopupdateloop_eq wlan w :
  stopupdateloop wlan w
  = (Ok tt,
     add_events [Acquire updatelock; Release updatelock]
       (with_ebq (fun q =>
          let q1 := set_last_update_time (delete wlan (last_update_time q)) q in
          if bool_decide (0 < size (delete wlan (last_update_time q)))%nat
          then q1
          else set_updatethread false (set_doupdateloop false q1)) w)).
Proof.
  unfold stopupdateloop, with_lock, finally, bind, emit, update_ebq, modify,
    gets, ret; simpl.
  destruct (bool_decide (0 < size (delete wlan (last_update_time (ebq w))))%nat)
    eqn:Hsz; unfold add_events, with_trace, with_ebq; simpl; rewrite ?Hsz;
    simpl.
  - by rewrite <- app_assoc.
  - rewrite <- app_assoc.
    destruct (updatethread (ebq w)) eqn:Hth; simpl; [done|].
    unfold set_updatethread, set_doupdateloop, set_last_update_time; simpl.
    by rewrite Hth.
Qed.

(** X9.  The worker runs while a network is registered.  Registering a network
    returns, writes its timestamp and leaves the loop switched on, with a
    worker thread started unless the loop was on already.  Unregistering
    it again returns and takes the timestamp away; when no other network
    has a timestamp the loop is switched off and the worker thread
    dropped, and otherwise both stay.  Neither touches the dirty list or
    the pending commands, and neither makes a host call. *)
Theorem queue_runs_while_registered wlan w :
  let w1 := snd (startupdateloop wlan w) in
  let w2 := snd (stopupdateloop wlan w1) in
  fst (startupdateloop wlan w) = Ok tt /\
  last_update_time (ebq w1) = <[wlan := clock w]> (last_update_time (ebq w)) /\
  doupdateloop (ebq w1) = true /\
  updatethread (ebq w1)
  = (if doupdateloop (ebq w) then updatethread (ebq w) else true) /\
  fst (stopupdateloop wlan w1) = Ok tt /\
  last_update_time (ebq w2) = delete wlan (last_update_time (ebq w)) /\
  doupdateloop (ebq w2)
  = bool_decide (delete wlan (last_update_time (ebq w)) <> ∅) /\
  updatethread (ebq w2)
  = (if bool_decide (delete wlan (last_update_time (ebq w)) <> ∅)
     then updatethread (ebq w1) else false) /\
  updates (ebq w2) = updates (ebq w) /\ cmds (ebq w2) = cmds (ebq w) /\
  calls_of (trace w2) = calls_of (trace w).
Proof.
  intros w1 w2. subst w1 w2. rewrite stopupdateloop_eq, startupdateloop_eq.
  cbn [fst snd].
  assert (Hsize : bool_decide (0 < size (delete wlan
                     (<[wlan := clock w]> (last_update_time (ebq w)))))%nat
                  = bool_decide (delete wlan (last_update_time (ebq w)) <> ∅)).
  { rewrite delete_insert_eq. apply bool_decide_ext.
    rewrite <- map_size_non_empty_iff. lia. }
  unfold add_events, with_trace, with_ebq; simpl.
  destruct (doupdateloop (ebq w)) eqn:Hloop; simpl; rewrite Hsize;
    destruct (bool_decide (delete wlan (last_update_time (ebq w)) <> ∅));
    simpl; rewrite ?delete_insert_eq, ?Hloop, !calls_of_app; simpl;
    rewrite ?app_nil_r; by repeat split.
Qed.

(** X10.  A second [shutdown] is a no-op: in the world a [shutdown] that
    returned has left, [shutdown] returns without a host call and
    without touching the queue or the network. *)
Theorem shutdown_twice_is_shutdown_once w self w' :
  shutdown self w = (Ok tt, w') -> shutdown self w' = (Ok tt, w').
Proof.
  intros Hrun.
  destruct (nets w !! self) as [n|] eqn:Hn.
  - destruct (up n) eqn:Hup.
    + pose proof (shutdown_ok_inv _ _ _ _ Hn Hup Hrun) as Hn'.
      unfold shutdown, bind. by rewrite (get_net_eq _ _ _ Hn').
    + revert Hrun. unfold shutdown. unfold bind at 1.
      rewrite (get_net_eq _ _ _ Hn), Hup. simpl. intros [= <-].
      unfold bind. by rewrite (get_net_eq _ _ _ Hn), Hup.
  - revert Hrun. unfold shutdown, bind, get_net. by rewrite Hn.
Qed.

Lemma netifs_shutdown_returns (l : list CoreInterface) :
  forall w, exists evs, for_ l netif_shutdown w = (Ok tt, add_events evs w).
Proof.
  induction l as [|x l IH]; intros w; simpl.
  - exists []. by rewrite add_events_nil.
  - unfold bind, netif_shutdown at 1, try_except. rewrite call_eq.
    destruct (IH (add_events [Call (DeleteDevice (localname x))] w))
      as (evs & Hrun).
    exists ([Call (DeleteDevice (localname x))] ++ evs).
    rewrite <- add_events_app.
    destruct (host_ok (trace w) _); simpl; exact Hrun.
Qed.

Ltac as_events :=
  unfold ret;
  repeat match goal with
         | |- context [with_trace (fun t => t ++ ?l) ?x] =>
           change (with_trace (fun t => t ++ l) x) with (add_events l x)
         end;
  rewrite ?add_events_app; by eexists.

Lemma remove_chain_returns w self n s :
  nets w !! self = Some n -> session n = Some s ->
  exists evs,
    try_except
      (n <- get_net self ;;
       call (DeleteBridge (brname n)) ;;
       if has_ebtables_chain n then
         ebtablescmds (host_cmd self)
           [ EBTABLES_BIN +:+ " -D FORWARD --logical-in " +:+ brname n
               +:+ " -j " +:+ brname n;
             EBTABLES_BIN +:+ " -X " +:+ brname n ]
       else ret tt)
      is_CoreCommandError (fun _ => ret tt) w
    = (Ok tt, add_events evs w).
Proof.
  intros Hn Hs. unfold try_except. unfold bind at 1.
  rewrite (get_net_eq _ _ _ Hn). unfold bind at 1. rewrite call_eq.
  destruct (host_ok (trace w) (DeleteBridge (brname n))); [|simpl; by eexists].
  destruct (has_ebtables_chain n); [|by eexists].
  unfold ebtablescmds, with_lock, finally. unfold bind at 1, emit at 1, modify at 1.
  change (with_trace (fun t => t ++ [Acquire ebtables_lock])
            (add_events [Call (DeleteBridge (brname n))] w))
    with (add_events [Acquire ebtables_lock]
            (add_events [Call (DeleteBridge (brname n))] w)).
  rewrite add_events_app. simpl for_. unfold bind at 1.
  rewrite (host_cmd_eq _ _ n s) by done.
  unfold emit, modify.
  destruct (host_ok _ (Shell _)); [|simpl; as_events].
  destruct (host_ok _ (Remote _)); [|simpl; as_events].
  rewrite add_events_app. unfold bind at 1.
  rewrite (host_cmd_eq _ _ n s) by done.
  destruct (host_ok _ (Shell _)); [|simpl; as_events].
  rewrite add_events_app.
  destruct (host_ok _ (Remote _)); simpl; as_events.
Qed.

(** X11.  [shutdown] does not let a host failure through.  For a network of the
    store with its session, whatever the host answers to the removal of
    the bridge, of the chain and of the interfaces' devices, [shutdown]
    returns; a network that was up is left down, without session and
    with empty maps, and one that was down is left as it was. *)
Theorem shutdown_survives_host_failures w self n s :
  nets w !! self = Some n -> session n = Some s ->
  exists w', shutdown self w = (Ok tt, w') /\
    nets w' !! self = Some (if up n then shut_down n else n).
Proof.
  intros Hn Hs. unfold shutdown. unfold bind at 1.
  rewrite (get_net_eq _ _ _ Hn).
  destruct (up n) eqn:Hup; simpl; [|by exists w].
  unfold bind at 1. rewrite stopupdateloop_eq.
  set (w1 := add_events _ (with_ebq _ w)).
  assert (H1 : nets w1 !! self = Some n) by exact Hn.
  unfold bind at 1.
  destruct (remove_chain_returns w1 self n s H1 Hs) as (evs & ->).
  unfold bind at 1. rewrite (get_net_eq _ self n) by exact H1.
  unfold bind at 1.
  destruct (netifs_shutdown_returns (dict_values (_netif n)) (add_events evs w1))
    as (evs' & ->).
  rewrite add_events_app.
  set (w3 := add_events (evs ++ evs') w1).
  assert (H3 : nets w3 !! self = Some n) by exact Hn.
  unfold bind at 1. rewrite (update_net_eq _ _ _ _ H3).
  unfold bind at 1. rewrite (update_net_eq _ _ _ _ (nets_put_net _ _ _)).
  unfold bind at 1, del_session. unfold bind at 1.
  erewrite get_session_eq by (try apply nets_put_net; exact Hs).
  rewrite (update_net_eq _ _ _ _ (nets_put_net _ _ _)).
  rewrite (update_net_eq _ _ _ _ (nets_put_net _ _ _)).
  eexists. split; [reflexivity|]. apply nets_put_net.
Qed.
End Lifecycle.

(** Shutting the sample wireless LAN down twice. *)
Lemma shutdown_twice_is_shutdown_once_witness :
  shutdown (env := sample_env) 0%nat
    (snd (shutdown (env := sample_env) 0%nat world0))
  = (Ok tt, snd (shutdown (env := sample_env) 0%nat world0)).
Proof.
  apply (shutdown_twice_is_shutdown_once (env := sample_env) world0).
  vm_compute. reflexivity.
Defined.

(** Shutting the sample wireless LAN down on a host where every command
    fails. *)
Lemma shutdown_survives_host_failures_witness :
  exists w', shutdown (env := failing_env) 0%nat world0 = (Ok tt, w') /\
    nets w' !! 0%nat = Some (shut_down wlan0).
Proof.
  exact (shutdown_survives_host_failures (env := failing_env) world0 0%nat
           wlan0 sample_session eq_refl eq_refl).
Defined.

(** ** Failures of [link], [unlink] and [attach] *)

Section Failures.
Context {num : Type} {env : Env}.
Implicit Types (w : World num) (n : CoreNetwork) (a b : CoreInterface).
Local Abbreviation M := (M (num := num)).

Lemma linked_raise_inv w self a b e w1 :
  linked self a b w = (Raise e, w1) -> w1 = w.
Proof.
  destruct (nets w !! self) as [n|] eqn:Hn.
  - rewrite (linked_eq _ _ n) by done.
    repeat match goal with
           | |- context [match ?x with _ => _ end] => destruct x
           end; by intros [= <-].
  - unfold linked, bind, get_net. rewrite Hn. by intros [= <-].
Qed.

(** X12.  [link] and [unlink] fail as [linked] fails.  When [linked] raises for
    the pair (an interface that is not attached under its index, or a
    policy that is neither ACCEPT nor DROP), it leaves the world as it
    was, and [link] and [unlink] raise the same exception: the adjacency
    lock is taken and released, the adjacency map is not written and the
    queue is not notified. *)
Theorem link_unlink_fail_as_linked (t : bool) w self a b e w1 :
  linked self a b w = (Raise e, w1) ->
  w1 = w /\
  (if t then link else unlink) self a b w
  = (Raise e,
     add_events [Acquire (linked_lock self); Release (linked_lock self)] w).
Proof.
  intros Hlinked.
  assert (Hw : forall l, linked self a b (add_events l w)
                         = (Raise e, add_events l w)).
  { intros l. pose proof (linked_raise_inv _ _ _ _ _ _ Hlinked) as ->.
    destruct (nets w !! self) as [n|] eqn:Hn.
    - rewrite (linked_eq _ _ n) in Hlinked by done.
      rewrite (linked_eq _ _ n) by done.
      change (recorded (add_events l w) n) with (recorded w n).
      repeat match goal with
             | H : context [match ?x with _ => _ end] |- _ => destruct x
             end; by (discriminate || injection Hlinked as <-).
    - revert Hlinked. unfold linked, bind, get_net. simpl. rewrite Hn.
      by intros [= <-]. }
  split; [by apply (linked_raise_inv _ _ _ _ _ _ Hlinked)|].
  assert (Hop : relink t self a b w
                = (Raise e, add_events [Acquire (linked_lock self);
                                        Release (linked_lock self)] w)).
  { unfold relink, with_lock, finally. unfold bind at 1, bind at 1.
    unfold emit at 1, modify at 1. unfold bind at 1.
    change (with_trace (fun t0 => t0 ++ [Acquire (linked_lock self)]) w)
      with (add_events [Acquire (linked_lock self)] w).
    rewrite Hw. unfold emit, modify.
    change (with_trace (fun t0 => t0 ++ [Release (linked_lock self)]) ?x)
      with (add_events [Release (linked_lock self)] x).
    by rewrite add_events_app. }
  destruct t; [by rewrite link_relink|by rewrite unlink_relink].
Qed.

(** X13.  [attach] talks to the host before it looks at the interface.  On a
    network that is up, a host that refuses to put the device into the
    bridge makes [attach] raise [CoreCommandError] with nothing
    registered; and an interface that already has a network is put into
    this bridge on the host before the base attach refuses it with the
    inconsistency error, again with nothing registered.  On a network
    that is down the refusal comes without a host call. *)
Theorem attach_asks_host_first w self n netif :
  nets w !! self = Some n ->
  let c := SetInterfaceMaster (brname n) (localname netif) in
  let refused := ValueError ("inconsistency for netif " +:+ name netif) in
  (up n = true -> host_ok (trace w) c = false ->
     attach self netif w = (Raise CoreCommandError, add_events [Call c] w)) /\
  (up n = true -> host_ok (trace w) c = true ->
     is_Some (net (if_state_of w netif)) ->
     attach self netif w = (Raise refused, add_events [Call c] w)) /\
  (up n = false -> is_Some (net (if_state_of w netif)) ->
     attach self netif w = (Raise refused, w)).
Proof.
  intros Hn c refused. subst c refused.
  assert (Hbase : forall l, is_Some (net (if_state_of w netif)) ->
            base_attach self netif (add_events l w)
            = (Raise (ValueError ("inconsistency for netif " +:+ name netif)),
               add_events l w)).
  { intros l [owner Howner]. unfold base_attach, bind, get_if, gets.
    change (if_state_of (add_events l w) netif) with (if_state_of w netif).
    by rewrite Howner. }
  rewrite (attach_eq _ _ n) by done.
  split; [|split].
  - by intros -> ->.
  - intros -> -> Hown. by apply Hbase.
  - intros -> Hown. pose proof (Hbase [] Hown) as Hb.
    by rewrite add_events_nil in Hb.
Qed.
End Failures.

(** [eth_c] is not attached to the sample wireless LAN. *)
Lemma link_unlink_fail_as_linked_witness :
  link 0%nat eth_c eth_a world0
  = (Raise KeyError,
     add_events [Acquire (linked_lock 0%nat); Release (linked_lock 0%nat)]
       world0) /\
  unlink 0%nat eth_c eth_a world0
  = (Raise KeyError,
     add_events [Acquire (linked_lock 0%nat); Release (linked_lock 0%nat)]
       world0).
Proof.
  split.
  - apply (link_unlink_fail_as_linked true world0 0%nat eth_c eth_a KeyError
             world0). reflexivity.
  - apply (link_unlink_fail_as_linked false world0 0%nat eth_c eth_a KeyError
             world0). reflexivity.
Defined.

(** Attaching to the sample wireless LAN: a host that refuses, and an
    interface that is attached already. *)
Lemma attach_asks_host_first_witness :
  attach (env := failing_env) 0%nat eth_c world0
  = (Raise CoreCommandError,
     add_events [Call (SetInterfaceMaster "b.5.1" "veth3.0.1")] world0) /\
  attach (env := sample_env) 0%nat eth_a world0
  = (Raise (ValueError "inconsistency for netif eth0"),
     add_events [Call (SetInterfaceMaster "b.5.1" "veth1.0.1")] world0).
Proof.
  split.
  - destruct (attach_asks_host_first (env := failing_env) world0 0%nat wlan0
                eth_c eq_refl) as (Hrefuse & _ & _).
    by apply Hrefuse.
  - destruct (attach_asks_host_first (env := sample_env) world0 0%nat wlan0
                eth_a eq_refl) as (_ & Howned & _).
    apply Howned; [reflexivity|reflexivity|]. by eexists.
Defined.

(** ** Shaping on a network that is down *)

Section LinkConfigDown.
Context {num : Type} `{!PyNum num} {env : Env}.
Implicit Types (w : World num) (n : CoreNetwork).
Local Abbreviation M := (M (num := num)).

(** Nothing but the interfaces' state differs from [w0]. *)
Local Abbreviation only_ifaces w0 :=
  (fun w : World num =>
     nets w = nets w0 /\ trace w = trace w0 /\ ebq w = ebq w0).

Lemma only_ifaces_setparam w0 netif key v :
  preserves (only_ifaces w0) (setparam netif key v).
Proof.
  intros w Hw. unfold setparam, bind, get_if, gets.
  by destruct (bool_decide _).
Qed.

Lemma only_ifaces_host_cmd_if_up w0 self n cmd :
  nets w0 !! self = Some n -> up n = false ->
  preserves (only_ifaces w0) (host_cmd_if_up self cmd).
Proof.
  intros Hn Hup w (Hnets & Ht & Hq).
  unfold host_cmd_if_up, self_up, bind, get_net. rewrite Hnets, Hn. simpl.
  by rewrite Hup.
Qed.

(** X14.  [linkconfig] on a network that is down makes no host call, whatever
    the options and the cache: the trace, the networks and the queue are
    as before, in every outcome; and a call that returns has cached the
    requested values all the same. *)
Theorem linkconfig_down_makes_no_host_call w self n netif o :
  nets w !! self = Some n -> up n = false ->
  trace (snd (linkconfig self netif o w)) = trace w /\
  nets (snd (linkconfig self netif o w)) = nets w /\
  ebq (snd (linkconfig self netif o w)) = ebq w /\
  (fst (linkconfig self netif o w) = Ok tt ->
   cached_as_requested netif o (snd (linkconfig self netif o w))).
Proof.
  intros Hn Hup.
  assert (Hkeep : preserves (only_ifaces w) (linkconfig self netif o)).
  { unfold linkconfig.
    repeat first
      [ apply preserves_ret
      | apply preserves_raise
      | apply getparam_preserves
      | apply only_ifaces_setparam
      | apply (only_ifaces_host_cmd_if_up w self n); [exact Hn|exact Hup]
      | match goal with
        | |- preserves _ (if ?c then _ else _) => destruct c
        | |- preserves _ (match ?x with _ => _ end) => destruct x
        | |- preserves _ (bind _ _) => apply preserves_bind; [|intros ?]
        end ]. }
  destruct (Hkeep w) as (Hnets & Ht & Hq); [done|].
  split; [done|]. split; [done|]. split; [done|].
  intros Hok.
  apply (linkconfig_caches_request self netif o w tt); [done|].
  destruct (linkconfig self netif o w) as [[[]|e] w']; [done|discriminate].
Qed.
End LinkConfigDown.

(** The link update of the test suite on the sample wireless LAN before
    it is started. *)
Lemma linkconfig_down_makes_no_host_call_witness :
  trace (snd (linkconfig (env := sample_env) 0%nat eth_a sample_options
                down_world)) = [] /\
  cached_as_requested eth_a sample_options
    (snd (linkconfig (env := sample_env) 0%nat eth_a sample_options
            down_world)).
Proof.
  destruct (linkconfig_down_makes_no_host_call (env := sample_env) down_world
              0%nat (set_up false wlan0) eth_a sample_options
              eq_refl eq_refl) as (Htrace & _ & _ & Hcached).
  split; [exact Htrace|]. apply Hcached. vm_compute. reflexivity.
Defined.

(** ** Addresses in the link data of a point-to-point network *)

Section PtpAddresses.
Context {num : Type} `{!PyNum num} {env : Env}.
Implicit Types (w : World num) (n : CoreNetwork) (l : list string).
Local Abbreviation M := (M (num := num)).

Lemma last_address_cons p a l d :
  last_address p (a :: l) d
  = last_address p l
      (if p (fst (partition_slash a))
       then (Some (fst (partition_slash a)),
             int_of_str (snd (partition_slash a)))
       else d).
Proof.
  unfold last_address. simpl.
  destruct (p (fst (partition_slash a))); [|done].
  rewrite last_cons. by destruct (last _).
Qed.

Lemma scan_addresses_eq l :
  Forall has_mask l ->
  forall ip4 m4 ip6 m6 w,
    scan_addresses (num := num) l (ip4, m4, ip6, m6) w
    = (Ok (fst (last_address valid_ipv4 l (ip4, m4)),
           snd (last_address valid_ipv4 l (ip4, m4)),
           fst (last_address (fun a => negb (valid_ipv4 a)) l (ip6, m6)),
           snd (last_address (fun a => negb (valid_ipv4 a)) l (ip6, m6))), w).
Proof.
  induction 1 as [|a l [mask Hmask] _ IH]; intros ip4 m4 ip6 m6 w.
  - reflexivity.
  - rewrite !last_address_cons. simpl.
    destruct (partition_slash a) as [ip m] eqn:Hpart. simpl in *.
    rewrite Hmask. destruct (valid_ipv4 ip); simpl; apply IH.
Qed.

Lemma scan_addresses_bad l :
  Exists (fun a => ~ has_mask a) l ->
  forall acc w,
    scan_addresses (num := num) l acc w
    = (Raise (ValueError "invalid literal for int()"), w).
Proof.
  induction l as [|a l IH]; intros Hbad acc w; [by apply Exists_nil in Hbad|].
  simpl. destruct (partition_slash a) as [ip m] eqn:Hpart.
  destruct (int_of_str m) as [mask|] eqn:Hm; [|reflexivity].
  destruct acc as [[[ip4 m4] ip6] m6].
  apply Exists_cons in Hbad as [Hbad|Hbad].
  - exfalso. apply Hbad. unfold has_mask. rewrite Hpart. simpl. by rewrite Hm.
  - destruct (valid_ipv4 ip); by apply IH.
Qed.

(** X15.  The addresses in the link data of a point-to-point network.  With
    two interfaces of nodes whose addresses all carry a numeric mask, the
    first record reports for each interface the last IPv4 address of its
    list and the last address that is not IPv4, each with its mask (and
    nothing where the list has none of the kind); a record that follows
    it carries no names, hardware addresses or IP addresses at all. *)
Theorem PtpNet_all_link_data_reports_last_addresses
    w self n flags i1 if1 i2 if2 id1 id2 :
  nets w !! self = Some n ->
  _netif n = [(i1, if1); (i2, if2)] ->
  node if1 = Some id1 -> node if2 = Some id2 ->
  Forall has_mask (addrlist (if_state_of w if1)) ->
  Forall has_mask (addrlist (if_state_of w if2)) ->
  exists rec1 rest,
    PtpNet_all_link_data self flags w = (Ok (rec1 :: rest), w) /\
    (interface1_ip4 _ rec1, interface1_ip4_mask _ rec1)
    = last_address valid_ipv4 (addrlist (if_state_of w if1)) (None, None) /\
    (interface1_ip6 _ rec1, interface1_ip6_mask _ rec1)
    = last_address (fun a => negb (valid_ipv4 a))
        (addrlist (if_state_of w if1)) (None, None) /\
    (interface2_ip4 _ rec1, interface2_ip4_mask _ rec1)
    = last_address valid_ipv4 (addrlist (if_state_of w if2)) (None, None) /\
    (interface2_ip6 _ rec1, interface2_ip6_mask _ rec1)
    = last_address (fun a => negb (valid_ipv4 a))
        (addrlist (if_state_of w if2)) (None, None) /\
    Forall bare_record rest.
Proof.
  intros Hn Hnetif Hnode1 Hnode2 Hmask1 Hmask2.
  unfold PtpNet_all_link_data. unfold bind at 1.
  rewrite (get_net_eq _ _ _ Hn), Hnetif. simpl.
  unfold bind at 1, get_if at 1, gets at 1.
  unfold bind at 1, get_if at 1, gets at 1.
  unfold bind at 1. rewrite (scan_addresses_eq _ Hmask1).
  unfold bind at 1. rewrite (scan_addresses_eq _ Hmask2).
  unfold node_id_of. rewrite Hnode1, Hnode2.
  unfold bind at 1, ret at 1. unfold bind at 1, ret at 1.
  destruct (bool_decide _); simpl.
  - eexists _, _. split; [reflexivity|]. simpl.
    repeat (split; [by destruct (last_address _ _ _)|]).
    apply Forall_cons. split; [|apply Forall_nil_2].
    by repeat split.
  - eexists _, _. split; [reflexivity|]. simpl.
    repeat (split; [by destruct (last_address _ _ _)|]).
    apply Forall_nil_2.
Qed.

(** X16.  An address without a numeric mask.  When two interfaces are attached
    and an address of either lacks a mask that [int] reads, [all_link_data]
    raises [ValueError] and reports no link, whatever else the interfaces
    are. *)
Theorem PtpNet_all_link_data_needs_masks w self n flags i1 if1 i2 if2 :
  nets w !! self = Some n ->
  _netif n = [(i1, if1); (i2, if2)] ->
  Exists (fun a => ~ has_mask a)
    (addrlist (if_state_of w if1) ++ addrlist (if_state_of w if2)) ->
  PtpNet_all_link_data self flags w
  = (Raise (ValueError "invalid literal for int()"), w).
Proof.
  intros Hn Hnetif Hbad.
  unfold PtpNet_all_link_data. unfold bind at 1.
  rewrite (get_net_eq _ _ _ Hn), Hnetif. simpl.
  unfold bind at 1, get_if at 1, gets at 1.
  unfold bind at 1, get_if at 1, gets at 1.
  unfold bind at 1.
  destruct (decide (Forall has_mask (addrlist (if_state_of w if1))))
    as [Hok|Hno].
  - rewrite (scan_addresses_eq _ Hok). unfold bind at 1.
    apply Exists_app in Hbad as [Hbad|Hbad].
    + exfalso. apply Exists_exists in Hbad as (a & Ha & Hna).
      rewrite Forall_forall in Hok. by apply Hna, Hok.
    + by rewrite (scan_addresses_bad _ Hbad).
  - apply not_Forall_Exists in Hno; [|apply _].
    by rewrite (scan_addresses_bad _ Hno).
Qed.
End PtpAddresses.

(** The second interface has two IPv4 addresses around an IPv6 one. *)
Lemma PtpNet_all_link_data_reports_last_addresses_witness :
  exists rec1 rest,
    PtpNet_all_link_data (env := sample_env) 0%nat 0 ptp_world_many
    = (Ok (rec1 :: rest), ptp_world_many) /\
    (interface1_ip4 _ rec1, interface1_ip4_mask _ rec1)
    = (Some "10.0.0.1", Some 24) /\
    (interface2_ip4 _ rec1, interface2_ip4_mask _ rec1)
    = (Some "10.0.1.2", Some 24) /\
    (interface2_ip6 _ rec1, interface2_ip6_mask _ rec1)
    = (Some "2001::2", Some 64).
Proof.
  destruct (PtpNet_all_link_data_reports_last_addresses (env := sample_env)
              ptp_world_many 0%nat ptp2 0 0 eth_c 1 eth_d 3 4
              eq_refl eq_refl eq_refl eq_refl)
    as (rec1 & rest & Hrun & H14 & _ & H24 & H26 & _).
  - repeat (constructor; [vm_compute; by eexists|]). constructor.
  - repeat (constructor; [vm_compute; by eexists|]). constructor.
  - exists rec1, rest. split; [exact Hrun|].
    rewrite H14, H24, H26. by repeat split.
Defined.

(** The second interface's address has no mask. *)
Lemma PtpNet_all_link_data_needs_masks_witness :
  PtpNet_all_link_data (env := sample_env) 0%nat 0 ptp_world_nomask
  = (Raise (ValueError "invalid literal for int()"), ptp_world_nomask).
Proof.
  apply (PtpNet_all_link_data_needs_masks (env := sample_env)
           ptp_world_nomask 0%nat ptp2 0 0 eth_c 1 eth_d eq_refl eq_refl).
  apply Exists_app. right. apply Exists_cons_hd.
  intros [mask Hmask]. vm_compute in Hmask. discriminate Hmask.
Defined.

(** ** Looking up a bridge-to-bridge link *)

Section GetLinkNetifFacts.
Context {num : Type} {env : Env}.
Implicit Types (w : World num) (n p : CoreNetwork) (a : CoreInterface).
Local Abbreviation M := (M (num := num)).

Lemma find_linknetif_eq (l : list CoreInterface) net w :
  find_linknetif l net w
  = (Ok (List.find
           (fun x => bool_decide (othernet (if_state_of w x) = Some net)) l),
     w).
Proof.
  induction l as [|x l IH]; [reflexivity|].
  simpl. unfold bind, get_if, gets.
  destruct (bool_decide _); [reflexivity|apply IH].
Qed.

Lemma getlinknetif_eq w self net n :
  nets w !! self = Some n ->
  getlinknetif self net w
  = (Ok (List.find
           (fun x => bool_decide (othernet (if_state_of w x) = Some net))
           (dict_values (_netif n))),
     w).
Proof.
  intros Hn. unfold getlinknetif, bind. rewrite (get_net_eq _ _ _ Hn).
  apply find_linknetif_eq.
Qed.

Lemma dict_values_set_fresh {K V} `{EqDecision K} (k : K) (v : V) d :
  dict_get k d = None -> dict_values (dict_set k v d) = dict_values d ++ [v].
Proof.
  induction d as [|[k' v'] d IH]; simpl; [done|].
  destruct (decide (k = k')); [done|]. intros Hk. simpl.
  unfold dict_values in *. by rewrite IH.
Qed.

Lemma find_app_last {A} (f : A -> bool) l x :
  (forall y, y ∈ l -> f y = false) ->
  List.find f (l ++ [x]) = if f x then Some x else None.
Proof.
  induction l as [|y l IH]; intros Hl; simpl; [done|].
  rewrite (Hl y) by apply list_elem_of_here.
  apply IH. intros z Hz. apply Hl. by apply elem_of_cons; right.
Qed.

(** The store after a [linknet] that returns. *)
Lemma linknet_ok_store w self peer n p s netif w' :
  nets w !! self = Some n -> nets w !! peer = Some p -> self <> peer ->
  session n = Some s ->
  linknet self peer w = (Ok netif, w') ->
  netif = mkInterface (next_oid w)
            (veth_localname (net_id p) (net_id n) (short_session_id s))
            (veth_localname (net_id n) (net_id p) (short_session_id s))
            veth_mtu None /\
  nets w' = nets (linknet_world self peer netif n p w) /\
  ifaces w' = ifaces (linknet_world self peer netif n p w).
Proof.
  intros Hn Hp Hne Hs. unfold linknet. unfold bind at 1.
  rewrite (get_session_eq _ _ _ _ Hn Hs).
  unfold bind at 1. rewrite (get_net_eq _ _ _ Hn).
  unfold bind at 1. rewrite (get_net_eq _ _ _ Hp).
  destruct (bool_decide _); [unfold raise; discriminate|].
  destruct (bool_decide _); [unfold raise; discriminate|].
  unfold bind at 1. rewrite Veth_eq. cbv zeta.
  set (a := mkInterface (next_oid w) _ _ veth_mtu None).
  set (w1 := put_if a fresh_if (with_next_oid S w)).
  assert (Hfresh : forall l, net (if_state_of (add_events l w1) a) = None).
  { intros l. unfold if_state_of; simpl. by rewrite lookup_insert_eq. }
  assert (Hfresh1 : net (if_state_of w1 a) = None).
  { unfold if_state_of; simpl. by rewrite lookup_insert_eq. }
  assert (Hpeer : forall w0, nets w0 = nets w ->
            nets (attach_world self a n w0) !! peer = Some p).
  { intros w0 Hw0. simpl. rewrite lookup_insert_ne by done. by rewrite Hw0. }
  destruct (up n) eqn:Hup.
  - destruct (host_ok (trace w) (CreateVeth _ _)); [|discriminate].
    unfold bind at 1. rewrite (attach_eq _ self n a) by exact Hn. rewrite Hup.
    destruct (host_ok _ (SetInterfaceMaster (brname n) (localname a)));
      [|discriminate].
    rewrite (base_attach_eq _ self n a) by (exact Hn || apply Hfresh).
    rewrite (linknet_tail _ _ _ _ p _) by (by apply Hpeer).
    destruct (up p && nonempty (brname p));
      [destruct (host_ok _ _); [|discriminate]|];
      intros [= <- <-]; by repeat split.
  - unfold bind at 1. rewrite (attach_eq _ self n a) by exact Hn. rewrite Hup.
    rewrite (base_attach_eq _ self n a) by (exact Hn || apply Hfresh1).
    rewrite (linknet_tail _ _ _ _ p _) by (by apply Hpeer).
    destruct (up p && nonempty (brname p));
      [destruct (host_ok _ _); [|discriminate]|];
      intros [= <- <-]; by repeat split.
Qed.

Lemma linknet_world_if_state w self peer a n p x :
  oid x <> oid a ->
  if_state_of (linknet_world self peer a n p w) x = if_state_of w x.
Proof.
  intros Hx. unfold if_state_of, linknet_world, register_world, attach_world,
    put_if, with_ifaces; simpl.
  by rewrite !lookup_insert_ne by done.
Qed.

Lemma linknet_world_othernet w self peer a n p :
  othernet (if_state_of (linknet_world self peer a n p w) a) = Some peer.
Proof.
  unfold if_state_of, linknet_world, register_world; simpl.
  by rewrite lookup_insert_eq.
Qed.

Lemma if_state_of_ext w w' x :
  ifaces w' = ifaces w -> if_state_of w' x = if_state_of w x.
Proof. intros Hi. unfold if_state_of. by rewrite Hi. Qed.

(** X17.  [getlinknetif] after [linknet].  Take two different networks whose
    interfaces are objects made before (their identities are below the
    next one the store hands out), none of them a link between the two.
    After a [linknet] from the first to the second that returns,
    [getlinknetif] on the first network, asked for the second, answers the
    interface [linknet] returned.  Asked the other way round, on the
    second network for the first, it answers [None]: the interface is in
    the second network's map too, but its [othernet] is the second
    network itself. *)
Theorem getlinknetif_finds_linknet_one_way w self peer n p s netif w' :
  nets w !! self = Some n -> nets w !! peer = Some p -> self <> peer ->
  session n = Some s ->
  (forall x, x ∈ dict_values (_netif n) ->
     (oid x < next_oid w)%nat /\ othernet (if_state_of w x) <> Some peer) ->
  (forall x, x ∈ dict_values (_netif p) ->
     (oid x < next_oid w)%nat /\ othernet (if_state_of w x) <> Some self) ->
  linknet self peer w = (Ok netif, w') ->
  getlinknetif self peer w' = (Ok (Some netif), w') /\
  getlinknetif peer self w' = (Ok None, w').
Proof.
  intros Hn Hp Hne Hs Hold Holdp Hrun.
  destruct (linknet_ok_store _ _ _ _ _ _ _ _ Hn Hp Hne Hs Hrun)
    as (Hnetif & Hnets & Hifaces).
  assert (Hoid : oid netif = next_oid w) by (by rewrite Hnetif).
  assert (Hself : nets w' !! self = Some (attach_net netif (next_index n) n)).
  { rewrite Hnets. unfold linknet_world, register_world; simpl.
    rewrite lookup_insert_ne by done. apply lookup_insert_eq. }
  assert (Hpeer : nets w' !! peer = Some (attach_net netif (next_index p) p)).
  { rewrite Hnets. unfold linknet_world, register_world; simpl.
    apply lookup_insert_eq. }
  assert (Hstate : forall x, oid x <> oid netif ->
            if_state_of w' x = if_state_of w x).
  { intros x Hx. rewrite (if_state_of_ext _ _ _ Hifaces).
    by apply linknet_world_if_state. }
  assert (Hother : othernet (if_state_of w' netif) = Some peer).
  { rewrite (if_state_of_ext _ _ _ Hifaces). apply linknet_world_othernet. }
  split.
  - rewrite (getlinknetif_eq _ _ _ _ Hself). simpl.
    rewrite dict_values_set_fresh by apply next_index_free.
    rewrite find_app_last.
    + by rewrite Hother, bool_decide_eq_true_2.
    + intros x Hx. destruct (Hold x Hx) as [Hlt Hno].
      rewrite Hstate by lia. by apply bool_decide_eq_false_2.
  - rewrite (getlinknetif_eq _ _ _ _ Hpeer). simpl.
    rewrite dict_values_set_fresh by apply next_index_free.
    rewrite find_app_last.
    + rewrite Hother, bool_decide_eq_false_2; [done|]. by intros [= ->].
    + intros x Hx. destruct (Holdp x Hx) as [Hlt Hno].
      rewrite Hstate by lia. by apply bool_decide_eq_false_2.
Qed.
End GetLinkNetifFacts.

(** Linking the two sample switches. *)
Lemma getlinknetif_finds_linknet_one_way_witness :
  exists netif w',
    linknet (env := sample_env) 0%nat 1%nat switch_world = (Ok netif, w') /\
    localname netif = "veth1.2.1" /\
    getlinknetif 0%nat 1%nat w' = (Ok (Some netif), w') /\
    getlinknetif 1%nat 0%nat w' = (Ok None, w').
Proof.
  exists (mkInterface 10 "veth2.1.1" "veth1.2.1" 1500 None),
    (snd (linknet (env := sample_env) 0%nat 1%nat switch_world)).
  assert (Hrun : linknet (env := sample_env) 0%nat 1%nat switch_world
                 = (Ok (mkInterface 10 "veth2.1.1" "veth1.2.1" 1500 None),
                    snd (linknet (env := sample_env) 0%nat 1%nat switch_world)))
    by (vm_compute; reflexivity).
  split; [exact Hrun|]. split; [reflexivity|].
  assert (Hnone : forall (other : nat) (x : CoreInterface),
            x ∈ @nil CoreInterface ->
            (oid x < next_oid switch_world)%nat /\
            othernet (if_state_of switch_world x) <> Some other).
  { intros other x Hx. by apply elem_of_nil in Hx. }
  exact (getlinknetif_finds_linknet_one_way (env := sample_env) switch_world
           0%nat 1%nat switch1 switch2 sample_session _ _
           eq_refl eq_refl ltac:(discriminate) eq_refl
           (Hnone 1%nat) (Hnone 0%nat) Hrun).
Defined.

(** ** Starting a bridge *)

Section StartupFacts.
Context {num : Type} {env : Env} {client : NetClient}.
Implicit Types (w : World num) (n : CoreNetwork).
Local Abbreviation M := (M (num := num)).

Lemma startup_eq w self n :
  nets w !! self = Some n ->
  startup self w
  = if host_ok (trace w) (net_client_call (CreateBridge (brname n))) then
      (Ok tt, put_net self (started n)
                (add_events [Call (net_client_call (CreateBridge (brname n)))] w))
    else
      (Raise CoreCommandError,
       add_events [Call (net_client_call (CreateBridge (brname n)))] w).
Proof.
  intros Hn. unfold startup, net_client. unfold bind at 1.
  rewrite (get_net_eq _ _ _ Hn). unfold bind at 1. rewrite call_eq.
  destruct (host_ok _ _); [|reflexivity].
  unfold bind. erewrite update_net_eq by exact Hn.
  erewrite update_net_eq by apply nets_put_net.
  by rewrite put_net_twice.
Qed.

(** X18.  [startup] and the chain.  When the host refuses to create the bridge,
    [startup] raises [CoreCommandError] and the network is as it was, so a
    network that was down stays down.  When the host creates it, the
    network is up with its chain flag cleared, whatever the flag was; the
    chain build that follows therefore creates the chain (new chain with
    the policy as default, FORWARD jump) instead of flushing it, and
    appends the rules of the adjacency map as it stands. *)
Theorem startup_makes_next_build_create_chain w self n :
  nets w !! self = Some n ->
  let c := net_client_call (CreateBridge (brname n)) in
  (host_ok (trace w) c = false ->
     startup self w = (Raise CoreCommandError, add_events [Call c] w)) /\
  (host_ok (trace w) c = true ->
     startup self w
     = (Ok tt, put_net self (started n) (add_events [Call c] w)) /\
     fst ((startup self ;; buildcmds self) w) = Ok tt /\
     cmds (ebq (snd ((startup self ;; buildcmds self) w)))
     = cmds (ebq w)
       ++ [new_chain_cmd (brname n) (policy n); forward_jump_cmd (brname n)]
       ++ chain_rules n).
Proof.
  intros Hn c. subst c. split; intros Hhost.
  - by rewrite (startup_eq _ _ n), Hhost.
  - unfold bind. rewrite (startup_eq _ _ n), Hhost by done.
    split; [done|].
    rewrite (buildcmds_eq _ _ (started n)) by apply nets_put_net.
    by split.
Qed.

(** X19.  Starting a wireless LAN and a hub.  On a host that creates the
    bridge and switches MAC learning off, [WlanNode.startup] returns with
    the network up and on the dirty list (once), so that the worker will
    build its chain; [HubNode.startup] makes the same two host calls and
    leaves the queue alone.  When the host creates the bridge but refuses
    to switch MAC learning off, the wireless LAN's startup raises
    [CoreCommandError] with the network already up and the queue not
    notified. *)
Theorem WlanNode_startup_marks_dirty w self n :
  nets w !! self = Some n ->
  let create := net_client_call (CreateBridge (brname n)) in
  let disable := net_client_call (DisableMacLearning (brname n)) in
  host_ok (trace w) create = true ->
  (host_ok (trace w ++ [Call create]) disable = true ->
     exists w',
       WlanNode_startup self w = (Ok tt, w') /\
       nets w' !! self = Some (started n) /\
       updates (ebq w') = updates (mark_dirty self (ebq w)) /\
       calls_of (trace w') = calls_of (trace w) ++ [create; disable] /\
       HubNode_startup self w
       = (Ok tt, put_net self (started n)
                   (add_events [Call create; Call disable] w))) /\
  (host_ok (trace w ++ [Call create]) disable = false ->
     WlanNode_startup self w
     = (Raise CoreCommandError,
        put_net self (started n) (add_events [Call create; Call disable] w))).
Proof.
  intros Hn create disable Hcreate. subst create disable.
  set (create := net_client_call (CreateBridge (brname n))) in *.
  set (disable := net_client_call (DisableMacLearning (brname n))).
  set (w2 := put_net self (started n)
               (add_events [Call create; Call disable] w)).
  assert (Hn2 : nets w2 !! self = Some (started n)) by apply nets_put_net.
  assert (Hw2 : add_events [Call disable]
                  (put_net self (started n) (add_events [Call create] w))
                = w2).
  { subst w2. unfold put_net, add_events, with_nets, with_trace; simpl.
    by rewrite <- !app_assoc. }
  assert (Hdis : (n0 <- get_net self ;; net_client (DisableMacLearning (brname n0)))
                   (put_net self (started n) (add_events [Call create] w))
                 = (if host_ok (trace w ++ [Call create]) disable
                    then Ok tt else Raise CoreCommandError, w2)).
  { unfold bind, net_client.
    rewrite (get_net_eq _ self (started n)) by apply nets_put_net.
    rewrite call_eq. by rewrite <- Hw2. }
  assert (Hwlan : WlanNode_startup self w
                  = if host_ok (trace w ++ [Call create]) disable
                    then ebchange self w2 else (Raise CoreCommandError, w2)).
  { unfold WlanNode_startup. unfold bind at 1.
    rewrite (startup_eq _ _ n) by done. fold create. rewrite Hcreate.
    unfold bind at 1.
    rewrite (get_net_eq _ self (started n)) by apply nets_put_net.
    unfold bind at 1, net_client. rewrite call_eq.
    change (brname (started n)) with (brname n). fold disable.
    change (trace (put_net self (started n) (add_events [Call create] w)))
      with (trace w ++ [Call create]).
    rewrite Hw2. by destruct (host_ok _ disable). }
  split; intros Hdisable; rewrite Hwlan, Hdisable; [|done].
  rewrite ebchange_eq. eexists. split; [reflexivity|].
  split; [exact Hn2|]. split; [reflexivity|]. split.
  - simpl. rewrite !calls_of_app. simpl. by rewrite <- !app_assoc.
  - unfold HubNode_startup. unfold bind at 1.
    rewrite (startup_eq _ _ n) by done. fold create. rewrite Hcreate.
    by rewrite Hdis, Hdisable.
Qed.
End StartupFacts.

(** Starting the sample wireless LAN. *)
Lemma startup_makes_next_build_create_chain_witness :
  cmds (ebq (snd ((startup (env := sample_env) (client := sample_client) 0%nat ;;
                   buildcmds 0%nat) down_world)))
  = ["-N b.5.1 -P DROP"; "-A FORWARD --logical-in b.5.1 -j b.5.1"].
Proof.
  destruct (startup_makes_next_build_create_chain (env := sample_env)
              (client := sample_client) down_world 0%nat (set_up false wlan0)
              eq_refl) as (_ & Hok).
  destruct Hok as (_ & _ & Hcmds); [reflexivity|].
  rewrite Hcmds. reflexivity.
Defined.

Lemma WlanNode_startup_marks_dirty_witness :
  exists w',
    WlanNode_startup (env := sample_env) (client := sample_client) 0%nat
      down_world = (Ok tt, w') /\
    updates (ebq w') = [0%nat] /\
    calls_of (trace w')
    = [Shell "create-bridge b.5.1"; Shell "disable-mac-learning b.5.1"].
Proof.
  destruct (WlanNode_startup_marks_dirty (env := sample_env)
              (client := sample_client) down_world 0%nat (set_up false wlan0)
              eq_refl eq_refl) as (Hok & _).
  destruct Hok as (w' & Hrun & _ & Hupd & Hcalls & _); [reflexivity|].
  exists w'. split; [exact Hrun|]. split; [exact Hupd|]. exact Hcalls.
Defined.

(** ** Names of veth devices *)

Section VethNames.

Lemma of_pos_plain : forall p rest, plain rest -> plain (HexString.Raw.of_pos p rest).
Proof.
  fix IH 1. intros p rest Hrest.
  destruct p as [[[[p|p|]|[p|p|]|]|[[p|p|]|[p|p|]|]|]
                |[[[p|p|]|[p|p|]|]|[[p|p|]|[p|p|]|]|]|]; simpl;
    first [apply IH; simpl|idtac]; by repeat split.
Qed.

Lemma of_pos_inj p q :
  HexString.Raw.of_pos p "" = HexString.Raw.of_pos q "" -> p = q.
Proof.
  intros Heq. apply (f_equal (fun s => HexString.Raw.to_N s 0%N)) in Heq.
  rewrite !HexString.Raw.to_N_of_pos in Heq. simpl in Heq. congruence.
Qed.

Lemma py_hex_dotless z : forall a b, py_hex z = a +:+ "." +:+ b -> False.
Proof.
  assert (Hplain : forall s, plain s -> forall a b, s = a +:+ "." +:+ b -> False).
  { intros s. induction s as [|c s IH]; intros Hs a b Heq.
    - by destruct a.
    - destruct a as [|c' a]; simpl in Heq; injection Heq as -> Heq.
      + by destruct Hs as [Hc _].
      + destruct Hs as (_ & _ & Hs). by apply (IH Hs a b). }
  assert (Hhex : forall p, plain (HexString.Raw.of_pos p ""))
    by (intros p; by apply of_pos_plain).
  destruct z as [|p|p]; simpl.
  - apply Hplain. by repeat split.
  - apply Hplain, Hhex.
  - intros a b Heq. destruct a as [|c a]; simpl in Heq; [discriminate|].
    injection Heq as _ Heq. by apply (Hplain _ (Hhex p) a b).
Qed.

Lemma py_hex_inj z z' : py_hex z = py_hex z' -> z = z'.
Proof.
  assert (Hfirst : forall p s, HexString.Raw.of_pos p "" = String "-" s -> False).
  { intros p s Heq. pose proof (of_pos_plain p "" I) as Hp.
    rewrite Heq in Hp. by destruct Hp as (_ & Hm & _). }
  assert (Hzero : forall p, HexString.Raw.of_pos p "" = "0" -> False).
  { intros p Heq. apply (f_equal (fun s => HexString.Raw.to_N s 0%N)) in Heq.
    rewrite HexString.Raw.to_N_of_pos in Heq. simpl in Heq. discriminate. }
  destruct z as [|p|p], z' as [|q|q]; simpl; intros Heq;
    try discriminate; try done.
  - exfalso. by apply (Hzero q).
  - exfalso. by apply (Hzero p).
  - f_equal. by apply of_pos_inj.
  - exfalso. by apply (Hfirst p _ Heq).
  - exfalso. by apply (Hfirst q _ (eq_sym Heq)).
  - injection Heq as Heq. f_equal. by apply of_pos_inj.
Qed.

Lemma split_at_dot a a' r r' :
  (forall x y, a = x +:+ "." +:+ y -> False) ->
  (forall x y, a' = x +:+ "." +:+ y -> False) ->
  a +:+ "." +:+ r = a' +:+ "." +:+ r' -> a = a' /\ r = r'.
Proof.
  revert a'. induction a as [|c a IH]; intros a' Ha Ha' Heq.
  - destruct a' as [|c' a']; simpl in Heq.
    + injection Heq as Heq. simpl in Heq. by subst.
    + injection Heq as <- Heq. exfalso. by apply (Ha' "" a').
  - destruct a' as [|c' a']; simpl in Heq; injection Heq as -> Heq.
    + exfalso. by apply (Ha "" a).
    + destruct (IH a') as [-> ->]; [| |exact Heq|done].
      * intros x y ->. by apply (Ha (String c' x) y).
      * intros x y ->. by apply (Ha' (String c' x) y).
Qed.

Lemma append_inj_r (a b b' : string) : a +:+ b = a +:+ b' -> b = b'.
Proof. induction a as [|c a IH]; simpl; [done|]. intros [= H]. by apply IH. Qed.

Lemma veth_localname_inj (a b a' b' : Z) (sess : string) :
  veth_localname a b sess = veth_localname a' b' sess -> a = a' /\ b = b'.
Proof.
  unfold veth_localname. intros Heq.
  apply (append_inj_r "veth") in Heq.
  apply split_at_dot in Heq as [Ha Heq]; [|apply py_hex_dotless..].
  apply split_at_dot in Heq as [Hb _]; [|apply py_hex_dotless..].
  split; by apply py_hex_inj.
Qed.

(** X20.  The veth names tell links apart.  Take two calls of [linknet] that
    return, each between two different networks, in sessions with the
    same short id.  When the interfaces they return have the same local
    name, the two links start at networks with the same id and end at
    networks with the same id; and the two names of one interface are
    equal only when both its networks have the same id. *)
Theorem linknet_names_tell_links_apart {num : Type} {env : Env}
    (w1 w2 : World num) self1 peer1 self2 peer2 n1 p1 n2 p2 s1 s2
    netif1 netif2 w1' w2' :
  nets w1 !! self1 = Some n1 -> nets w1 !! peer1 = Some p1 ->
  self1 <> peer1 -> session n1 = Some s1 ->
  nets w2 !! self2 = Some n2 -> nets w2 !! peer2 = Some p2 ->
  self2 <> peer2 -> session n2 = Some s2 ->
  short_session_id s1 = short_session_id s2 ->
  linknet self1 peer1 w1 = (Ok netif1, w1') ->
  linknet self2 peer2 w2 = (Ok netif2, w2') ->
  (localname netif1 = localname netif2 ->
   net_id n1 = net_id n2 /\ net_id p1 = net_id p2) /\
  (localname netif1 = name netif1 -> net_id n1 = net_id p1).
Proof.
  intros Hn1 Hp1 Hne1 Hs1 Hn2 Hp2 Hne2 Hs2 Hsess Hrun1 Hrun2.
  destruct (linknet_ok_store _ _ _ _ _ _ _ _ Hn1 Hp1 Hne1 Hs1 Hrun1)
    as (-> & _ & _).
  destruct (linknet_ok_store _ _ _ _ _ _ _ _ Hn2 Hp2 Hne2 Hs2 Hrun2)
    as (-> & _ & _).
  simpl. rewrite Hsess. split; intros Heq.
  - by apply veth_localname_inj in Heq.
  - by apply veth_localname_inj in Heq as [? _].
Qed.
End VethNames.

(** The link between the two sample switches, made in two copies of the
    sample world. *)
Lemma linknet_names_tell_links_apart_witness :
  linknet (env := sample_env) 0%nat 1%nat switch_world
  = (Ok (mkInterface 10 "veth2.1.1" "veth1.2.1" 1500 None),
     snd (linknet (env := sample_env) 0%nat 1%nat switch_world)) /\
  ("veth1.2.1" = "veth1.2.1" ->
   net_id switch1 = net_id switch1 /\ net_id switch2 = net_id switch2) /\
  ("veth1.2.1" = "veth2.1.1" -> net_id switch1 = net_id switch2).
Proof.
  assert (Hrun : linknet (env := sample_env) 0%nat 1%nat switch_world
                 = (Ok (mkInterface 10 "veth2.1.1" "veth1.2.1" 1500 None),
                    snd (linknet (env := sample_env) 0%nat 1%nat switch_world)))
    by (vm_compute; reflexivity).
  split; [exact Hrun|].
  exact (linknet_names_tell_links_apart (env := sample_env)
           switch_world switch_world 0%nat 1%nat 0%nat 1%nat
           switch1 switch2 switch1 switch2 sample_session sample_session
           _ _ _ _
           eq_refl eq_refl ltac:(discriminate) eq_refl
           eq_refl eq_refl ltac:(discriminate) eq_refl
           eq_refl Hrun Hrun).
Defined.
